(** * NexussAIWrapper: memory store, attention budgeter, skill registry and
      heartbeat scheduler, embedded from the Python sources.

    Conventions of the embedding.
    - Python [int] is [Z]; [len] is [Z.of_nat] of a length.
    - Python [str] is [string]; text is taken to be one-byte (ASCII) characters,
      so [str.lower], [str.upper] and [str.split] are their ASCII versions.
    - Python [float] values that are only stored and compared ([importance]) are
      rationals [Q]: every finite float is one, and the comparisons agree.
    - A [dict] is an association list in insertion order with distinct keys
      (Python dicts iterate in insertion order, and [get_core_memory] and
      [search_archival] depend on it).
    - A [deque(maxlen=n)] is a list, oldest entry first.
    - The memory store holds what [MemoryManager] declares: [str] keys and
      [str] contents. The arguments of a tool call are whatever JSON decodes
      to ([Json]), and so is the payload of an output entry; a store into
      which a call has put a key or a content of another type is not a
      state of this embedding.
    - Reads of the wall clock ([timestamp()], [time.time()]) are arguments,
      or the [clock] field of the scheduler.
    - Writes of JSON files ([_save_core_memory], [_save_archival_block]) do not
      touch the in-memory store and are taken to complete; the store below is
      the in-memory one. *)

From Stdlib Require Import ZArith List String Ascii Bool Lia QArith.
From Stdlib Require Import Sorting.Sorted.
Import ListNotations.
Local Open Scope list_scope.
Local Open Scope string_scope.
Local Open Scope Z_scope.

(* ================================================================== *)
(** ** Python built-ins used by the sources *)
(* ================================================================== *)

Module Py.

(** [len(s)] for a string and for a list. *)
Definition len (s : string) : Z := Z.of_nat (String.length s).

Definition llen {A : Type} (l : list A) : Z := Z.of_nat (List.length l).

(** [sum(...)] over integers. *)
Definition sum (l : list Z) : Z := fold_right Z.add 0 l.

Definition is_upper (c : ascii) : bool :=
  let n := nat_of_ascii c in (65 <=? n)%nat && (n <=? 90)%nat.

Definition is_lower (c : ascii) : bool :=
  let n := nat_of_ascii c in (97 <=? n)%nat && (n <=? 122)%nat.

(** [str.isspace] on one ASCII character: TAB..CR, FS..US and the blank. *)
Definition is_space (c : ascii) : bool :=
  let n := nat_of_ascii c in
  ((9 <=? n)%nat && (n <=? 13)%nat) || ((28 <=? n)%nat && (n <=? 32)%nat).

Definition lower_char (c : ascii) : ascii :=
  if is_upper c then ascii_of_nat (nat_of_ascii c + 32) else c.

Definition upper_char (c : ascii) : ascii :=
  if is_lower c then ascii_of_nat (nat_of_ascii c - 32) else c.

Fixpoint map_string (f : ascii -> ascii) (s : string) : string :=
  match s with
  | EmptyString => EmptyString
  | String c s' => String (f c) (map_string f s')
  end.

(** [s.lower()] and [s.upper()]. *)
Definition lower (s : string) : string := map_string lower_char s.
Definition upper (s : string) : string := map_string upper_char s.

(** [s.split()]: the maximal runs of non-blank characters, in order.
    [cur] is the current word, reversed. *)
Fixpoint split_aux (s : string) (cur : list ascii) : list string :=
  let flush (rest : list string) :=
    match cur with
    | [] => rest
    | _ => string_of_list_ascii (rev cur) :: rest
    end in
  match s with
  | EmptyString => flush []
  | String c s' =>
      if is_space c then flush (split_aux s' []) else split_aux s' (c :: cur)
  end.

Definition split (s : string) : list string := split_aux s [].

(** [w in s] for strings: [w] occurs in [s] as a contiguous substring. *)
Fixpoint contains (w s : string) : bool :=
  String.prefix w s ||
  match s with
  | EmptyString => false
  | String _ s' => contains w s'
  end.

(** [sep.join(parts)]. *)
Definition join (sep : string) (parts : list string) : string :=
  String.concat sep parts.

(** [x in l] for a list of strings. *)
Definition mem (x : string) (l : list string) : bool :=
  existsb (String.eqb x) l.

(** [set(l)] for a list of strings, as the list of its distinct elements. *)
Fixpoint set (l : list string) : list string :=
  match l with
  | [] => []
  | x :: l' => if mem x l' then set l' else x :: set l'
  end.

(** A slice bound, as Python normalises it against a length [n]: a negative
    index counts from the end, and the result is clamped to [0, n]. *)
Definition clamp (i : Z) (n : nat) : nat :=
  let n' := Z.of_nat n in
  Z.to_nat (Z.max 0 (Z.min n' (if i <? 0 then i + n' else i))).

(** [l[i:]] and [l[:j]]. *)
Definition slice_from {A : Type} (i : Z) (l : list A) : list A :=
  skipn (clamp i (List.length l)) l.

Definition slice_to {A : Type} (j : Z) (l : list A) : list A :=
  firstn (clamp j (List.length l)) l.

(** [s[:j]] for a string. *)
Definition str_slice_to (j : Z) (s : string) : string :=
  String.substring 0 (clamp j (String.length s)) s.

(** [reversed(l)]. *)
Definition reversed {A : Type} (l : list A) : list A := rev l.

(** A [dict] with string keys: association list in insertion order. *)
Definition dict (V : Type) : Type := list (string * V).

Definition keys {V : Type} (d : dict V) : list string := map fst d.
Definition values {V : Type} (d : dict V) : list V := map snd d.

(** [k in d]. *)
Definition has_key {V : Type} (k : string) (d : dict V) : bool :=
  existsb (fun kv => String.eqb k (fst kv)) d.

(** [d.get(k)]. *)
Fixpoint get {V : Type} (k : string) (d : dict V) : option V :=
  match d with
  | [] => None
  | (k', v) :: d' => if String.eqb k k' then Some v else get k d'
  end.

(** In-place change of the value stored under [k] (its position is kept). *)
Definition modify {V : Type} (k : string) (f : V -> V) (d : dict V) : dict V :=
  map (fun kv => if String.eqb k (fst kv) then (fst kv, f (snd kv)) else kv) d.

(** [d[k] = v]: overwrite in place, or add at the end when [k] is new. *)
Definition setitem {V : Type} (k : string) (v : V) (d : dict V) : dict V :=
  if has_key k d then modify k (fun _ => v) d else (d ++ [(k, v)])%list.

(** [del d[k]]. *)
Definition delitem {V : Type} (k : string) (d : dict V) : dict V :=
  filter (fun kv => negb (String.eqb k (fst kv))) d.

(** A [deque(maxlen=n)]: [append] on a full deque drops the leftmost entry. *)
Definition deque_append {A : Type} (maxlen : nat) (x : A) (q : list A) : list A :=
  let q' := (q ++ [x])%list in
  if (maxlen <? List.length q')%nat then tl q' else q'.

End Py.

(* ================================================================== *)
(** ** config.py *)
(* ================================================================== *)

Module Config.

Definition HEARTBEAT_INTERVAL_SECONDS : Z := 60.
Definition HEARTBEAT_MAX_MISSED : Z := 3.
Definition CORE_MEMORY_LIMIT : Z := 2048.
Definition RECALL_MEMORY_LIMIT : nat := 100.
Definition ARCHIVAL_SEARCH_LIMIT : Z := 50.
Definition ATTENTION_WINDOW_TOKENS : Z := 4096.

End Config.

(* ================================================================== *)
(** ** Utils.py *)
(* ================================================================== *)

Module Utils.

(** [truncate(text, max_len=100)]. *)
Definition truncate (text : string) (max_len : Z) : string :=
  if max_len <? Py.len text
  then Py.str_slice_to (max_len - 3) text ++ "..."
  else text.

(** [estimate_tokens(text)]: [len(text) // 4]. *)
Definition estimate_tokens (text : string) : Z := Py.len text / 4.

End Utils.

(* ================================================================== *)
(** ** enums_and_dataclasses.py *)
(* ================================================================== *)

Inductive AgentState : Type :=
  | INITIALIZING | WAITING_INPUT | HEARTBEAT | ERROR
  | SHUTDOWN | IDLE | THINKING | EXECUTING.

Inductive MemoryType : Type := CORE | RECALL | ARCHIVAL.

Record MemoryBlock : Type := mkMemoryBlock {
  block_id : string;
  content : string;
  memory_type : MemoryType;
  created_at : string;
  updated_at : string;
  importance : Q;
  access_count : Z;
  tags : list string
}.

Definition set_content (c : string) (b : MemoryBlock) : MemoryBlock :=
  mkMemoryBlock (block_id b) c (memory_type b) (created_at b) (updated_at b)
                (importance b) (access_count b) (tags b).

Definition set_updated_at (t : string) (b : MemoryBlock) : MemoryBlock :=
  mkMemoryBlock (block_id b) (content b) (memory_type b) (created_at b) t
                (importance b) (access_count b) (tags b).

(** [block.access_count += 1]. *)
Definition bump_access (b : MemoryBlock) : MemoryBlock :=
  mkMemoryBlock (block_id b) (content b) (memory_type b) (created_at b)
                (updated_at b) (importance b) (access_count b + 1) (tags b).

(** [ollama.Message], with the two fields the sources read. *)
Record Message : Type := mkMessage {
  role : string;
  msg_content : option string
}.

Record AttentionContext : Type := mkAttentionContext {
  total_tokens : Z;
  core_tokens : Z;
  recall_tokens : Z;
  system_tokens : Z;
  available_tokens : Z;
  focus_topic : option string;
  priority_memories : list string
}.

(* ================================================================== *)
(** ** memory_system.py *)
(* ================================================================== *)

Module MemorySystem.

Import Config.

Record MemoryManager : Type := mkMemoryManager {
  agent_id : string;
  core : Py.dict MemoryBlock;
  recall : list Message;
  archival_index : Py.dict MemoryBlock
}.

Definition with_core (c : Py.dict MemoryBlock) (m : MemoryManager) : MemoryManager :=
  mkMemoryManager (agent_id m) c (recall m) (archival_index m).

Definition with_recall (r : list Message) (m : MemoryManager) : MemoryManager :=
  mkMemoryManager (agent_id m) (core m) r (archival_index m).

Definition with_archival (a : Py.dict MemoryBlock) (m : MemoryManager) : MemoryManager :=
  mkMemoryManager (agent_id m) (core m) (recall m) a.

(** [MemoryManager(agent_id)] with nothing on disk. *)
Definition init (aid : string) : MemoryManager := mkMemoryManager aid [] [] [].

Section WithHash.

(** [hash_content] (twelve hex digits of a SHA-256) only names new blocks. *)
Variable hash_content : string -> string.

(** [get_core_memory()]: the text, and the store with every core block's
    access counter incremented. *)
Definition get_core_memory (m : MemoryManager) : string * MemoryManager :=
  let parts :=
    map (fun kb => "[" ++ Py.upper (fst kb) ++ "]" ++ String (ascii_of_nat 10) ""
                   ++ content (snd kb)) (core m) in
  let core' := map (fun kb => (fst kb, bump_access (snd kb))) (core m) in
  (Py.join (String (ascii_of_nat 10) (String (ascii_of_nat 10) "")) parts,
   with_core core' m).

(** [sum(len(b.content) for k, b in self.core.items() if k != key)]. *)
Definition others_len (key : string) (c : Py.dict MemoryBlock) : Z :=
  Py.sum (map (fun kb => Py.len (content (snd kb)))
              (filter (fun kb => negb (String.eqb (fst kb) key)) c)).

(** [update_core_memory(key, content)]; [now] is what [timestamp()] reads. *)
Definition update_core_memory (key new_content now : string) (m : MemoryManager)
  : bool * MemoryManager :=
  let total_len := others_len key (core m) in
  if CORE_MEMORY_LIMIT <? total_len + Py.len new_content then (false, m)
  else if Py.has_key key (core m) then
    (true, with_core
             (Py.modify key (fun b => set_updated_at now (set_content new_content b))
                        (core m)) m)
  else
    (true, with_core
             (Py.setitem key
                (mkMemoryBlock ("core_" ++ key ++ "_" ++ hash_content new_content)
                               new_content CORE now now 1%Q 0 [])
                (core m)) m).

(** [delete_core_memory(key)]. *)
Definition delete_core_memory (key : string) (m : MemoryManager)
  : bool * MemoryManager :=
  if Py.has_key key (core m) then (true, with_core (Py.delitem key (core m)) m)
  else (false, m).

(** [add_to_recall(message)]. *)
Definition add_to_recall (message : Message) (m : MemoryManager) : MemoryManager :=
  with_recall (Py.deque_append RECALL_MEMORY_LIMIT message (recall m)) m.

(** [get_recall_messages(limit=None)]: [msgs[-limit:] if limit else msgs];
    [None] and [0] are both falsy. *)
Definition get_recall_messages (limit : option Z) (m : MemoryManager) : list Message :=
  let msgs := recall m in
  match limit with
  | None => msgs
  | Some n => if n =? 0 then msgs else Py.slice_from (- n) msgs
  end.

(** [clear_recall()]. *)
Definition clear_recall (m : MemoryManager) : MemoryManager := with_recall [] m.

(** [add_to_archival(content, tags=None, importance=0.5)]; [secs] is
    [int(time.time())] and [now] what [timestamp()] reads. *)
Definition add_to_archival (new_content : string) (new_tags : option (list string))
    (imp : Q) (secs now : string) (m : MemoryManager) : string * MemoryManager :=
  let bid := "arch_" ++ hash_content new_content ++ "_" ++ secs in
  let block :=
    mkMemoryBlock bid new_content ARCHIVAL now now imp 0
                  (match new_tags with Some ts => ts | None => [] end) in
  (bid, with_archival (Py.setitem bid block (archival_index m)) m).

(** The words of a query: [set(query.lower().split())]. *)
Definition query_words (query : string) : list string :=
  Py.set (Py.split (Py.lower query)).

(** [sum(1 for w in query_words if w in content_lower)]. *)
Definition score (words : list string) (block : MemoryBlock) : Z :=
  let content_lower := Py.lower (content block) in
  Py.llen (filter (fun w => Py.contains w content_lower) words).

(** [tags and not any(t in block.tags for t in tags)]: the block is skipped.
    [None] and the empty list are both falsy. *)
Definition tag_skip (filter_tags : option (list string)) (block : MemoryBlock) : bool :=
  match filter_tags with
  | None => false
  | Some [] => false
  | Some ts => negb (existsb (fun t => Py.mem t (tags block)) ts)
  end.

(** The loop of [search_archival] over [archival_index.values()]: the index
    with the counters of the matching blocks incremented, and [results].
    A result holds the block object itself, so it shows the new counter. *)
Fixpoint scan (filter_tags : option (list string)) (words : list string)
    (index : Py.dict MemoryBlock) : Py.dict MemoryBlock * list (Z * MemoryBlock) :=
  match index with
  | [] => ([], [])
  | (k, block) :: rest =>
      let (rest', results) := scan filter_tags words rest in
      if tag_skip filter_tags block then ((k, block) :: rest', results)
      else
        let sc := score words block in
        if 0 <? sc then
          let block' := bump_access block in
          ((k, block') :: rest', (sc, block') :: results)
        else ((k, block) :: rest', results)
  end.

(** The sort key [(x[0], x[1].importance)] and the order of Python tuples on
    it: the first components decide unless they are equal. *)
Definition key_lt (a b : Z * MemoryBlock) : bool :=
  if fst a =? fst b
  then negb (Qle_bool (importance (snd b)) (importance (snd a)))
  else fst a <? fst b.

(** [results.sort(key=..., reverse=True)]: descending, and stable (entries
    with equal keys keep their order). *)
Fixpoint insert_desc (x : Z * MemoryBlock) (l : list (Z * MemoryBlock))
  : list (Z * MemoryBlock) :=
  match l with
  | [] => [x]
  | y :: l' => if key_lt x y then y :: insert_desc x l' else x :: y :: l'
  end.

Definition sort_desc (l : list (Z * MemoryBlock)) : list (Z * MemoryBlock) :=
  fold_right insert_desc [] l.

(** [search_archival(query, limit=ARCHIVAL_SEARCH_LIMIT, tags=None)]. *)
Definition search_archival (query : string) (limit : Z)
    (filter_tags : option (list string)) (m : MemoryManager)
  : list MemoryBlock * MemoryManager :=
  let words := query_words query in
  let (index', results) := scan filter_tags words (archival_index m) in
  (map snd (Py.slice_to limit (sort_desc results)), with_archival index' m).

(** [delete_archival(block_id)]. *)
Definition delete_archival (bid : string) (m : MemoryManager) : bool * MemoryManager :=
  if Py.has_key bid (archival_index m)
  then (true, with_archival (Py.delitem bid (archival_index m)) m)
  else (false, m).

(** [get_memory_stats()], as the values of its five entries. *)
Record MemoryStats : Type := mkMemoryStats {
  core_characters : Z;
  core_limit : Z;
  recall_messages : Z;
  recall_limit : Z;
  archival_blocks : Z
}.

Definition get_memory_stats (m : MemoryManager) : MemoryStats :=
  mkMemoryStats
    (Py.sum (map (fun b => Py.len (content b)) (Py.values (core m))))
    CORE_MEMORY_LIMIT
    (Py.llen (recall m))
    (Z.of_nat RECALL_MEMORY_LIMIT)
    (Py.llen (archival_index m)).

End WithHash.

End MemorySystem.

(* ================================================================== *)
(** ** attention_mechanism.py *)
(* ================================================================== *)

Module Attention.

Import MemorySystem.

(** The manager's own fields; the memory store it reads is shared with the
    rest of the agent and is passed along with it. *)
Record AttentionManager : Type := mkAttentionManager {
  max_tokens : Z;
  context : AttentionContext
}.

Definition new_manager (budget : Z) : AttentionManager :=
  mkAttentionManager budget (mkAttentionContext 0 0 0 0 budget None []).

Definition nl : string := String (ascii_of_nat 10) "".

(** [msg.content or ""]. *)
Definition content_or_empty (msg : Message) : string :=
  match msg_content msg with
  | Some c => c
  | None => ""
  end.

(** A Python string used as a condition. *)
Definition truthy (s : option string) : bool :=
  match s with
  | None => false
  | Some "" => false
  | Some _ => true
  end.

(** [f"{system_prompt}\n\n### CORE MEMORY ###\n{core_content}"]. *)
Definition full_system (system_prompt core_content : string) : string :=
  system_prompt ++ nl ++ nl ++ "### CORE MEMORY ###" ++ nl ++ core_content.

(** The formatted archival excerpt. *)
Definition archival_content (results : list MemoryBlock) : string :=
  nl ++ "### RELEVANT MEMORIES ###" ++ nl
     ++ Py.join nl (map (fun b => "- " ++ Utils.truncate (content b) 200) results).

(** The loop over [reversed(recall_messages)]: [recall_to_add.insert(0, msg)]
    until the first message that does not fit. *)
Fixpoint fill_recall (remaining : Z) (newest_first : list Message)
    (recall_to_add : list Message) (tokens : Z) : list Message * Z :=
  match newest_first with
  | [] => (recall_to_add, tokens)
  | msg :: rest =>
      let msg_tokens := Utils.estimate_tokens (content_or_empty msg) in
      if remaining <? tokens + msg_tokens then (recall_to_add, tokens)
      else fill_recall remaining rest (msg :: recall_to_add) (tokens + msg_tokens)
  end.

(** The archival step of [build_context]: the text to add to the system
    message (when the excerpt is included), its cost, and the store. *)
Definition archival_step (focus_query : option string) (remaining : Z)
    (m : MemoryManager) : option (string * Z) * MemoryManager :=
  match focus_query with
  | Some q =>
      if truthy focus_query then
        let (archival_results, m') := search_archival q 5 None m in
        match archival_results with
        | [] => (None, m')
        | _ =>
            let text := archival_content archival_results in
            let archival_tokens := Utils.estimate_tokens text in
            if archival_tokens <? remaining / 3
            then (Some (text, archival_tokens), m')
            else (None, m')
        end
      else (None, m)
  | None => (None, m)
  end.

(** [build_context(system_prompt, focus_query=None)]: the messages, the
    context snapshot (also stored in the manager), and the memory store. *)
Definition build_context (am : AttentionManager) (system_prompt : string)
    (focus_query : option string) (m : MemoryManager)
  : (list Message * AttentionContext) * AttentionManager * MemoryManager :=
  let system_tokens := Utils.estimate_tokens system_prompt in
  let (core_content, m1) := get_core_memory m in
  let core_tokens := Utils.estimate_tokens core_content in
  let full := full_system system_prompt core_content in
  let used_tokens := system_tokens + core_tokens in
  let remaining := max_tokens am - used_tokens - 500 in
  let (excerpt, m2) := archival_step focus_query remaining m1 in
  let '(first, used_tokens, remaining) :=
    match excerpt with
    | Some (text, archival_tokens) =>
        (mkMessage "system" (Some (full ++ nl ++ text)),
         used_tokens + archival_tokens, remaining - archival_tokens)
    | None => (mkMessage "system" (Some full), used_tokens, remaining)
    end in
  let recall_messages := get_recall_messages None m2 in
  let (recall_to_add, recall_tokens) :=
    fill_recall remaining (Py.reversed recall_messages) [] 0 in
  let messages := (first :: recall_to_add)%list in
  let used_tokens := used_tokens + recall_tokens in
  let ctx :=
    mkAttentionContext used_tokens core_tokens recall_tokens system_tokens
                       (max_tokens am - used_tokens) focus_query [] in
  ((messages, ctx), mkAttentionManager (max_tokens am) ctx, m2).

End Attention.

(* ================================================================== *)
(** ** Exceptions and effects *)
(* ================================================================== *)

(** The exception classes the sources tell apart; all derive from
    [Exception]. [exc_msg] is [str(e)]. *)
Inductive ExcClass : Type := ResponseError | RequestError | OtherException.

Record Exc : Type := mkExc { exc_class : ExcClass; exc_msg : string }.

(** How a call ends: it returns a value or raises. *)
Inductive outcome (A : Type) : Type :=
  | Returned (a : A)
  | Raised (e : Exc).

Arguments Returned {A} a.
Arguments Raised {A} e.

(** A method working on shared mutable objects [W]: what was mutated before
    an exception stays mutated. *)
Definition M (W A : Type) : Type := W -> outcome A * W.

Definition ret {W A : Type} (a : A) : M W A := fun w => (Returned a, w).

Definition raise {W A : Type} (e : Exc) : M W A := fun w => (Raised e, w).

Definition bind {W A B : Type} (c : M W A) (k : A -> M W B) : M W B :=
  fun w =>
    match c w with
    | (Returned a, w') => k a w'
    | (Raised e, w') => (Raised e, w')
    end.

(** [try: c  except Exception as e: h(e)]. *)
Definition try_except {W A : Type} (c : M W A) (h : Exc -> M W A) : M W A :=
  fun w =>
    match c w with
    | (Returned a, w') => (Returned a, w')
    | (Raised e, w') => h e w'
    end.

(** A plain mutation of the shared objects. *)
Definition modify_world {W : Type} (f : W -> W) : M W unit :=
  fun w => (Returned tt, f w).

Definition read_world {W A : Type} (f : W -> A) : M W A :=
  fun w => (Returned (f w), w).

Declare Scope py_scope.
Delimit Scope py_scope with py.
Notation "x <- c ;; k" := (bind c (fun x => k))
  (at level 61, c at next level, right associativity) : py_scope.
Notation "c ;;; k" := (bind c (fun _ => k))
  (at level 61, right associativity) : py_scope.

(* ================================================================== *)
(** ** skills_tools_framework.py and skill_registry.py *)
(* ================================================================== *)

Module Skills.

(** A value a tool call can carry: what a JSON document decodes to
    ([None], [bool], [int], [float], [str], [list], [dict]). *)
#[warnings="-register-all"]
Inductive Json : Type :=
  | JNull
  | JBool (b : bool)
  | JInt (n : Z)
  | JFloat (q : Q)
  | JString (s : string)
  | JArray (items : list Json)
  | JObject (fields : list (string * Json)).

(** Keyword arguments of a tool call, in the order of the mapping. *)
Definition kwargs : Type := Py.dict Json.

(** [execute(self, name, **kwargs)] called as [execute(func_name, **args)]:
    a keyword named like one of the two parameters that are already bound
    cannot be bound, and the call raises [TypeError] before the body runs.
    The first such keyword, in the order of the mapping, is reported. *)
Definition colliding_key (args : kwargs) : option string :=
  option_map fst
    (find (fun kv => String.eqb (fst kv) "self" || String.eqb (fst kv) "name") args).

(** [str(e)] of that [TypeError] (CPython 3.10 and later name the method by
    its qualified name). *)
Definition multiple_values (k : string) : Exc :=
  mkExc OtherException
        ("SkillRegistry.execute() got multiple values for argument '" ++ k ++ "'").

Record SkillResult : Type := mkSkillResult {
  success : bool;
  output : option string;
  error : option string;
  execution_time : Q
}.

Definition set_execution_time (t : Q) (r : SkillResult) : SkillResult :=
  mkSkillResult (success r) (output r) (error r) t.

Record ToolSchema : Type := mkToolSchema {
  fn_name : string;
  fn_description : string;
  fn_properties : Py.dict (string * string);
  fn_required : list string
}.

Section WithWorld.

(** The objects the handlers can reach (memory store, output channel, wake
    flag, ...), and the clock [time.time()] reads. *)
Variable W : Type.
Variable time_time : W -> Q.

(** A [Skill]: [execute] may mutate the shared objects and may raise. *)
Record Skill : Type := mkSkill {
  name : string;
  description : string;
  parameters : Py.dict (string * string);
  execute : kwargs -> M W SkillResult
}.

Definition to_tool_schema (s : Skill) : ToolSchema :=
  mkToolSchema (name s) (description s) (parameters s) (Py.keys (parameters s)).

(** [SkillRegistry._skills]. *)
Definition SkillRegistry : Type := Py.dict Skill.

Definition register (skill : Skill) (reg : SkillRegistry) : SkillRegistry :=
  Py.setitem (name skill) skill reg.

Definition unregister (nm : string) (reg : SkillRegistry) : bool * SkillRegistry :=
  if Py.has_key nm reg then (true, Py.delitem nm reg) else (false, reg).

Definition get (nm : string) (reg : SkillRegistry) : option Skill := Py.get nm reg.

Definition list_skills (reg : SkillRegistry) : list Skill := Py.values reg.

Definition get_tools_schema (reg : SkillRegistry) : list ToolSchema :=
  map to_tool_schema (Py.values reg).

(** The body of [SkillRegistry.execute], once [name] and [kwargs] are bound. *)
Definition execute_body (reg : SkillRegistry) (nm : string) (args : kwargs)
  : M W SkillResult :=
  match get nm reg with
  | None =>
      ret (mkSkillResult false None (Some ("Skill '" ++ nm ++ "' not found")) 0%Q)
  | Some skill =>
      (start <- read_world time_time ;;
       try_except
         (result <- execute skill args ;;
          finish <- read_world time_time ;;
          ret (set_execution_time (finish - start)%Q result))
         (fun e =>
            finish <- read_world time_time ;;
            ret (mkSkillResult false None (Some (exc_msg e)) (finish - start)%Q)))%py
  end.

(** [SkillRegistry.execute(name, **kwargs)], as [_process_response] calls it
    with the arguments of a tool call: the call binds its arguments, then
    runs the body. *)
Definition registry_execute (reg : SkillRegistry) (nm : string) (args : kwargs)
  : M W SkillResult :=
  match colliding_key args with
  | Some k => raise (multiple_values k)
  | None => execute_body reg nm args
  end.

End WithWorld.

Arguments name {W} s.
Arguments description {W} s.
Arguments parameters {W} s.
Arguments execute {W} s.
Arguments mkSkill {W}.
Arguments execute_body {W}.
Arguments registry_execute {W}.
Arguments get_tools_schema {W}.
Arguments list_skills {W}.
Arguments register {W}.
Arguments unregister {W}.
Arguments get {W}.

End Skills.

(* ================================================================== *)
(** ** heartbeat_protocol.py *)
(* ================================================================== *)

Module Heartbeat.

Import Config MemorySystem Attention Skills.

Record HeartbeatEvent : Type := mkHeartbeatEvent {
  beat_id : Z;
  timestamp : string;
  event_state : AgentState;
  memory_usage : MemoryStats;
  pending_tasks : Z;
  notes : string
}.

(** The response of the model backend, with the fields the sources read. *)
Record ToolCall : Type := mkToolCall {
  function_name : string;
  function_arguments : option kwargs
}.

Record ResponseMessage : Type := mkResponseMessage {
  rm_content : option string;
  tool_calls : option (list ToolCall)
}.

Record ChatResponse : Type := mkChatResponse {
  message : option ResponseMessage
}.

(** The keyword arguments [_call_llm_chat] passes to [llm.chat]. *)
Record ChatRequest : Type := mkChatRequest {
  req_model : string;
  req_messages : list Message;
  req_stream : bool;
  req_tools : option (list ToolSchema);
  req_timeout_seconds : option Z
}.

(** The model backend: whether its [chat] takes [timeout_seconds], and what
    a call does (it returns a response or raises). *)
Record LLM : Type := mkLLM {
  takes_timeout : bool;
  chat : ChatRequest -> outcome ChatResponse
}.

(** The scheduler object. [memory] and [attention] are the objects shared with
    the agent and the skills; the two [threading.Event]s are their flags; the
    two [queue.Queue]s are lists, oldest entry first. [clock] is the wall
    clock. The skill registry is kept beside this record, since its handlers
    act on it. *)
Record HeartbeatProtocol : Type := mkHeartbeatProtocol {
  model_name : string;
  memory : MemoryManager;
  attention : AttentionManager;
  interval : Q;
  beat_count : Z;
  missed_beats : Z;
  state : AgentState;
  last_heartbeat : option Q;
  heartbeat_history : list HeartbeatEvent;
  stop_event : bool;
  heartbeat_requested : bool;
  user_input_queue : list string;
  output_queue : list (string * Json);
  thread_alive : bool;
  is_local : bool;
  clock : Q
}.

Definition LOCAL_MODEL_TIMEOUT_SECONDS : Z := 120.

(** Field updates. *)
Definition with_memory (x : MemoryManager) (h : HeartbeatProtocol) :=
  mkHeartbeatProtocol (model_name h) x (attention h) (interval h) (beat_count h)
    (missed_beats h) (state h) (last_heartbeat h) (heartbeat_history h)
    (stop_event h) (heartbeat_requested h) (user_input_queue h) (output_queue h)
    (thread_alive h) (is_local h) (clock h).

Definition with_attention (x : AttentionManager) (h : HeartbeatProtocol) :=
  mkHeartbeatProtocol (model_name h) (memory h) x (interval h) (beat_count h)
    (missed_beats h) (state h) (last_heartbeat h) (heartbeat_history h)
    (stop_event h) (heartbeat_requested h) (user_input_queue h) (output_queue h)
    (thread_alive h) (is_local h) (clock h).

Definition with_beat_count (x : Z) (h : HeartbeatProtocol) :=
  mkHeartbeatProtocol (model_name h) (memory h) (attention h) (interval h) x
    (missed_beats h) (state h) (last_heartbeat h) (heartbeat_history h)
    (stop_event h) (heartbeat_requested h) (user_input_queue h) (output_queue h)
    (thread_alive h) (is_local h) (clock h).

Definition with_missed_beats (x : Z) (h : HeartbeatProtocol) :=
  mkHeartbeatProtocol (model_name h) (memory h) (attention h) (interval h)
    (beat_count h) x (state h) (last_heartbeat h) (heartbeat_history h)
    (stop_event h) (heartbeat_requested h) (user_input_queue h) (output_queue h)
    (thread_alive h) (is_local h) (clock h).

Definition with_state (x : AgentState) (h : HeartbeatProtocol) :=
  mkHeartbeatProtocol (model_name h) (memory h) (attention h) (interval h)
    (beat_count h) (missed_beats h) x (last_heartbeat h) (heartbeat_history h)
    (stop_event h) (heartbeat_requested h) (user_input_queue h) (output_queue h)
    (thread_alive h) (is_local h) (clock h).

Definition with_last_heartbeat (x : option Q) (h : HeartbeatProtocol) :=
  mkHeartbeatProtocol (model_name h) (memory h) (attention h) (interval h)
    (beat_count h) (missed_beats h) (state h) x (heartbeat_history h)
    (stop_event h) (heartbeat_requested h) (user_input_queue h) (output_queue h)
    (thread_alive h) (is_local h) (clock h).

Definition with_history (x : list HeartbeatEvent) (h : HeartbeatProtocol) :=
  mkHeartbeatProtocol (model_name h) (memory h) (attention h) (interval h)
    (beat_count h) (missed_beats h) (state h) (last_heartbeat h) x
    (stop_event h) (heartbeat_requested h) (user_input_queue h) (output_queue h)
    (thread_alive h) (is_local h) (clock h).

Definition with_stop_event (x : bool) (h : HeartbeatProtocol) :=
  mkHeartbeatProtocol (model_name h) (memory h) (attention h) (interval h)
    (beat_count h) (missed_beats h) (state h) (last_heartbeat h)
    (heartbeat_history h) x (heartbeat_requested h) (user_input_queue h)
    (output_queue h) (thread_alive h) (is_local h) (clock h).

Definition with_heartbeat_requested (x : bool) (h : HeartbeatProtocol) :=
  mkHeartbeatProtocol (model_name h) (memory h) (attention h) (interval h)
    (beat_count h) (missed_beats h) (state h) (last_heartbeat h)
    (heartbeat_history h) (stop_event h) x (user_input_queue h)
    (output_queue h) (thread_alive h) (is_local h) (clock h).

Definition with_input_queue (x : list string) (h : HeartbeatProtocol) :=
  mkHeartbeatProtocol (model_name h) (memory h) (attention h) (interval h)
    (beat_count h) (missed_beats h) (state h) (last_heartbeat h)
    (heartbeat_history h) (stop_event h) (heartbeat_requested h) x
    (output_queue h) (thread_alive h) (is_local h) (clock h).

Definition with_output_queue (x : list (string * Json)) (h : HeartbeatProtocol) :=
  mkHeartbeatProtocol (model_name h) (memory h) (attention h) (interval h)
    (beat_count h) (missed_beats h) (state h) (last_heartbeat h)
    (heartbeat_history h) (stop_event h) (heartbeat_requested h)
    (user_input_queue h) x (thread_alive h) (is_local h) (clock h).

Definition with_thread_alive (x : bool) (h : HeartbeatProtocol) :=
  mkHeartbeatProtocol (model_name h) (memory h) (attention h) (interval h)
    (beat_count h) (missed_beats h) (state h) (last_heartbeat h)
    (heartbeat_history h) (stop_event h) (heartbeat_requested h)
    (user_input_queue h) (output_queue h) x (is_local h) (clock h).

Definition with_clock (x : Q) (h : HeartbeatProtocol) :=
  mkHeartbeatProtocol (model_name h) (memory h) (attention h) (interval h)
    (beat_count h) (missed_beats h) (state h) (last_heartbeat h)
    (heartbeat_history h) (stop_event h) (heartbeat_requested h)
    (user_input_queue h) (output_queue h) (thread_alive h) (is_local h) x.

(** [self._output_queue.put(item)]: a kind and a payload. *)
Definition output_put (item : string * Json) (h : HeartbeatProtocol) :=
  with_output_queue (output_queue h ++ [item])%list h.

(** [HeartbeatProtocol(llm, model_name, memory, skills, attention, interval)]
    at clock reading [t]; [local] is [isinstance(llm, LocalModel)]. *)
Definition init (local : bool) (mname : string) (mem : MemoryManager)
    (att : AttentionManager) (ivl t : Q) : HeartbeatProtocol :=
  mkHeartbeatProtocol mname mem att ivl 0 0 INITIALIZING None [] false false
                      [] [] false local t.

(** [start()]: nothing when the worker is alive; else the stop flag is
    cleared, the worker is started, and the state is [IDLE]. *)
Definition start (h : HeartbeatProtocol) : HeartbeatProtocol :=
  if thread_alive h then h
  else with_state IDLE (with_thread_alive true (with_stop_event false h)).

(** [send_user_input(message)]. *)
Definition send_user_input (msg : string) (h : HeartbeatProtocol) : HeartbeatProtocol :=
  with_heartbeat_requested true (with_input_queue (user_input_queue h ++ [msg])%list h).

(** [get_output()]: the oldest entry of the output channel, if any. *)
Definition get_output (h : HeartbeatProtocol)
  : option (string * Json) * HeartbeatProtocol :=
  match output_queue h with
  | [] => (None, h)
  | item :: rest => (Some item, with_output_queue rest h)
  end.

(** [threading.Event.wait(timeout)] seen from the waiting thread, while no
    other thread sets the flag: whether it was set, and the time blocked. *)
Definition event_wait (flag : bool) (timeout : Q) : bool * Q :=
  if flag then (true, 0%Q) else (false, timeout).

(** The longest [Thread.join(timeout=5.0)] blocks. *)
Definition JOIN_TIMEOUT : Q := 5%Q.

(** [stop()], as far as it writes the scheduler's fields: it sets
    [_stop_event], waits for the worker in [join], and sets [state]. *)
Definition stop (h : HeartbeatProtocol) : HeartbeatProtocol :=
  with_state SHUTDOWN (with_stop_event true h).

(** What the scheduler gets from outside the modelled code: the text
    formatting of the two prompt templates, of the status block and of a tool
    result ([json.dumps] raises on a value it cannot serialise), the ISO text
    of a clock reading, and the registered skills, whose handlers act on the
    scheduler's objects. *)
Record Environment : Type := mkEnvironment {
  format_heartbeat_prompt : string -> Z -> string;
  format_local_prompt : string -> string -> string;
  _build_status_block : HeartbeatProtocol -> string;
  json_dumps : string -> option string -> outcome string;
  isoformat : Q -> string;
  skills : SkillRegistry HeartbeatProtocol
}.

Section WithEnvironment.

Variable env : Environment.

(** [_call_llm_chat(messages)]. *)
Definition _call_llm_chat (llm : LLM) (messages : list Message)
  : M HeartbeatProtocol ChatResponse :=
  fun h =>
    let tools := if is_local h then None else Some (get_tools_schema (skills env)) in
    let timeout := if takes_timeout llm then Some LOCAL_MODEL_TIMEOUT_SECONDS else None in
    (chat llm (mkChatRequest (model_name h) messages false tools timeout), h).

(** One tool call of [_process_response]; [messages] is the caller's list. *)
Definition run_tool_call (tc : ToolCall) (messages : list Message)
  : M HeartbeatProtocol (list Message) :=
  (let func_name := function_name tc in
   let func_args := match function_arguments tc with Some a => a | None => [] end in
   result <- registry_execute clock (skills env) func_name func_args ;;
   text <- (fun h => (json_dumps env func_name
                        (if success result then output result else error result), h)) ;;
   ret (messages ++ [mkMessage "tool" (Some text)])%list)%py.

Fixpoint run_tool_calls (tcs : list ToolCall) (messages : list Message)
  : M HeartbeatProtocol (list Message) :=
  match tcs with
  | [] => ret messages
  | tc :: rest =>
      (messages' <- run_tool_call tc messages ;; run_tool_calls rest messages')%py
  end.

(** A list used as a condition. *)
Definition nonempty {A : Type} (l : option (list A)) : bool :=
  match l with
  | Some (_ :: _) => true
  | _ => false
  end.

(** [_process_response(response, messages)]. *)
Definition _process_response (response : ChatResponse) (messages : list Message)
  : M HeartbeatProtocol unit :=
  match message response with
  | None => ret tt
  | Some msg =>
      (modify_world (fun h =>
         with_memory
           (add_to_recall
              (mkMessage "assistant"
                 (Some (match rm_content msg with Some c => c | None => "" end)))
              (memory h)) h) ;;;
       (if nonempty (tool_calls msg) then
          modify_world (with_state EXECUTING) ;;;
          _ <- run_tool_calls
                 (match tool_calls msg with Some l => l | None => [] end) messages ;;
          ret tt
        else ret tt) ;;;
       (if truthy (rm_content msg) && negb (nonempty (tool_calls msg)) then
          modify_world
            (output_put
               ("message",
                JString (match rm_content msg with Some c => c | None => "" end)))
        else ret tt))%py
  end.

(** The first part of a cycle, up to [build_context]: the drained inputs and
    the messages built. *)
Definition gather (h : HeartbeatProtocol)
  : (list string * list Message) * HeartbeatProtocol :=
  let h := with_beat_count (beat_count h + 1) h in
  let h := with_state HEARTBEAT h in
  let h := with_last_heartbeat (Some (clock h)) h in
  let user_messages := user_input_queue h in
  let h := with_input_queue [] h in
  let h :=
    with_memory
      (fold_left (fun m msg => add_to_recall (mkMessage "user" (Some msg)) m)
                 user_messages (memory h)) h in
  let system_prompt :=
    if is_local h
    then format_local_prompt env (isoformat env (clock h)) (_build_status_block env h)
    else format_heartbeat_prompt env (isoformat env (clock h)) (beat_count h) in
  let focus := last (map Some user_messages) None in
  let '(messages, _, att, mem) :=
    build_context (attention h) system_prompt focus (memory h) in
  ((user_messages, messages), with_memory mem (with_attention att h)).

(** The message appended after the context; [None] is the early [return] of
    a local backend with nothing queued. *)
Definition closing_message (user_messages : list string) (h : HeartbeatProtocol)
  : option Message :=
  match user_messages with
  | _ :: _ =>
      if is_local h then
        Some (mkMessage "user"
                (Some ("[Your internal status for reference]" ++ nl
                       ++ _build_status_block env h ++ nl ++ nl
                       ++ "User message: " ++ last user_messages "")))
      else
        let hint :=
          nl ++ nl ++ "[PENDING USER INPUT]" ++ nl
             ++ Py.join nl (map (fun m => "User: " ++ m) user_messages) in
        Some (mkMessage "user" (Some ("Process these messages and respond." ++ hint)))
  | [] =>
      if is_local h then None
      else Some (mkMessage "user" (Some "Heartbeat tick. Reflect and act if needed."))
  end.

(** The request a cycle sends to the backend, [None] when it sends none. *)
Definition cycle_request (llm : LLM) (h : HeartbeatProtocol) : option ChatRequest :=
  let '((user_messages, messages), h1) := gather h in
  match closing_message user_messages h1 with
  | None => None
  | Some closing =>
      Some (mkChatRequest (model_name h1) (messages ++ [closing])%list false
              (if is_local h1 then None else Some (get_tools_schema (skills env)))
              (if takes_timeout llm then Some LOCAL_MODEL_TIMEOUT_SECONDS else None))
  end.

(** The guarded model call: both [except] clauses put [("error", str(e))]. *)
Definition think (llm : LLM) (messages : list Message) : M HeartbeatProtocol unit :=
  try_except
    (response <- _call_llm_chat llm messages ;; _process_response response messages)%py
    (fun e => modify_world (output_put ("error", JString (exc_msg e)))).

(** The end of a cycle: the event, [IDLE], and the counter reset. *)
Definition record_event (pending : list string) (triggered_by_event : bool)
    (h : HeartbeatProtocol) : HeartbeatProtocol :=
  let event :=
    mkHeartbeatEvent (beat_count h) (isoformat env (clock h)) (state h)
      (get_memory_stats (memory h)) (Py.llen pending)
      ("triggered=" ++ (if triggered_by_event then "True" else "False")) in
  let h := with_history (Py.deque_append 100 event (heartbeat_history h)) h in
  let h := with_state IDLE h in
  with_missed_beats 0 h.

(** [_execute_heartbeat(triggered_by_event)]. *)
Definition _execute_heartbeat (llm : LLM) (triggered_by_event : bool)
  : M HeartbeatProtocol unit :=
  fun h =>
    let '((user_messages, messages), h) := gather h in
    match closing_message user_messages h with
    | None => (Returned tt, h)
    | Some closing =>
        let messages := (messages ++ [closing])%list in
        (modify_world (with_state THINKING) ;;;
         think llm messages ;;;
         modify_world (record_event user_messages triggered_by_event))%py h
    end.

(** What the loop does next. *)
Inductive LoopStep : Type := Continue | Break.

(** One pass of the [while] body of [_heartbeat_loop], entered with the stop
    flag clear: the wait (the flags as they are when it returns), the stop
    check, the cycle, and the outer [except]. *)
Definition loop_body (llm : LLM) (h : HeartbeatProtocol) : LoopStep * HeartbeatProtocol :=
  let (triggered, _) := event_wait (heartbeat_requested h) (interval h) in
  let h := with_heartbeat_requested false h in
  if stop_event h then (Break, h)
  else
    match _execute_heartbeat llm triggered h with
    | (Returned _, h') => (Continue, h')
    | (Raised _, h') =>
        let h' := with_missed_beats (missed_beats h' + 1) h' in
        (Continue,
         if HEARTBEAT_MAX_MISSED <=? missed_beats h' then with_state ERROR h' else h')
    end.

(** What other threads do to the scheduler between two passes. *)
Inductive Action : Type :=
  | SendInput (msg : string)
  | Stop
  | Tick (elapsed : Q).

Definition act (a : Action) (h : HeartbeatProtocol) : HeartbeatProtocol :=
  match a with
  | SendInput msg => send_user_input msg h
  | Stop => stop h
  | Tick e => with_clock (clock h + e)%Q h
  end.

(** [_heartbeat_loop()] against a schedule: for each pass, what the other
    threads did before the wait returned, and the backend of that pass. The
    result tells whether the loop has ended within the schedule. *)
Fixpoint _heartbeat_loop (schedule : list (list Action * LLM)) (h : HeartbeatProtocol)
  : bool * HeartbeatProtocol :=
  if stop_event h then (true, h)
  else
    match schedule with
    | [] => (false, h)
    | (actions, llm) :: rest =>
        let h := fold_left (fun h a => act a h) actions h in
        match loop_body llm h with
        | (Break, h') => (true, h')
        | (Continue, h') => _heartbeat_loop rest h'
        end
    end.

End WithEnvironment.

End Heartbeat.

(* ================================================================== *)
(** ** local_model_wrapper.py: the message normalisation of [LocalModel.chat] *)
(* ================================================================== *)

Module LocalModelWrapper.

(** A message as [chat] reads it, a dict or an object: [role] and [content],
    either of which may be missing. *)
Record ChatMessage : Type := mkChatMessage {
  cm_role : option string;
  cm_content : option string
}.

(** An entry of [merged] and of [final]: [{"role": ..., "content": ...}]. *)
Definition Turn : Type := (string * string)%type.

Definition newline : string := String (ascii_of_nat 10) "".

(** The step both loops share: when the list is not empty and its last
    entry has the role, ["\n" + content] is added to that entry; otherwise a
    new entry is appended. *)
Fixpoint push (turns : list Turn) (role content : string) : list Turn :=
  match turns with
  | [] => [(role, content)]
  | (r, c) :: rest =>
      match rest with
      | [] =>
          if String.eqb r role then [(r, c ++ newline ++ content)]
          else [(r, c); (role, content)]
      | _ :: _ => (r, c) :: push rest role content
      end
  end.

(** The first loop: system messages are buffered and folded into the next
    user turn, tool results become user turns, consecutive turns of one role
    are collapsed. *)
Fixpoint merge_loop (messages : list ChatMessage) (merged : list Turn)
    (system_buf : list string) : list Turn * list string :=
  match messages with
  | [] => (merged, system_buf)
  | msg :: rest =>
      let role := match cm_role msg with Some r => r | None => "user" end in
      let content := match cm_content msg with Some c => c | None => "" end in
      if String.eqb role "system" then
        merge_loop rest merged (system_buf ++ [content])%list
      else
        let role' := if String.eqb role "tool" then "user" else role in
        let content' :=
          if String.eqb role "tool" then "[Tool result] " ++ content else content in
        match system_buf with
        | _ :: _ =>
            if String.eqb role' "user" then
              merge_loop rest
                (push merged role'
                      (Py.join newline system_buf ++ newline ++ newline ++ content'))
                []
            else merge_loop rest (push merged role' content') system_buf
        | [] => merge_loop rest (push merged role' content') system_buf
        end
  end.

(** The system content left in the buffer goes to a last user turn. *)
Definition flush (merged : list Turn) (system_buf : list string) : list Turn :=
  match system_buf with
  | [] => merged
  | _ :: _ => push merged "user" (Py.join newline system_buf)
  end.

(** An empty list gets an empty user turn; a list that does not start with
    a user turn gets a ["(start)"] user turn in front. *)
Definition start_with_user (merged : list Turn) : list Turn :=
  match merged with
  | [] => [("user", "")]
  | (r, c) :: rest =>
      if String.eqb r "user" then merged else ("user", "(start)") :: merged
  end.

(** The second loop, over [merged[1:]] from [[merged[0]]]. *)
Definition alternate (merged : list Turn) : list Turn :=
  match merged with
  | [] => []
  | first :: rest => fold_left (fun final m => push final (fst m) (snd m)) rest [first]
  end.

(** [final], the list handed to the chat template. *)
Definition normalize (messages : list ChatMessage) : list Turn :=
  let (merged, system_buf) := merge_loop messages [] [] in
  alternate (start_with_user (flush merged system_buf)).

End LocalModelWrapper.

(* ================================================================== *)
(** ** builtin_skills.py *)
(* ================================================================== *)

Module BuiltinSkills.

Import MemorySystem Skills Heartbeat.

Section WithHost.

(** What the skills get from outside the modelled code: [hash_content], the
    ISO text of a clock reading (for [timestamp()]), the text of the
    [TypeError] the interpreter raises when keyword arguments do not fit the
    signature of the named [execute], and [repr] of a decoded value. *)
Variable hash_content : string -> string.
Variable isoformat : Q -> string.
Variable type_error : string -> kwargs -> string.
Variable py_repr : Json -> string.

(** What [CoreMemoryUpdateSkill.execute] does when its two arguments are
    bound and one of them is not a [str], against its signature: the call
    may then leave a key or a content in the store that is not a string,
    which [MemoryManager] as embedded here does not hold. Nothing is assumed
    about it. *)
Variable off_signature : kwargs -> M HeartbeatProtocol SkillResult.

(** A call of [skill.execute] with keyword arguments that do not fit. *)
Definition bad_call (nm : string) (args : kwargs) : M HeartbeatProtocol SkillResult :=
  raise (mkExc OtherException (type_error nm args)).

(** Every keyword is one of the parameters. *)
Definition only_keys (allowed : list string) (args : kwargs) : bool :=
  forallb (fun kv => Py.mem (fst kv) allowed) args.

(** [str(value)], as an f-string formats it: the text of a [str], and
    [repr] for every other decoded value. *)
Definition py_str (v : Json) : string :=
  match v with
  | JString text => text
  | _ => py_repr v
  end.

(** [CoreMemoryUpdateSkill.execute(key, content)]. *)
Definition core_memory_update_execute (args : kwargs)
  : M HeartbeatProtocol SkillResult :=
  match Py.get "key" args, Py.get "content" args with
  | Some key_value, Some content_value =>
      if only_keys ["key"; "content"] args then
        match key_value, content_value with
        | JString key, JString new_content =>
            fun h =>
              let (ok, m) :=
                update_core_memory hash_content key new_content
                                   (isoformat (clock h)) (memory h) in
              (Returned
                 (mkSkillResult ok
                    (Some (if ok then "Core '" ++ key ++ "' updated"
                           else "Limit exceeded"))
                    None 0%Q),
               with_memory m h)
        | _, _ => off_signature args
        end
      else bad_call "core_memory_update" args
  | _, _ => bad_call "core_memory_update" args
  end.

Definition CoreMemoryUpdateSkill : Skill HeartbeatProtocol :=
  mkSkill "core_memory_update" "Update core memory (persona/user info)"
          [("key", ("string", "Memory key")); ("content", ("string", "New content"))]
          core_memory_update_execute.

(** [CoreMemoryReadSkill.execute()]. *)
Definition core_memory_read_execute (args : kwargs)
  : M HeartbeatProtocol SkillResult :=
  match args with
  | [] =>
      fun h =>
        let (text, m) := get_core_memory (memory h) in
        (Returned (mkSkillResult true (Some text) None 0%Q), with_memory m h)
  | _ :: _ => bad_call "core_memory_read" args
  end.

Definition CoreMemoryReadSkill : Skill HeartbeatProtocol :=
  mkSkill "core_memory_read" "Read core memory contents" [] core_memory_read_execute.

(** [SendMessageSkill.execute(message)]: the skill holds the scheduler's
    output queue, and puts the value it is given, whatever its type. *)
Definition send_message_execute (args : kwargs) : M HeartbeatProtocol SkillResult :=
  match Py.get "message" args with
  | Some msg =>
      if only_keys ["message"] args then
        fun h =>
          (Returned (mkSkillResult true (Some "Sent.") None 0%Q),
           output_put ("message", msg) h)
      else bad_call "send_message" args
  | None => bad_call "send_message" args
  end.

Definition SendMessageSkill : Skill HeartbeatProtocol :=
  mkSkill "send_message" "Send message to user"
          [("message", ("string", "Message content"))] send_message_execute.

(** [RequestHeartbeatSkill.execute(reason="")]: the skill holds the
    scheduler's wake event. *)
Definition request_heartbeat_execute (args : kwargs)
  : M HeartbeatProtocol SkillResult :=
  if only_keys ["reason"] args then
    fun h =>
      let reason :=
        match Py.get "reason" args with Some r => r | None => JString "" end in
      (Returned (mkSkillResult true (Some ("Heartbeat scheduled: " ++ py_str reason))
                               None 0%Q),
       with_heartbeat_requested true h)
  else bad_call "request_heartbeat" args.

Definition RequestHeartbeatSkill : Skill HeartbeatProtocol :=
  mkSkill "request_heartbeat" "Request another thinking cycle"
          [("reason", ("string", "Reason"))] request_heartbeat_execute.

(** The two registrations of [HeartbeatProtocol.__init__]. *)
Definition with_scheduler_skills (reg : SkillRegistry HeartbeatProtocol)
  : SkillRegistry HeartbeatProtocol :=
  register RequestHeartbeatSkill (register SendMessageSkill reg).

End WithHost.

End BuiltinSkills.

(* ================================================================== *)
(** * Properties *)
(* ================================================================== *)

Local Open Scope list_scope.

(** ** Dictionaries and slices *)

Module PyFacts.

Import Py.

Lemma eqb_flip (a b : string) : String.eqb a b = String.eqb b a.
Proof. apply String.eqb_sym. Qed.

Lemma has_key_in {V : Type} (k : string) (d : dict V) :
  has_key k d = true <-> In k (keys d).
Proof.
  unfold has_key, keys. rewrite existsb_exists. split.
  - intros [kv [Hin Heq]]. apply String.eqb_eq in Heq. subst k.
    now apply in_map.
  - intros Hin. apply in_map_iff in Hin. destruct Hin as [kv [Hk Hin]].
    exists kv. split; [exact Hin | now apply String.eqb_eq].
Qed.

Lemma has_key_false {V : Type} (k : string) (d : dict V) :
  has_key k d = false <-> ~ In k (keys d).
Proof.
  rewrite <- has_key_in. destruct (has_key k d); split; intros; congruence.
Qed.

Lemma keys_modify {V : Type} (k : string) (f : V -> V) (d : dict V) :
  keys (modify k f d) = keys d.
Proof.
  unfold keys, modify. rewrite map_map. apply map_ext.
  intros [k' v]. simpl. now destruct (String.eqb k k').
Qed.

Lemma modify_absent {V : Type} (k : string) (f : V -> V) (d : dict V) :
  ~ In k (keys d) -> modify k f d = d.
Proof.
  induction d as [| [k' v] d IH]; simpl; intros Hn; [reflexivity |].
  destruct (String.eqb_spec k k') as [-> | _].
  - exfalso. apply Hn. now left.
  - f_equal. apply IH. intros Hin. apply Hn. now right.
Qed.

Lemma get_modify_same {V : Type} (k : string) (f : V -> V) (d : dict V) :
  get k (modify k f d) = option_map f (get k d).
Proof.
  induction d as [| [k' v] d IH]; simpl; [reflexivity |].
  destruct (String.eqb_spec k k') as [-> | Hne]; simpl.
  - now rewrite String.eqb_refl.
  - destruct (String.eqb_spec k k'); [contradiction | exact IH].
Qed.

Lemma get_modify_other {V : Type} (k k0 : string) (f : V -> V) (d : dict V) :
  k0 <> k -> get k0 (modify k f d) = get k0 d.
Proof.
  intros Hne. induction d as [| [k' v] d IH]; simpl; [reflexivity |].
  destruct (String.eqb_spec k k') as [-> | Hk]; simpl.
  - destruct (String.eqb_spec k0 k'); [contradiction | exact IH].
  - destruct (String.eqb_spec k0 k'); [reflexivity | exact IH].
Qed.

Lemma get_app_new {V : Type} (k : string) (v : V) (d : dict V) :
  ~ In k (keys d) -> get k (d ++ [(k, v)]) = Some v.
Proof.
  induction d as [| [k' v'] d IH]; simpl; intros Hn.
  - now rewrite String.eqb_refl.
  - destruct (String.eqb_spec k k') as [-> | _].
    + exfalso. apply Hn. now left.
    + apply IH. intros Hin. apply Hn. now right.
Qed.

Lemma get_app_other {V : Type} (k k0 : string) (v : V) (d : dict V) :
  k0 <> k -> get k0 (d ++ [(k, v)]) = get k0 d.
Proof.
  intros Hne. induction d as [| [k' v'] d IH]; simpl.
  - destruct (String.eqb_spec k0 k); [contradiction | reflexivity].
  - destruct (String.eqb k0 k'); [reflexivity | exact IH].
Qed.

Lemma get_some_in {V : Type} (k : string) (v : V) (d : dict V) :
  get k d = Some v -> In (k, v) d.
Proof.
  induction d as [| [k' v'] d IH]; simpl; [discriminate |].
  destruct (String.eqb_spec k k') as [-> | _].
  - intros [= ->]. now left.
  - intros H. right. now apply IH.
Qed.

Lemma get_in_keys {V : Type} (k : string) (d : dict V) :
  In k (keys d) -> exists v, get k d = Some v.
Proof.
  induction d as [| [k' v'] d IH]; simpl; [tauto |].
  intros [-> | Hin].
  - exists v'. now rewrite String.eqb_refl.
  - destruct (String.eqb k k'); [now exists v' | now apply IH].
Qed.

Lemma NoDup_snoc {A : Type} (x : A) (l : list A) :
  NoDup l -> ~ In x l -> NoDup (l ++ [x]).
Proof.
  induction l as [| y l IH]; simpl; intros Hnd Hn.
  - constructor; [tauto | constructor].
  - inversion Hnd as [| ? ? Hy Hl]; subst. constructor.
    + rewrite in_app_iff. simpl. intros [H | [H | []]]; [tauto |].
      apply Hn. now left.
    + apply IH; [exact Hl |]. intros H. apply Hn. now right.
Qed.

Lemma firstn_in {A : Type} (x : A) (n : nat) (l : list A) :
  In x (firstn n l) -> In x l.
Proof.
  revert n. induction l as [| y l IH]; intros [| n]; simpl; try tauto.
  intros [-> | H]; [now left | right; eauto].
Qed.

Lemma sum_app (l1 l2 : list Z) : sum (l1 ++ l2) = sum l1 + sum l2.
Proof.
  induction l1 as [| x l1 IH]; simpl; [reflexivity |].
  unfold sum in *. simpl. rewrite IH. lia.
Qed.

(** The clamp of a bound at or beyond the end, and of a negative offset. *)
Lemma clamp_neg (n : Z) (len : nat) :
  0 < n -> clamp (- n) len = (len - Z.to_nat n)%nat.
Proof.
  intros Hn. unfold clamp.
  destruct (Z.ltb_spec (- n) 0) as [_ | Hc]; [| lia]. lia.
Qed.

Lemma clamp_le (i : Z) (len : nat) : (clamp i len <= len)%nat.
Proof. unfold clamp. destruct (i <? 0); lia. Qed.

Lemma clamp_nonneg_le (i : Z) (len : nat) : 0 <= i -> Z.of_nat (clamp i len) <= i.
Proof.
  intros Hi. unfold clamp. destruct (Z.ltb_spec i 0) as [Hc | _]; lia.
Qed.

(** A bounded deque stays bounded, and [append] is a FIFO step. *)
Lemma deque_append_length {A : Type} (n : nat) (x : A) (q : list A) :
  (List.length q <= n)%nat -> (List.length (deque_append n x q) <= n)%nat.
Proof.
  intros Hq. unfold deque_append.
  destruct (Nat.ltb_spec n (List.length (q ++ [x]))) as [Hlt | Hge]; [| exact Hge].
  rewrite length_app in Hlt. simpl in Hlt.
  destruct q as [| y q]; simpl in *; [lia |].
  rewrite length_app. simpl. lia.
Qed.

Lemma deque_append_room {A : Type} (n : nat) (x : A) (q : list A) :
  (List.length q < n)%nat -> deque_append n x q = q ++ [x].
Proof.
  intros Hq. unfold deque_append.
  destruct (Nat.ltb_spec n (List.length (q ++ [x]))) as [Hlt | _]; [| reflexivity].
  rewrite length_app in Hlt. simpl in Hlt. lia.
Qed.

Lemma deque_append_full {A : Type} (n : nat) (x : A) (q : list A) :
  (0 < n)%nat -> List.length q = n ->
  exists oldest rest, q = oldest :: rest /\ deque_append n x q = rest ++ [x].
Proof.
  intros Hn Hq. destruct q as [| y q]; simpl in Hq; [lia |].
  exists y, q. split; [reflexivity |]. unfold deque_append.
  destruct (Nat.ltb_spec n (List.length ((y :: q) ++ [x]))) as [_ | Hge].
  - reflexivity.
  - rewrite length_app in Hge. simpl in Hge. lia.
Qed.

End PyFacts.

(** ** The memory store *)

Module MemoryFacts.

Import Py PyFacts Config MemorySystem.

(** The characters held by the core tier, as [get_memory_stats] counts them. *)
Definition core_chars (c : dict MemoryBlock) : Z :=
  sum (map (fun kb => len (content (snd kb))) c).

(** A core store whose keys are distinct (as in any Python dict) and whose
    contents fit the budget. *)
Definition within_budget (m : MemoryManager) : Prop :=
  NoDup (keys (core m)) /\ core_chars (core m) <= CORE_MEMORY_LIMIT.

(** A call of [update_core_memory]: key, content, and the clock reading. *)
Definition write_call : Type := (string * string * string)%type.

Section WithHash.

Variable hash_content : string -> string.

(** The store after a sequence of [update_core_memory] calls. *)
Definition run_writes (calls : list write_call) (m : MemoryManager) : MemoryManager :=
  fold_left
    (fun m '(key, c, now) => snd (update_core_memory hash_content key c now m))
    calls m.

Lemma core_chars_stats (m : MemoryManager) :
  core_characters (get_memory_stats m) = core_chars (core m).
Proof.
  unfold get_memory_stats, core_chars, values. simpl. now rewrite map_map.
Qed.

Lemma others_len_absent (key : string) (c : dict MemoryBlock) :
  ~ In key (keys c) -> others_len key c = core_chars c.
Proof.
  induction c as [| [k b] c IH]; intros Hn; [reflexivity |].
  unfold others_len, core_chars in *. simpl.
  destruct (String.eqb_spec k key) as [-> | _]; simpl.
  - exfalso. apply Hn. now left.
  - rewrite IH; [reflexivity |]. intros Hin. apply Hn. now right.
Qed.

Lemma others_len_nonneg (key : string) (c : dict MemoryBlock) : 0 <= others_len key c.
Proof.
  unfold others_len, sum. induction c as [| [k b] c IH]; simpl; [lia |].
  destruct (negb (String.eqb k key)); simpl; [| exact IH].
  assert (0 <= len (content b)) by (unfold len; lia). lia.
Qed.

(** Rewriting the content stored under a key that is present. *)
Lemma core_chars_modify (key new_content : string) (f : MemoryBlock -> MemoryBlock)
    (c : dict MemoryBlock) :
  (forall b, content (f b) = new_content) ->
  NoDup (keys c) -> In key (keys c) ->
  core_chars (modify key f c) = others_len key c + len new_content.
Proof.
  intros Hf. induction c as [| [k b] c IH]; simpl; intros Hnd Hin; [tauto |].
  inversion Hnd as [| ? ? Hnotin Hnd']; subst.
  unfold core_chars, others_len in *. simpl.
  destruct (String.eqb_spec key k) as [<- | Hne].
  - rewrite String.eqb_refl. simpl. rewrite Hf.
    rewrite (modify_absent key f c Hnotin).
    pose proof (others_len_absent key c Hnotin) as Ho.
    unfold others_len, core_chars in Ho. rewrite Ho. lia.
  - destruct (String.eqb_spec k key) as [Heq | _]; [congruence |]. simpl.
    destruct Hin as [Heq | Hin]; [congruence |].
    rewrite (IH Hnd' Hin). lia.
Qed.

(** Adding a block under a key that is absent. *)
Lemma core_chars_append (key : string) (b : MemoryBlock) (c : dict MemoryBlock) :
  ~ In key (keys c) ->
  core_chars (c ++ [(key, b)]) = others_len key c + len (content b).
Proof.
  intros Hn. unfold core_chars. rewrite map_app, sum_app. simpl.
  rewrite (others_len_absent key c Hn). unfold core_chars, sum. simpl. lia.
Qed.

(** One call: refused without any change, or the block is upserted and the
    tier holds the other blocks' characters plus the new content. *)
Lemma update_core_memory_step (key c now : string) (m : MemoryManager) :
  NoDup (keys (core m)) ->
  let r := update_core_memory hash_content key c now m in
  (CORE_MEMORY_LIMIT < others_len key (core m) + len c -> r = (false, m)) /\
  (others_len key (core m) + len c <= CORE_MEMORY_LIMIT ->
     fst r = true /\
     NoDup (keys (core (snd r))) /\
     core_chars (core (snd r)) = others_len key (core m) + len c /\
     (exists b, get key (core (snd r)) = Some b /\ content b = c) /\
     (forall k, k <> key -> get k (core (snd r)) = get k (core m)) /\
     recall (snd r) = recall m /\
     archival_index (snd r) = archival_index m).
Proof.
  intros Hnd r. subst r. unfold update_core_memory. split.
  - intros Hover.
    destruct (Z.ltb_spec CORE_MEMORY_LIMIT (others_len key (core m) + len c)); [reflexivity | lia].
  - intros Hfit.
    destruct (Z.ltb_spec CORE_MEMORY_LIMIT (others_len key (core m) + len c)); [lia |].
    destruct (has_key key (core m)) eqn:Hk.
    + apply has_key_in in Hk. simpl.
      split; [reflexivity |]. split; [now rewrite keys_modify |].
      split; [now apply core_chars_modify |].
      split.
      * rewrite get_modify_same. destruct (get_in_keys key (core m) Hk) as [b Hb].
        rewrite Hb. simpl. eexists. split; reflexivity.
      * split; [intros k Hne; now apply get_modify_other | split; reflexivity].
    + pose proof Hk as Hk'. apply has_key_false in Hk'.
      unfold setitem. rewrite Hk. simpl.
      split; [reflexivity |]. split.
      * unfold keys. rewrite map_app. simpl. now apply NoDup_snoc.
      * split; [now rewrite core_chars_append |].
        split; [eexists; split; [now apply get_app_new | reflexivity] |].
        split; [intros k Hne; now apply get_app_other | split; reflexivity].
Qed.

Lemma update_core_memory_within (key c now : string) (m : MemoryManager) :
  within_budget m -> within_budget (snd (update_core_memory hash_content key c now m)).
Proof.
  intros [Hnd Hle].
  destruct (update_core_memory_step key c now m Hnd) as [Hno Hyes].
  destruct (Z.lt_ge_cases CORE_MEMORY_LIMIT (others_len key (core m) + len c)) as [Hover | Hfit].
  - rewrite (Hno Hover). simpl. split; assumption.
  - destruct (Hyes Hfit) as (_ & Hnd' & Hchars & _). split; [exact Hnd' | lia].
Qed.

Lemma run_writes_within (calls : list write_call) (m : MemoryManager) :
  within_budget m -> within_budget (run_writes calls m).
Proof.
  revert m. induction calls as [| [[key c] now] calls IH]; intros m Hm; [exact Hm |].
  simpl. apply IH. now apply update_core_memory_within.
Qed.

(** C1. Whatever sequence of [update_core_memory] calls has run on a core
    store that fits the budget, the store still fits it: the lengths of the
    contents of all core blocks sum to at most [CORE_MEMORY_LIMIT]. On the
    store so reached, a call whose other blocks' combined length plus the new
    content exceeds the limit returns [False] and leaves the store as it was;
    any other call returns [True], stores the content under the key (in place
    when the key exists, as a new block otherwise) and changes nothing else. *)
Theorem update_core_memory_budget (calls : list write_call) (m0 : MemoryManager) :
  within_budget m0 ->
  let m := run_writes calls m0 in
  core_chars (core m) <= CORE_MEMORY_LIMIT /\
  forall key c now,
    let r := update_core_memory hash_content key c now m in
    core_chars (core (snd r)) <= CORE_MEMORY_LIMIT /\
    (CORE_MEMORY_LIMIT < others_len key (core m) + len c -> r = (false, m)) /\
    (others_len key (core m) + len c <= CORE_MEMORY_LIMIT ->
       fst r = true /\
       (exists b, get key (core (snd r)) = Some b /\ content b = c) /\
       (forall k, k <> key -> get k (core (snd r)) = get k (core m)) /\
       recall (snd r) = recall m /\
       archival_index (snd r) = archival_index m).
Proof.
  intros H0 m.
  assert (Hm : within_budget m) by now apply run_writes_within.
  split; [apply Hm |].
  intros key c now r.
  split; [apply (update_core_memory_within key c now m Hm) |].
  destruct (update_core_memory_step key c now m (proj1 Hm)) as [Hno Hyes].
  split; [exact Hno |].
  intros Hfit. destruct (Hyes Hfit) as (Ht & _ & _ & Hb & Hk & Hr & Ha).
  repeat split; assumption.
Qed.

End WithHash.

(** [add_to_recall] over a sequence of messages. *)
Definition run_appends (msgs : list Message) (m : MemoryManager) : MemoryManager :=
  fold_left (fun m msg => add_to_recall msg m) msgs m.

Lemma add_to_recall_bounded (msg : Message) (m : MemoryManager) :
  (List.length (recall m) <= RECALL_MEMORY_LIMIT)%nat ->
  (List.length (recall (add_to_recall msg m)) <= RECALL_MEMORY_LIMIT)%nat.
Proof. intros H. simpl. now apply deque_append_length. Qed.

Lemma run_appends_bounded (msgs : list Message) (m : MemoryManager) :
  (List.length (recall m) <= RECALL_MEMORY_LIMIT)%nat ->
  (List.length (recall (run_appends msgs m)) <= RECALL_MEMORY_LIMIT)%nat.
Proof.
  revert m. induction msgs as [| msg msgs IH]; intros m Hm; [exact Hm |].
  simpl. apply IH. now apply add_to_recall_bounded.
Qed.

(** C2. Whatever sequence of [add_to_recall] calls has run on a recall buffer
    within its capacity, the buffer holds at most [RECALL_MEMORY_LIMIT]
    entries. Every further append puts the new entry last and touches
    nothing but the buffer: while there is room the earlier entries all
    stay, in order; on a full buffer exactly the oldest entry goes and the
    others stay, in order. *)
Theorem add_to_recall_fifo (msgs : list Message) (m0 : MemoryManager) :
  (List.length (recall m0) <= RECALL_MEMORY_LIMIT)%nat ->
  let m := run_appends msgs m0 in
  (List.length (recall m) <= RECALL_MEMORY_LIMIT)%nat /\
  forall msg,
    let m' := add_to_recall msg m in
    (List.length (recall m') <= RECALL_MEMORY_LIMIT)%nat /\
    core m' = core m /\ archival_index m' = archival_index m /\
    ((List.length (recall m) < RECALL_MEMORY_LIMIT)%nat ->
       recall m' = recall m ++ [msg]) /\
    (List.length (recall m) = RECALL_MEMORY_LIMIT ->
       exists oldest rest,
         recall m = oldest :: rest /\ recall m' = rest ++ [msg]).
Proof.
  intros H0 m.
  assert (Hm : (List.length (recall m) <= RECALL_MEMORY_LIMIT)%nat)
    by now apply run_appends_bounded.
  split; [exact Hm |].
  intros msg m'. subst m'.
  split; [now apply add_to_recall_bounded |].
  split; [reflexivity |]. split; [reflexivity |]. split.
  - intros Hroom. simpl. now apply deque_append_room.
  - intros Hfull. simpl. apply deque_append_full; [| exact Hfull].
    unfold RECALL_MEMORY_LIMIT. lia.
Qed.

(** C10. [get_recall_messages(0)] returns the whole buffer, the zero being
    falsy like an absent limit; for a limit [n > 0] the result is the last
    [min(n, len)] entries of the buffer, in the order of the buffer. *)
Theorem get_recall_messages_limit (m : MemoryManager) (n : Z) :
  0 < n ->
  get_recall_messages (Some 0) m = recall m /\
  get_recall_messages (Some 0) m = get_recall_messages None m /\
  exists older,
    recall m = older ++ get_recall_messages (Some n) m /\
    List.length (get_recall_messages (Some n) m)
      = Nat.min (Z.to_nat n) (List.length (recall m)).
Proof.
  intros Hn. split; [reflexivity |]. split; [reflexivity |].
  unfold get_recall_messages.
  destruct (Z.eqb_spec n 0) as [-> | _]; [lia |].
  unfold slice_from. rewrite (clamp_neg n _ Hn).
  exists (firstn (List.length (recall m) - Z.to_nat n) (recall m)).
  split; [now rewrite firstn_skipn |].
  rewrite length_skipn. lia.
Qed.

End MemoryFacts.

(** ** Archival search *)

Module SearchFacts.

Import Py PyFacts Config MemorySystem.

(** The ranking of two scored blocks: a higher score first, and among equal
    scores a higher (or equal) importance first. *)
Definition rank_ge (a b : Z * MemoryBlock) : Prop :=
  fst b < fst a \/ (fst a = fst b /\ (importance (snd b) <= importance (snd a))%Q).

(** The same on blocks, scored against a query. *)
Definition ranked (query : string) (b1 b2 : MemoryBlock) : Prop :=
  rank_ge (score (query_words query) b1, b1) (score (query_words query) b2, b2).

(** A block contains a word of the query, both in lower case. *)
Definition has_query_word (query : string) (b : MemoryBlock) : Prop :=
  exists w, In w (split (lower query)) /\ contains w (lower (content b)) = true.

(** A block shares a tag with the filter. *)
Definition shares_tag (ts : list string) (b : MemoryBlock) : Prop :=
  exists t, In t ts /\ In t (tags b).

Lemma key_lt_false (a b : Z * MemoryBlock) : key_lt a b = false -> rank_ge a b.
Proof.
  unfold key_lt, rank_ge.
  destruct (Z.eqb_spec (fst a) (fst b)) as [Heq | Hne].
  - intros H. right. split; [exact Heq |].
    apply negb_false_iff in H. now apply Qle_bool_iff.
  - intros H. apply Z.ltb_ge in H. left. lia.
Qed.

Lemma key_lt_true (a b : Z * MemoryBlock) : key_lt a b = true -> rank_ge b a.
Proof.
  unfold key_lt, rank_ge.
  destruct (Z.eqb_spec (fst a) (fst b)) as [Heq | Hne].
  - intros H. right. split; [now symmetry |].
    apply negb_true_iff in H.
    destruct (Qlt_le_dec (importance (snd a)) (importance (snd b))) as [Hlt | Hle].
    + now apply Qlt_le_weak.
    + apply Qle_bool_iff in Hle. congruence.
  - intros H. apply Z.ltb_lt in H. now left.
Qed.

Lemma rank_ge_trans (a b c : Z * MemoryBlock) :
  rank_ge a b -> rank_ge b c -> rank_ge a c.
Proof.
  unfold rank_ge. intros [Hab | [Hab Iab]] [Hbc | [Hbc Ibc]].
  - left. lia.
  - left. lia.
  - left. lia.
  - right. split; [congruence |]. now apply Qle_trans with (importance (snd b)).
Qed.

Lemma insert_desc_in (x y : Z * MemoryBlock) (l : list (Z * MemoryBlock)) :
  In y (insert_desc x l) <-> y = x \/ In y l.
Proof.
  induction l as [| z l IH]; simpl.
  - intuition congruence.
  - destruct (key_lt x z); simpl; [rewrite IH |]; intuition congruence.
Qed.

Lemma insert_desc_sorted (x : Z * MemoryBlock) (l : list (Z * MemoryBlock)) :
  StronglySorted rank_ge l -> StronglySorted rank_ge (insert_desc x l).
Proof.
  induction l as [| y l IH]; simpl; intros Hs.
  - constructor; constructor.
  - inversion Hs as [| ? ? Hl Hy]; subst.
    destruct (key_lt x y) eqn:Hxy.
    + constructor; [now apply IH |].
      apply Forall_forall. intros z Hz. apply insert_desc_in in Hz.
      destruct Hz as [-> | Hz].
      * now apply key_lt_true.
      * rewrite Forall_forall in Hy. now apply Hy.
    + constructor; [exact Hs |]. constructor.
      * now apply key_lt_false.
      * apply Forall_forall. intros z Hz. rewrite Forall_forall in Hy.
        apply rank_ge_trans with y; [now apply key_lt_false | now apply Hy].
Qed.

Lemma sort_desc_sorted (l : list (Z * MemoryBlock)) :
  StronglySorted rank_ge (sort_desc l).
Proof.
  induction l as [| x l IH]; simpl; [constructor | now apply insert_desc_sorted].
Qed.

Lemma sort_desc_in (y : Z * MemoryBlock) (l : list (Z * MemoryBlock)) :
  In y (sort_desc l) <-> In y l.
Proof.
  induction l as [| x l IH]; simpl; [tauto |].
  rewrite insert_desc_in, IH. intuition congruence.
Qed.

Lemma sort_desc_length (l : list (Z * MemoryBlock)) :
  List.length (sort_desc l) = List.length l.
Proof.
  induction l as [| x l IH]; simpl; [reflexivity |]. rewrite <- IH.
  generalize (sort_desc l). intros s.
  induction s as [| y s IHs]; simpl; [reflexivity |].
  destruct (key_lt x y); simpl; [now rewrite IHs | reflexivity].
Qed.

Lemma StronglySorted_firstn {A : Type} (R : A -> A -> Prop) (n : nat) (l : list A) :
  StronglySorted R l -> StronglySorted R (firstn n l).
Proof.
  revert n. induction l as [| x l IH]; intros [| n] Hs; simpl; try constructor.
  - inversion Hs; subst. now apply IH.
  - inversion Hs as [| ? ? _ Hx]; subst.
    apply Forall_forall. intros y Hy. rewrite Forall_forall in Hx.
    apply Hx. eapply firstn_in; eauto.
Qed.

(** A sorted list of scored blocks, each carrying its own score, gives a
    ranked list of blocks. *)
Lemma ranked_of_sorted (query : string) (l : list (Z * MemoryBlock)) :
  Forall (fun r => fst r = score (query_words query) (snd r)) l ->
  StronglySorted rank_ge l ->
  StronglySorted (ranked query) (map snd l).
Proof.
  induction l as [| x l IH]; simpl; intros Hf Hs; [constructor |].
  inversion Hf as [| ? ? Hx Hl]; subst.
  inversion Hs as [| ? ? Hsl Hxl]; subst.
  constructor; [now apply IH |].
  apply Forall_forall. intros b Hb. apply in_map_iff in Hb.
  destruct Hb as [y [<- Hy]].
  rewrite Forall_forall in Hxl, Hl.
  specialize (Hxl y Hy). specialize (Hl y Hy).
  unfold ranked, rank_ge in *. simpl. rewrite <- Hx, <- Hl. exact Hxl.
Qed.

Lemma score_bump (words : list string) (b : MemoryBlock) :
  score words (bump_access b) = score words b.
Proof. reflexivity. Qed.

Lemma set_in (w : string) (l : list string) : In w (set l) -> In w l.
Proof.
  induction l as [| x l IH]; simpl; [tauto |].
  destruct (mem x l); simpl; intuition.
Qed.

Lemma score_positive (query : string) (b : MemoryBlock) :
  0 < score (query_words query) b -> has_query_word query b.
Proof.
  unfold score, llen, has_query_word, query_words. intros H.
  destruct (filter (fun w => contains w (lower (content b)))
                   (set (split (lower query)))) as [| w ws] eqn:Hf;
    [simpl in H; lia |].
  assert (Hin : In w (filter (fun w => contains w (lower (content b)))
                             (set (split (lower query)))))
    by (rewrite Hf; now left).
  apply filter_In in Hin. destruct Hin as [Hw Hc].
  exists w. split; [now apply set_in | exact Hc].
Qed.

Lemma mem_in (x : string) (l : list string) : mem x l = true -> In x l.
Proof.
  unfold mem. rewrite existsb_exists. intros [y [Hy He]].
  apply String.eqb_eq in He. now subst.
Qed.

Lemma tag_skip_false (ts : list string) (b : MemoryBlock) :
  ts <> [] -> tag_skip (Some ts) b = false -> shares_tag ts b.
Proof.
  intros Hne H. destruct ts as [| t ts]; [congruence |].
  unfold tag_skip in H. apply negb_false_iff in H.
  apply existsb_exists in H. destruct H as [t' [Hin Hm]].
  exists t'. split; [exact Hin | now apply mem_in].
Qed.

(** What the loop of [search_archival] collects. *)
Lemma scan_results (filter_tags : option (list string)) (query : string)
    (index : dict MemoryBlock) :
  Forall
    (fun r =>
       fst r = score (query_words query) (snd r) /\ 0 < fst r /\
       tag_skip filter_tags (snd r) = false /\
       In (snd r) (values (fst (scan filter_tags (query_words query) index))) /\
       exists b0, In b0 (values index) /\ snd r = bump_access b0)
    (snd (scan filter_tags (query_words query) index)).
Proof.
  induction index as [| [k block] rest IH]; simpl; [constructor |].
  destruct (scan filter_tags (query_words query) rest) as [rest' results] eqn:Hscan.
  simpl in IH.
  assert (Hweak :
    forall (kb : string * MemoryBlock),
      Forall
        (fun r =>
           fst r = score (query_words query) (snd r) /\ 0 < fst r /\
           tag_skip filter_tags (snd r) = false /\
           In (snd r) (values (kb :: rest')) /\
           exists b0, In b0 (values ((k, block) :: rest)) /\ snd r = bump_access b0)
        results).
  { intros kb. eapply Forall_impl; [| exact IH].
    intros r (H1 & H2 & H3 & H4 & b0 & H5 & H6).
    repeat split; try assumption.
    - now right.
    - exists b0. split; [now right | exact H6]. }
  destruct (tag_skip filter_tags block) eqn:Hskip; simpl;
    [exact (Hweak (k, block)) |].
  destruct (Z.ltb_spec 0 (score (query_words query) block)) as [Hpos | _]; simpl;
    [| exact (Hweak (k, block))].
  constructor; [| exact (Hweak (k, bump_access block))]. simpl.
  split; [reflexivity |]. split; [exact Hpos |].
  split; [destruct filter_tags as [[| t ts] |]; [reflexivity | exact Hskip | reflexivity] |].
  split; [now left |]. exists block. split; [now left | reflexivity].
Qed.

(** C4. For every archival index, query, tag filter and limit [>= 0],
    every block [search_archival] returns is a block of the index (with its
    access counter incremented) whose lower-cased content contains at least
    one word of the lower-cased query and which, when a non-empty tag filter
    is given, shares a tag with the filter; the returned list is ordered by
    the number of matching words, descending, then by importance,
    descending; and it holds at most [limit] blocks. *)
Theorem search_archival_ranked (query : string) (limit : Z)
    (filter_tags : option (list string)) (m : MemoryManager) :
  0 <= limit ->
  let found := fst (search_archival query limit filter_tags m) in
  let m' := snd (search_archival query limit filter_tags m) in
  Forall
    (fun b =>
       In b (values (archival_index m')) /\
       (exists b0, In b0 (values (archival_index m)) /\ b = bump_access b0) /\
       has_query_word query b /\
       (forall ts, filter_tags = Some ts -> ts <> [] -> shares_tag ts b))
    found /\
  StronglySorted (ranked query) found /\
  llen found <= limit.
Proof.
  intros Hlimit. unfold search_archival.
  pose proof (scan_results filter_tags query (archival_index m)) as Hscan.
  destruct (scan filter_tags (query_words query) (archival_index m))
    as [index' results] eqn:Hs.
  simpl in *. unfold slice_to.
  set (n := clamp limit (List.length (sort_desc results))).
  assert (Hsorted : Forall
    (fun r =>
       fst r = score (query_words query) (snd r) /\ 0 < fst r /\
       tag_skip filter_tags (snd r) = false /\
       In (snd r) (values index') /\
       exists b0, In b0 (values (archival_index m)) /\ snd r = bump_access b0)
    (firstn n (sort_desc results))).
  { apply Forall_forall. intros r Hr. rewrite Forall_forall in Hscan.
    apply Hscan. apply sort_desc_in. eapply firstn_in; eauto. }
  split; [| split].
  - apply Forall_forall. intros b Hb. apply in_map_iff in Hb.
    destruct Hb as [r [<- Hr]]. rewrite Forall_forall in Hsorted.
    destruct (Hsorted r Hr) as (Hsc & Hpos & Hskip & Hin & Hb0).
    split; [exact Hin |]. split; [exact Hb0 |]. split.
    + apply score_positive. now rewrite <- Hsc.
    + intros ts -> Hne. now apply tag_skip_false.
  - apply ranked_of_sorted.
    + eapply Forall_impl; [| exact Hsorted]. intros r Hr. apply Hr.
    + apply StronglySorted_firstn, sort_desc_sorted.
  - unfold llen. rewrite length_map, length_firstn.
    pose proof (clamp_nonneg_le limit (List.length (sort_desc results)) Hlimit).
    fold n in H. lia.
Qed.

End SearchFacts.

(** ** The attention budgeter *)

Module AttentionFacts.

Import Py PyFacts Config MemorySystem Attention.

(** The estimated cost of one recall entry and of a list of them. *)
Definition msg_tokens (msg : Message) : Z :=
  Utils.estimate_tokens (content_or_empty msg).

Definition tokens_of (msgs : list Message) : Z := sum (map msg_tokens msgs).

(** What is left for archival and recall once the system prompt, the core
    memory and the safety margin of 500 are taken off the budget. *)
Definition after_margin (am : AttentionManager) (system_prompt : string)
    (m : MemoryManager) : Z :=
  max_tokens am
    - (Utils.estimate_tokens system_prompt
       + Utils.estimate_tokens (fst (get_core_memory m))) - 500.

(** The archival matches of the focus query (the five best), and the excerpt
    formatted from them. *)
Definition focus_results (focus_query : option string) (m : MemoryManager)
  : list MemoryBlock :=
  match focus_query with
  | Some q => fst (search_archival q 5 None (snd (get_core_memory m)))
  | None => []
  end.

Definition excerpt (focus_query : option string) (m : MemoryManager) : string :=
  archival_content (focus_results focus_query m).

(** The excerpt goes in: there is one, and its cost is below a third (integer
    quotient, as [remaining // 3]) of what is left after the margin. *)
Definition excerpt_included (am : AttentionManager) (system_prompt : string)
    (focus_query : option string) (m : MemoryManager) : bool :=
  truthy focus_query
  && negb (Nat.eqb (List.length (focus_results focus_query m)) 0)
  && (Utils.estimate_tokens (excerpt focus_query m)
        <? after_margin am system_prompt m / 3).

Lemma msg_tokens_nonneg (msg : Message) : 0 <= msg_tokens msg.
Proof.
  unfold msg_tokens, Utils.estimate_tokens, len.
  apply Z.div_pos; lia.
Qed.

Lemma tokens_of_app (l1 l2 : list Message) :
  tokens_of (l1 ++ l2) = tokens_of l1 + tokens_of l2.
Proof. unfold tokens_of. now rewrite map_app, sum_app. Qed.

Lemma tokens_of_rev (l : list Message) : tokens_of (rev l) = tokens_of l.
Proof.
  induction l as [| x l IH]; [reflexivity |].
  cbn [rev]. rewrite tokens_of_app, IH.
  unfold tokens_of, sum. cbn [map fold_right]. lia.
Qed.

Lemma tokens_of_nil : tokens_of [] = 0.
Proof. reflexivity. Qed.

Lemma tokens_of_cons (x : Message) (l : list Message) :
  tokens_of (x :: l) = msg_tokens x + tokens_of l.
Proof. reflexivity. Qed.

Lemma fill_recall_nil (remaining : Z) (acc : list Message) (t : Z) :
  fill_recall remaining [] acc t = (acc, t).
Proof. reflexivity. Qed.

Lemma fill_recall_cons (remaining : Z) (msg : Message) (l acc : list Message) (t : Z) :
  fill_recall remaining (msg :: l) acc t
  = if remaining <? t + msg_tokens msg then (acc, t)
    else fill_recall remaining l (msg :: acc) (t + msg_tokens msg).
Proof. reflexivity. Qed.

(** The recall loop takes a prefix of the newest-first list and stops at the
    first entry that does not fit. *)
Lemma fill_recall_spec (remaining : Z) (newest_first acc : list Message) (t : Z) :
  exists taken rest,
    newest_first = taken ++ rest /\
    fill_recall remaining newest_first acc t
      = (rev taken ++ acc, t + tokens_of taken) /\
    (taken = [] \/ t + tokens_of taken <= remaining) /\
    (rest = [] \/
     exists x rest', rest = x :: rest'
                     /\ remaining < t + tokens_of taken + msg_tokens x).
Proof.
  revert acc t. induction newest_first as [| msg l IH]; intros acc t.
  - exists [], []. rewrite fill_recall_nil, tokens_of_nil, Z.add_0_r.
    repeat split; now left.
  - rewrite fill_recall_cons.
    destruct (Z.ltb_spec remaining (t + msg_tokens msg)) as [Hover | Hfit].
    + exists [], (msg :: l). rewrite tokens_of_nil, Z.add_0_r.
      split; [reflexivity |]. split; [reflexivity |].
      split; [now left |]. right. exists msg, l. split; [reflexivity | exact Hover].
    + destruct (IH (msg :: acc) (t + msg_tokens msg))
        as (taken & rest & Hsplit & Hrun & Hfits & Hstop).
      exists (msg :: taken), rest. rewrite tokens_of_cons.
      split; [cbn [app]; now rewrite Hsplit |].
      split.
      { rewrite Hrun. cbn [rev]. rewrite <- app_assoc. cbn [app].
        f_equal. symmetry. apply Z.add_assoc. }
      split.
      * right. destruct Hfits as [-> | Hle].
        -- rewrite tokens_of_nil. lia.
        -- lia.
      * destruct Hstop as [-> | (x & rest' & -> & Hx)]; [now left |].
        right. exists x, rest'. split; [reflexivity | lia].
Qed.

(** [get_core_memory] and the archival step leave the recall buffer alone. *)
Lemma get_core_memory_recall (m : MemoryManager) :
  recall (snd (get_core_memory m)) = recall m.
Proof. reflexivity. Qed.

Lemma search_archival_recall (q : string) (limit : Z)
    (filter_tags : option (list string)) (m : MemoryManager) :
  recall (snd (search_archival q limit filter_tags m)) = recall m.
Proof.
  unfold search_archival.
  destruct (scan filter_tags (query_words q) (archival_index m)). reflexivity.
Qed.

Lemma archival_step_recall (focus_query : option string) (remaining : Z)
    (m : MemoryManager) :
  recall (snd (archival_step focus_query remaining m)) = recall m.
Proof.
  unfold archival_step.
  destruct focus_query as [q |]; [| reflexivity].
  destruct (truthy (Some q)); [| reflexivity].
  pose proof (search_archival_recall q 5 None m) as Hr.
  destruct (search_archival q 5 None m) as [found m'].
  cbn [snd] in Hr. destruct found as [| b found]; [exact Hr |].
  match goal with
  | |- context [if ?c then _ else _] => destruct c
  end; exact Hr.
Qed.

(** The archival step includes the excerpt exactly when [excerpt_included]
    says so. *)
Lemma archival_step_spec (am : AttentionManager) (system_prompt : string)
    (focus_query : option string) (m : MemoryManager) :
  fst (archival_step focus_query (after_margin am system_prompt m)
                     (snd (get_core_memory m)))
  = if excerpt_included am system_prompt focus_query m
    then Some (excerpt focus_query m,
               Utils.estimate_tokens (excerpt focus_query m))
    else None.
Proof.
  unfold archival_step, excerpt_included, excerpt, focus_results.
  destruct focus_query as [q |]; [| reflexivity].
  destruct (truthy (Some q)); [| reflexivity].
  destruct (search_archival q 5 None (snd (get_core_memory m))) as [found m'].
  cbn [fst snd]. destruct found as [| b found]; [reflexivity |].
  cbn [List.length Nat.eqb negb andb].
  match goal with
  | |- context [if ?c then _ else _] => destruct c
  end; reflexivity.
Qed.

(** The messages of [build_context], in terms of its two steps. *)
Lemma build_context_messages (am : AttentionManager) (system_prompt : string)
    (focus_query : option string) (m : MemoryManager) :
  let full := full_system system_prompt (fst (get_core_memory m)) in
  let step :=
    archival_step focus_query (after_margin am system_prompt m)
                  (snd (get_core_memory m)) in
  fst (fst (fst (build_context am system_prompt focus_query m)))
  = match fst step with
    | Some (text, cost) =>
        mkMessage "system" (Some (full ++ nl ++ text)%string)
        :: fst (fill_recall (after_margin am system_prompt m - cost)
                            (rev (recall (snd step))) [] 0)
    | None =>
        mkMessage "system" (Some full)
        :: fst (fill_recall (after_margin am system_prompt m)
                            (rev (recall (snd step))) [] 0)
    end.
Proof.
  unfold build_context, after_margin.
  destruct (get_core_memory m) as [core_content m1]. cbn [fst snd].
  destruct (archival_step focus_query
              (max_tokens am
               - (Utils.estimate_tokens system_prompt
                  + Utils.estimate_tokens core_content) - 500) m1)
    as [found m2].
  cbn [fst snd]. unfold get_recall_messages, reversed.
  destruct found as [[text cost] |].
  - destruct (fill_recall _ (rev (recall m2)) [] 0). reflexivity.
  - destruct (fill_recall _ (rev (recall m2)) [] 0). reflexivity.
Qed.

(** C3, as the code has it. [build_context] takes a fixed margin of 500
    off the budget besides the cost of the system prompt and of the core
    memory. When a focus query
    is given and archival search finds blocks, the formatted excerpt is
    appended to the system message, whole, exactly when its estimated cost
    ([len // 4]) is strictly below the integer third ([remaining // 3], rounded
    down) of what is left, and its cost is then taken off; otherwise the
    system message carries none of it.
    The rest of the budget is filled with recall entries taken newest first
    up to the first entry that would overflow it: the messages are the system
    message followed by a suffix of the recall buffer in buffer order, the
    suffix fits, and the entry just before it (if any) would not have. *)
Theorem build_context_budget (am : AttentionManager) (system_prompt : string)
    (focus_query : option string) (m : MemoryManager) :
  let messages := fst (fst (fst (build_context am system_prompt focus_query m))) in
  let full := full_system system_prompt (fst (get_core_memory m)) in
  let text := excerpt focus_query m in
  let included := excerpt_included am system_prompt focus_query m in
  let left :=
    if included
    then after_margin am system_prompt m - Utils.estimate_tokens text
    else after_margin am system_prompt m in
  after_margin am system_prompt m
    = max_tokens am - Utils.estimate_tokens system_prompt
      - Utils.estimate_tokens (fst (get_core_memory m)) - 500 /\
  (included = true <->
     truthy focus_query = true /\ focus_results focus_query m <> [] /\
     Utils.estimate_tokens text < after_margin am system_prompt m / 3) /\
  exists dropped selected,
    messages
      = mkMessage "system" (Some (if included then (full ++ nl ++ text)%string else full))
        :: selected /\
    recall m = dropped ++ selected /\
    (selected = [] \/ tokens_of selected <= left) /\
    (dropped = [] \/
     exists older x, dropped = older ++ [x]
                     /\ left < tokens_of selected + msg_tokens x).
Proof.
  intros messages full text included left.
  split; [unfold after_margin; lia |]. split.
  - subst included. unfold excerpt_included.
    rewrite !andb_true_iff, negb_true_iff, Nat.eqb_neq, Z.ltb_lt.
    fold text. split.
    + intros [[Ht Hn] Hc]. repeat split; try assumption.
      intros Heq. rewrite Heq in Hn. now apply Hn.
    + intros (Ht & Hn & Hc). repeat split; try assumption.
      intros Hl. apply Hn. now destruct (focus_results focus_query m).
  - subst messages. rewrite build_context_messages.
    rewrite archival_step_recall, get_core_memory_recall.
    rewrite archival_step_spec. fold text. fold included. fold full.
    assert (Hsel : forall budget,
      exists dropped selected,
        fst (fill_recall budget (rev (recall m)) [] 0) = selected /\
        recall m = dropped ++ selected /\
        (selected = [] \/ tokens_of selected <= budget) /\
        (dropped = [] \/
         exists older x, dropped = older ++ [x]
                         /\ budget < tokens_of selected + msg_tokens x)).
    { intros budget.
      destruct (fill_recall_spec budget (rev (recall m)) [] 0)
        as (taken & rest & Hsplit & Hrun & Hfits & Hstop).
      exists (rev rest), (rev taken). rewrite Hrun. cbn [fst].
      rewrite app_nil_r, tokens_of_rev.
      split; [reflexivity |]. split.
      { rewrite <- (rev_involutive (recall m)), Hsplit. now rewrite rev_app_distr. }
      split.
      - destruct Hfits as [-> | Hle]; [now left | right; lia].
      - destruct Hstop as [-> | (x & rest' & -> & Hx)]; [now left |].
        right. exists (rev rest'), x. split; [reflexivity | lia]. }
    subst left. destruct included.
    + destruct (Hsel (after_margin am system_prompt m - Utils.estimate_tokens text))
        as (dropped & selected & Hfill & Hrest).
      exists dropped, selected. rewrite Hfill. split; [reflexivity | exact Hrest].
    + destruct (Hsel (after_margin am system_prompt m))
        as (dropped & selected & Hfill & Hrest).
      exists dropped, selected. rewrite Hfill. split; [reflexivity | exact Hrest].
Qed.

(** *** What [build_context] does to the memory store *)

(** Two blocks that agree on every field but the access counter. *)
Definition same_but_counter (b b' : MemoryBlock) : Prop :=
  block_id b' = block_id b /\ content b' = content b /\
  memory_type b' = memory_type b /\ created_at b' = created_at b /\
  updated_at b' = updated_at b /\ importance b' = importance b /\
  tags b' = tags b.

(** What a search for [words] without a tag filter does to an entry of the
    archival index: the counter of a matching block goes up by one. *)
Definition touch (words : list string) (kb : string * MemoryBlock)
  : string * MemoryBlock :=
  if 0 <? score words (snd kb) then (fst kb, bump_access (snd kb)) else kb.

Definition bump_entry (kb : string * MemoryBlock) : string * MemoryBlock :=
  (fst kb, bump_access (snd kb)).

Lemma scan_index (words : list string) (index : dict MemoryBlock) :
  fst (scan None words index) = map (touch words) index.
Proof.
  induction index as [| [k block] rest IH]; [reflexivity |].
  cbn [scan map]. destruct (scan None words rest) as [rest' results].
  cbn [fst] in IH. cbn [tag_skip]. unfold touch at 1. cbn [fst snd].
  destruct (0 <? score words block); cbn [fst]; now rewrite IH.
Qed.

Lemma search_archival_store (q : string) (limit : Z) (m : MemoryManager) :
  snd (search_archival q limit None m)
  = with_archival (map (touch (query_words q)) (archival_index m)) m.
Proof.
  unfold search_archival.
  pose proof (scan_index (query_words q) (archival_index m)) as Hi.
  destruct (scan None (query_words q) (archival_index m)) as [index' results].
  cbn [fst snd] in *. now rewrite Hi.
Qed.

Lemma archival_step_store (focus_query : option string) (remaining : Z)
    (m : MemoryManager) :
  snd (archival_step focus_query remaining m)
  = match focus_query with
    | Some q =>
        if truthy focus_query
        then with_archival (map (touch (query_words q)) (archival_index m)) m
        else m
    | None => m
    end.
Proof.
  unfold archival_step.
  destruct focus_query as [q |]; [| reflexivity].
  destruct (truthy (Some q)); [| reflexivity].
  pose proof (search_archival_store q 5 m) as Hs.
  destruct (search_archival q 5 None m) as [found m'].
  cbn [snd] in Hs. destruct found as [| b found]; [exact Hs |].
  match goal with
  | |- context [if ?c then _ else _] => destruct c
  end; exact Hs.
Qed.

Lemma build_context_store (am : AttentionManager) (system_prompt : string)
    (focus_query : option string) (m : MemoryManager) :
  snd (build_context am system_prompt focus_query m)
  = snd (archival_step focus_query (after_margin am system_prompt m)
                       (snd (get_core_memory m))).
Proof.
  unfold build_context, after_margin.
  destruct (get_core_memory m) as [core_content m1]. cbn [fst snd].
  destruct (archival_step focus_query
              (max_tokens am
               - (Utils.estimate_tokens system_prompt
                  + Utils.estimate_tokens core_content) - 500) m1)
    as [found m2].
  cbn [fst snd]. unfold get_recall_messages, reversed.
  destruct found as [[text cost] |];
    destruct (fill_recall _ (rev (recall m2)) [] 0); reflexivity.
Qed.

Lemma same_but_counter_refl (b : MemoryBlock) : same_but_counter b b.
Proof. repeat split. Qed.

Lemma same_but_counter_bump (b : MemoryBlock) : same_but_counter b (bump_access b).
Proof. repeat split. Qed.

Lemma Forall2_map_same {A : Type} (R : A -> A -> Prop) (f : A -> A) (l : list A) :
  (forall x, R x (f x)) -> Forall2 R l (map f l).
Proof.
  intros Hf. induction l as [| x l IH]; cbn [map]; constructor; auto.
Qed.

(** C7, as the code has it. [build_context] changes access counters and
    nothing else in the memory store: the recall buffer is untouched; the
    core blocks keep their keys, order and fields, each with its counter one
    higher; the archival blocks keep keys, order and fields, those matching a
    non-empty focus query with their counter one higher and the others
    unchanged (all of them when there is no focus query). *)
Theorem build_context_counters_only (am : AttentionManager) (system_prompt : string)
    (focus_query : option string) (m : MemoryManager) :
  let m' := snd (build_context am system_prompt focus_query m) in
  agent_id m' = agent_id m /\
  recall m' = recall m /\
  core m' = map bump_entry (core m) /\
  archival_index m'
    = match focus_query with
      | Some q =>
          if truthy focus_query
          then map (touch (query_words q)) (archival_index m)
          else archival_index m
      | None => archival_index m
      end /\
  Forall2 (fun kb kb' => fst kb' = fst kb /\ same_but_counter (snd kb) (snd kb'))
          (core m) (core m') /\
  Forall2 (fun kb kb' => fst kb' = fst kb /\ same_but_counter (snd kb) (snd kb'))
          (archival_index m) (archival_index m').
Proof.
  intros m'. subst m'. rewrite build_context_store, archival_step_store.
  assert (Hcore : Forall2
            (fun kb kb' => fst kb' = fst kb /\ same_but_counter (snd kb) (snd kb'))
            (core m) (map bump_entry (core m))).
  { apply Forall2_map_same. intros [k b]. split; [reflexivity |].
    apply same_but_counter_bump. }
  assert (Hsame : Forall2
            (fun kb kb' => fst kb' = fst kb /\ same_but_counter (snd kb) (snd kb'))
            (archival_index m) (archival_index m)).
  { replace (archival_index m) with (map (fun kb => kb) (archival_index m)) at 2
      by apply map_id.
    apply Forall2_map_same. intros [k b]. split; [reflexivity |].
    apply same_but_counter_refl. }
  assert (Htouch : forall words, Forall2
            (fun kb kb' => fst kb' = fst kb /\ same_but_counter (snd kb) (snd kb'))
            (archival_index m) (map (touch words) (archival_index m))).
  { intros words. apply Forall2_map_same. intros [k b]. unfold touch. cbn [fst snd].
    destruct (0 <? score words b); cbn [fst snd]; split; try reflexivity.
    - apply same_but_counter_bump.
    - apply same_but_counter_refl. }
  destruct focus_query as [q |]; [destruct (truthy (Some q)) |];
    cbn [agent_id recall core archival_index with_archival get_core_memory snd
         with_core];
    repeat split; auto.
Qed.

(** A store with one core block that has never been read. *)
Definition persona_store : MemoryManager :=
  mkMemoryManager "agent"
    [("persona",
      mkMemoryBlock "core_persona_0" "I am Nexuss." CORE "t0" "t0" 1%Q 0 [])]
    [] [].

(** The store after one [build_context] call on it, without a focus query. *)
Definition persona_store_after : MemoryManager :=
  snd (build_context (new_manager 4096) "You are Nexuss." None persona_store).

(** C7 fails as stated: one [build_context] call on [persona_store] leaves a
    store that differs from it; the core block's [access_count] was 0 and is
    1 afterwards. *)
Lemma build_context_changes_store :
  persona_store_after <> persona_store /\
  map access_count (values (core persona_store)) = [0] /\
  map access_count (values (core persona_store_after)) = [1].
Proof.
  split; [| split]; [| reflexivity | vm_compute; reflexivity].
  intros H.
  apply (f_equal (fun s => map access_count (values (core s)))) in H.
  vm_compute in H. discriminate H.
Qed.

End AttentionFacts.

(** ** The skill registry *)

Module SkillFacts.

Import Py PyFacts Skills.

Section WithWorld.

Variable W : Type.
Variable time_time : W -> Q.

Lemma colliding_key_reserved (args : kwargs) (k : string) :
  colliding_key args = Some k ->
  (k = "self" \/ k = "name")%string /\ has_key k args = true.
Proof.
  unfold colliding_key. intros Hk.
  destruct (find _ args) as [[k' v] |] eqn:Hfind; [| discriminate].
  cbn [option_map fst] in Hk. injection Hk as ->.
  apply find_some in Hfind. destruct Hfind as [Hin Hres].
  cbn [fst] in Hres. split.
  - apply orb_true_iff in Hres.
    destruct Hres as [H | H]; apply String.eqb_eq in H; tauto.
  - apply has_key_in. unfold keys. apply in_map_iff. now exists (k, v).
Qed.

Lemma colliding_key_none (args : kwargs) :
  colliding_key args = None <->
  has_key "self" args = false /\ has_key "name" args = false.
Proof.
  unfold colliding_key, has_key.
  induction args as [| [k v] args IH]; cbn [find existsb fst option_map].
  - tauto.
  - rewrite (String.eqb_sym "self" k), (String.eqb_sym "name" k).
    destruct (String.eqb k "self"), (String.eqb k "name");
      cbn [orb option_map fst]; try (split; [discriminate | intros [? ?]; discriminate]).
    exact IH.
Qed.

(** Once its arguments are bound, [SkillRegistry.execute] always returns a
    [SkillResult]. For a name that is not registered the result has
    [success = False] and the error "Skill '...' not found", and nothing is
    mutated. When the registered handler raises, the result has
    [success = False], no output, and the exception's message as its error
    (what the handler mutated before raising stays). When the handler
    returns, its result is passed on. *)
Lemma registry_execute_returns (reg : SkillRegistry W) (nm : string)
    (args : kwargs) (w : W) :
  colliding_key args = None ->
  exists r w',
    registry_execute time_time reg nm args w = (Returned r, w') /\
    (get nm reg = None ->
       success r = false /\
       error r = Some ("Skill '" ++ nm ++ "' not found")%string /\ w' = w) /\
    (forall skill e w1,
       get nm reg = Some skill -> execute skill args w = (Raised e, w1) ->
       success r = false /\ output r = None /\
       error r = Some (exc_msg e) /\ w' = w1) /\
    (forall skill r0 w1,
       get nm reg = Some skill -> execute skill args w = (Returned r0, w1) ->
       success r = success r0 /\ output r = output r0 /\
       error r = error r0 /\ w' = w1).
Proof.
  intros Hbound. unfold registry_execute. rewrite Hbound.
  unfold execute_body. destruct (get nm reg) as [skill |] eqn:Hget.
  - unfold bind, try_except, read_world, ret.
    destruct (execute skill args w) as [[r0 | e] w1] eqn:Hrun.
    + eexists. exists w1. split; [reflexivity |].
      split; [discriminate |]. split.
      * intros skill' e' w1' [= <-] Hrun'. congruence.
      * intros skill' r0' w1' [= <-] Hrun'.
        rewrite Hrun in Hrun'. injection Hrun' as <- <-. repeat split.
    + eexists. exists w1. split; [reflexivity |].
      split; [discriminate |]. split.
      * intros skill' e' w1' [= <-] Hrun'.
        rewrite Hrun in Hrun'. injection Hrun' as <- <-. repeat split.
      * intros skill' r0' w1' [= <-] Hrun'. congruence.
  - eexists. exists w. split; [reflexivity |].
    split; [intros _; repeat split |]. split; discriminate.
Qed.

(** C5, at the case the code misses. [SkillRegistry.execute] does raise
    for some argument sets. When the arguments of the call hold a key
    [name] or [self], the call [execute(func_name, **args)] raises
    [TypeError] (multiple values for that argument) while it binds its
    arguments, before the body and its [try]: no [SkillResult] comes back,
    whether the name is registered or not, the handler is not run and
    nothing is mutated. *)
Theorem registry_execute_colliding_key (reg : SkillRegistry W) (nm : string)
    (args : kwargs) (w : W) (k : string) :
  colliding_key args = Some k ->
  (k = "self" \/ k = "name")%string /\ has_key k args = true /\
  registry_execute time_time reg nm args w = (Raised (multiple_values k), w) /\
  forall r w', registry_execute time_time reg nm args w <> (Returned r, w').
Proof.
  intros Hk. destruct (colliding_key_reserved args k Hk) as [Hres Hin].
  split; [exact Hres |]. split; [exact Hin |].
  unfold registry_execute. rewrite Hk. unfold raise.
  split; [reflexivity | discriminate].
Qed.

End WithWorld.

(** A handler that counts its calls in the world and then raises. *)
Definition failing_skill : Skill nat :=
  mkSkill "explode" "Always fails" []
          (fun _ n => (Raised (mkExc OtherException "boom"), S n)).

Example registry_execute_failing_handler :
  registry_execute (fun _ => 0%Q) (register failing_skill []) "explode" [] 0%nat
  = (Returned (mkSkillResult false None (Some "boom"%string) (0 - 0)%Q), 1%nat).
Proof. reflexivity. Qed.

Example registry_execute_unknown_name :
  registry_execute (fun _ => 0%Q) (register failing_skill []) "missing" [] 0%nat
  = (Returned (mkSkillResult false None (Some "Skill 'missing' not found"%string) 0%Q),
     0%nat).
Proof. reflexivity. Qed.

(** A tool call with an argument called [name], for a registered and for an
    unregistered skill. *)
Lemma registry_execute_colliding_key_witness :
  colliding_key [("name"%string, JString "Ada")] = Some "name"%string /\
  registry_execute (fun _ => 0%Q) (register failing_skill []) "missing"
                   [("name"%string, JString "Ada")] 0%nat
  = (Raised (multiple_values "name"), 0%nat) /\
  registry_execute (fun _ => 0%Q) (register failing_skill []) "explode"
                   [("name"%string, JString "Ada")] 0%nat
  = (Raised (multiple_values "name"), 0%nat).
Proof.
  assert (H : colliding_key [("name"%string, JString "Ada")] = Some "name"%string)
    by reflexivity.
  split; [exact H |]. split.
  - exact (proj1 (proj2 (proj2
             (registry_execute_colliding_key nat (fun _ => 0%Q)
                (register failing_skill []) "missing"
                [("name"%string, JString "Ada")] 0%nat "name"%string H)))).
  - reflexivity.
Defined.

End SkillFacts.

(** ** The heartbeat scheduler *)

Module HeartbeatFacts.

Import Py Config MemorySystem Attention Skills Heartbeat.

Section WithEnvironment.

Variable env : Environment.

(** What the first part of a cycle leaves as it found it, and what it sets. *)
Lemma gather_frame (h : HeartbeatProtocol) :
  let h1 := snd (gather env h) in
  fst (fst (gather env h)) = user_input_queue h /\
  output_queue h1 = output_queue h /\
  stop_event h1 = stop_event h /\
  heartbeat_requested h1 = heartbeat_requested h /\
  is_local h1 = is_local h /\
  model_name h1 = model_name h /\
  missed_beats h1 = missed_beats h /\
  heartbeat_history h1 = heartbeat_history h /\
  state h1 = HEARTBEAT /\
  beat_count h1 = beat_count h + 1 /\
  user_input_queue h1 = [].
Proof.
  unfold gather. cbv zeta.
  match goal with
  | |- context [build_context ?a ?b ?c ?d] =>
      destruct (build_context a b c d) as [[[messages ctx] att] mem]
  end.
  repeat split.
Qed.

(** A local backend with nothing queued gets no closing message. *)
Lemma closing_message_none (h : HeartbeatProtocol) :
  is_local h = true -> closing_message env [] h = None.
Proof. intros Hl. unfold closing_message. now rewrite Hl. Qed.

(** C8, at the case the code misses. A cycle of a local backend with no
    input queued is counted as a beat but returns before the end of
    [_execute_heartbeat]: the state stays [HEARTBEAT] (it does not go back to
    [IDLE]), no event is added to the history, and the missed-beat counter
    keeps its value. *)
Theorem idle_local_cycle_skips_epilogue (llm : LLM) (triggered : bool)
    (h : HeartbeatProtocol) :
  is_local h = true -> user_input_queue h = [] ->
  let h' := snd (_execute_heartbeat env llm triggered h) in
  fst (_execute_heartbeat env llm triggered h) = Returned tt /\
  beat_count h' = beat_count h + 1 /\
  state h' = HEARTBEAT /\
  heartbeat_history h' = heartbeat_history h /\
  missed_beats h' = missed_beats h.
Proof.
  intros Hlocal Hqueue. unfold _execute_heartbeat.
  pose proof (gather_frame h) as Hg. cbv zeta in Hg.
  destruct (gather env h)
    as [[user_messages messages] h1].
  cbn [fst snd] in Hg.
  destruct Hg as (Hum & _ & _ & _ & Hl & _ & Hmb & Hhist & Hst & Hbeat & _).
  rewrite Hum, Hqueue. rewrite closing_message_none by congruence.
  cbn [fst snd]. repeat split; assumption.
Qed.



End WithEnvironment.

(** C9, at the case the code misses. [stop()] sets the stop flag but leaves
    the wake flag as it was, so a worker waiting on a clear wake flag is not
    woken: its wait runs for the whole interval, where [send_user_input]
    ends it at once. *)
Theorem stop_does_not_signal_wake (h : HeartbeatProtocol) (msg : string) :
  stop_event (stop h) = true /\
  heartbeat_requested (stop h) = heartbeat_requested h /\
  (let waiting := with_heartbeat_requested false h in
   event_wait (heartbeat_requested (stop waiting)) (interval (stop waiting))
     = (false, interval h) /\
   event_wait (heartbeat_requested (send_user_input msg waiting))
              (interval (send_user_input msg waiting))
     = (true, 0%Q)).
Proof. repeat split. Qed.

End HeartbeatFacts.

(* ================================================================== *)
(** * Worked inputs *)
(* ================================================================== *)

Module Worked.

Import Py PyFacts Config MemorySystem Attention Skills Heartbeat.
Import MemoryFacts SearchFacts AttentionFacts HeartbeatFacts.

(** A stand-in for [hash_content]. *)
Definition zero_hash (_ : string) : string := "000000000000".

(** [c * n] for a one-character string. *)
Fixpoint replicate (n : nat) (c : ascii) : string :=
  match n with
  | O => EmptyString
  | S n' => String c (replicate n' c)
  end.

(** *** Core memory *)

Definition first_writes : list write_call :=
  [("persona", "I am Nexuss.", "t1"); ("user_info", "User info not provided yet.", "t2")].

Lemma update_core_memory_budget_witness :
  within_budget (MemorySystem.init "agent") /\
  core_chars (core (run_writes zero_hash first_writes (MemorySystem.init "agent")))
    <= CORE_MEMORY_LIMIT.
Proof.
  assert (H0 : within_budget (MemorySystem.init "agent")).
  { split; [constructor | vm_compute; discriminate]. }
  split; [exact H0 |].
  exact (proj1 (update_core_memory_budget zero_hash first_writes (MemorySystem.init "agent") H0)).
Defined.

(** A write that would take the tier past 2048 characters is refused. *)
Example update_core_memory_refuses_overflow :
  let m := run_writes zero_hash first_writes (MemorySystem.init "agent") in
  update_core_memory zero_hash "notes" (replicate 2010 "x") "t3" m = (false, m) /\
  fst (update_core_memory zero_hash "notes" (replicate 2009 "x") "t3" m) = true /\
  fst (update_core_memory zero_hash "persona" (replicate 2021 "x") "t3" m) = true.
Proof. vm_compute. repeat split. Qed.

(** *** Recall buffer *)

Definition numbered (i : nat) : Message :=
  mkMessage "user" (Some (replicate i "m")).

Definition full_buffer : MemoryManager :=
  run_appends (map numbered (seq 0 100)) (MemorySystem.init "agent").

Lemma add_to_recall_fifo_witness :
  (List.length (recall (MemorySystem.init "agent")) <= RECALL_MEMORY_LIMIT)%nat /\
  (List.length (recall (run_appends (map numbered (seq 0 100)) (MemorySystem.init "agent")))
     <= RECALL_MEMORY_LIMIT)%nat.
Proof.
  assert (H0 : (List.length (recall (MemorySystem.init "agent")) <= RECALL_MEMORY_LIMIT)%nat).
  { apply Nat.leb_le. vm_compute. reflexivity. }
  split; [exact H0 |].
  exact (proj1 (add_to_recall_fifo (map numbered (seq 0 100)) (MemorySystem.init "agent") H0)).
Defined.

(** The 101st entry pushes out entry 0 and no other. *)
Example add_to_recall_evicts_oldest :
  recall full_buffer = map numbered (seq 0 100) /\
  recall (add_to_recall (numbered 100) full_buffer) = map numbered (seq 1 100).
Proof. vm_compute. split; reflexivity. Qed.

Definition three_messages : MemoryManager :=
  run_appends [numbered 1; numbered 2; numbered 3] (MemorySystem.init "agent").

Lemma get_recall_messages_limit_witness :
  0 < 2 /\
  exists older,
    recall three_messages = older ++ get_recall_messages (Some 2) three_messages /\
    List.length (get_recall_messages (Some 2) three_messages)
      = Nat.min (Z.to_nat 2) (List.length (recall three_messages)).
Proof.
  assert (H2 : 0 < 2) by lia.
  split; [exact H2 |].
  exact (proj2 (proj2 (get_recall_messages_limit three_messages 2 H2))).
Defined.

Example get_recall_messages_limits :
  get_recall_messages (Some 0) three_messages = [numbered 1; numbered 2; numbered 3] /\
  get_recall_messages None three_messages = [numbered 1; numbered 2; numbered 3] /\
  get_recall_messages (Some 2) three_messages = [numbered 2; numbered 3] /\
  get_recall_messages (Some 7) three_messages = [numbered 1; numbered 2; numbered 3].
Proof. vm_compute. repeat split. Qed.

(** *** Archival search *)

Definition archived (bid text : string) (imp : Q) (ts : list string) : MemoryBlock :=
  mkMemoryBlock bid text ARCHIVAL "t0" "t0" imp 0 ts.

Definition corpus : MemoryManager :=
  mkMemoryManager "agent" [] []
    [("a1", archived "a1" "nothing relevant" 0.9 ["misc"]);
     ("a2", archived "a2" "foo only" 0.5 ["work"]);
     ("a3", archived "a3" "Foo and BAR together" 0.2 ["work"; "home"]);
     ("a4", archived "a4" "a bar" 0.9 ["home"])].

Lemma search_archival_ranked_witness :
  0 <= 5 /\
  StronglySorted (ranked "foo bar") (fst (search_archival "foo bar" 5 None corpus)) /\
  llen (fst (search_archival "foo bar" 5 None corpus)) <= 5.
Proof.
  assert (H5 : 0 <= 5) by lia.
  split; [exact H5 |].
  exact (proj2 (search_archival_ranked "foo bar" 5 None corpus H5)).
Defined.

(** Blocks without a matching word are left out; two matches come before
    one; among one match, the higher importance comes first; a tag filter
    and a limit cut the result down. *)
Example search_archival_foo_bar :
  map block_id (fst (search_archival "foo bar" 5 None corpus)) = ["a3"; "a4"; "a2"] /\
  map block_id (fst (search_archival "foo bar" 5 (Some ["work"]) corpus)) = ["a3"; "a2"] /\
  map block_id (fst (search_archival "foo bar" 2 None corpus)) = ["a3"; "a4"] /\
  map access_count (values (archival_index (snd (search_archival "foo bar" 5 None corpus))))
    = [0; 1; 1; 1].
Proof. vm_compute. repeat split. Qed.

(** *** Attention budget *)

Definition one_memory : MemoryManager :=
  mkMemoryManager "agent" [] [numbered 8; numbered 40; numbered 12]
    [("a1", archived "a1" "x" 0.5 [])].

(** The excerpt costs 7. With 23 left after the margin, a third is 7 and the
    excerpt is left out; with 24 left, a third is 8 and it goes in. *)
Example build_context_third :
  Utils.estimate_tokens (excerpt (Some "x") one_memory) = 7 /\
  after_margin (new_manager 523) "" one_memory = 23 /\
  excerpt_included (new_manager 523) "" (Some "x") one_memory = false /\
  after_margin (new_manager 524) "" one_memory = 24 /\
  excerpt_included (new_manager 524) "" (Some "x") one_memory = true.
Proof. vm_compute. repeat split. Qed.

(** C3 fails as stated: the excerpt costs 7, which is strictly less than
    one-third of the 23 that are left (7 < 23/3), archival search has found
    a block, and the system message carries no excerpt. *)
Lemma build_context_exact_third_excluded :
  (inject_Z (Utils.estimate_tokens (excerpt (Some "x") one_memory))
     < inject_Z (after_margin (new_manager 523) "" one_memory) / 3)%Q /\
  focus_results (Some "x") one_memory <> [] /\
  fst (fst (fst (build_context (new_manager 523) "" (Some "x") one_memory)))
    = [mkMessage "system" (Some (full_system "" (fst (get_core_memory one_memory))));
       numbered 8; numbered 40; numbered 12].
Proof.
  split; [vm_compute; reflexivity |].
  split; [vm_compute; discriminate | vm_compute; reflexivity].
Qed.

(** Recall entries of cost 2, 10 and 3 (oldest first) against 12 left: the
    newest (3) fits, the next (10) would overflow, so the oldest is not
    looked at even though it would fit. *)
Example build_context_newest_first :
  map msg_tokens (recall one_memory) = [2; 10; 3] /\
  after_margin (new_manager 512) "" one_memory = 12 /\
  fst (fst (fst (build_context (new_manager 512) "" None one_memory)))
    = [mkMessage "system" (Some (full_system "" "")); numbered 12] /\
  fst (fst (fst (build_context (new_manager 513) "" None one_memory)))
    = [mkMessage "system" (Some (full_system "" "")); numbered 40; numbered 12].
Proof. vm_compute. repeat split. Qed.

(** *** Heartbeat *)

Definition plain_env : Environment :=
  mkEnvironment (fun _ _ => "heartbeat prompt") (fun _ _ => "local prompt")
                (fun _ => "status") (fun nm _ => Returned nm) (fun _ => "now") [].

(** A backend that is down. *)
Definition refused : Exc := mkExc RequestError "connection refused".

Definition dead_llm : LLM := mkLLM false (fun _ => Raised refused).

Definition started (local : bool) : HeartbeatProtocol :=
  start (Heartbeat.init local "Nexuss:ds7b" (MemorySystem.init "agent")
                        (new_manager ATTENTION_WINDOW_TOKENS) 60%Q 0%Q).

Definition greeted : HeartbeatProtocol := send_user_input "hello" (started false).

(** What [cycle_request] builds for [greeted]. *)
Definition greeted_request : ChatRequest :=
  match cycle_request plain_env dead_llm (with_heartbeat_requested false greeted) with
  | Some req => req
  | None => mkChatRequest "" [] false None None
  end.


Example dead_backend_cycle :
  let h' := snd (loop_body plain_env dead_llm greeted) in
  fst (loop_body plain_env dead_llm greeted) = Continue /\
  output_queue h' = [("error"%string, JString "connection refused")] /\
  state h' = IDLE /\ missed_beats h' = 0 /\ List.length (heartbeat_history h') = 1%nat.
Proof. vm_compute. repeat split. Qed.

(** A local scheduler with two missed beats on record and nothing queued. *)
Definition idle_local : HeartbeatProtocol := with_missed_beats 2 (started true).

Lemma idle_local_cycle_skips_epilogue_witness :
  is_local idle_local = true /\ user_input_queue idle_local = [] /\
  state (snd (_execute_heartbeat plain_env dead_llm false idle_local)) = HEARTBEAT /\
  heartbeat_history (snd (_execute_heartbeat plain_env dead_llm false idle_local))
    = heartbeat_history idle_local /\
  missed_beats (snd (_execute_heartbeat plain_env dead_llm false idle_local))
    = missed_beats idle_local.
Proof.
  assert (H1 : is_local idle_local = true) by reflexivity.
  assert (H2 : user_input_queue idle_local = []) by reflexivity.
  split; [exact H1 |]. split; [exact H2 |].
  exact (proj2 (proj2 (idle_local_cycle_skips_epilogue plain_env dead_llm false
                         idle_local H1 H2))).
Defined.

(** The same cycle on a remote backend, and on a local one with input, ends
    in [IDLE] with an event recorded and the counter reset. *)
Example idle_cycle_local_against_remote :
  let local := snd (_execute_heartbeat plain_env dead_llm false idle_local) in
  let remote :=
    snd (_execute_heartbeat plain_env dead_llm false (with_missed_beats 2 (started false))) in
  let local_input :=
    snd (_execute_heartbeat plain_env dead_llm true (send_user_input "hello" idle_local)) in
  (state local, List.length (heartbeat_history local), missed_beats local)
    = (HEARTBEAT, 0%nat, 2) /\
  (state remote, List.length (heartbeat_history remote), missed_beats remote)
    = (IDLE, 1%nat, 0) /\
  (state local_input, List.length (heartbeat_history local_input), missed_beats local_input)
    = (IDLE, 1%nat, 0).
Proof. vm_compute. repeat split. Qed.

(** An idle worker with the default interval: after [stop()] its wait still
    runs the 60 seconds, longer than the 5 seconds [stop()] waits in [join];
    after [send_user_input] it ends at once. *)
Example stop_against_send_user_input :
  heartbeat_requested (stop (started false)) = false /\
  event_wait (heartbeat_requested (stop (started false))) (interval (stop (started false)))
    = (false, 60%Q) /\
  (JOIN_TIMEOUT < interval (stop (started false)))%Q /\
  event_wait (heartbeat_requested greeted) (interval greeted) = (true, 0%Q).
Proof. vm_compute. repeat split. Qed.

End Worked.

(* ================================================================== *)
(** * Further properties of the memory store *)
(* ================================================================== *)

Module StoreFacts.

Import Py PyFacts Config MemorySystem MemoryFacts SearchFacts AttentionFacts.

(** *** Dictionaries: deletion *)

Lemma get_delitem_same {V : Type} (k : string) (d : dict V) :
  get k (delitem k d) = None.
Proof.
  induction d as [| [k' v] d IH]; [reflexivity |].
  unfold delitem in *. cbn [filter fst].
  destruct (String.eqb_spec k k') as [-> | Hne]; cbn [negb]; [exact IH |].
  cbn [get]. destruct (String.eqb_spec k k'); [contradiction | exact IH].
Qed.

Lemma get_delitem_other {V : Type} (k k0 : string) (d : dict V) :
  k0 <> k -> get k0 (delitem k d) = get k0 d.
Proof.
  intros Hne. induction d as [| [k' v] d IH]; [reflexivity |].
  unfold delitem in *. cbn [filter fst].
  destruct (String.eqb_spec k k') as [<- | Hk]; cbn [negb get].
  - destruct (String.eqb_spec k0 k); [contradiction | exact IH].
  - destruct (String.eqb k0 k'); [reflexivity | exact IH].
Qed.

Lemma delitem_absent {V : Type} (k : string) (d : dict V) :
  ~ In k (keys d) -> delitem k d = d.
Proof.
  induction d as [| [k' v] d IH]; [reflexivity |]. intros Hn.
  unfold delitem in *. cbn [filter fst].
  destruct (String.eqb_spec k k') as [-> | _]; cbn [negb].
  - exfalso. apply Hn. now left.
  - f_equal. apply IH. intros Hin. apply Hn. now right.
Qed.

Lemma delitem_snoc {V : Type} (k : string) (v : V) (d : dict V) :
  ~ In k (keys d) -> delitem k (d ++ [(k, v)]) = d.
Proof.
  intros Hn. unfold delitem. rewrite filter_app. cbn [filter fst].
  rewrite String.eqb_refl. cbn [negb]. rewrite app_nil_r.
  now apply delitem_absent.
Qed.

Lemma has_key_snoc {V : Type} (k : string) (v : V) (d : dict V) :
  has_key k (d ++ [(k, v)]) = true.
Proof. apply has_key_in. unfold keys. rewrite map_app, in_app_iff. right. now left. Qed.

Lemma core_chars_delitem (k : string) (c : dict MemoryBlock) :
  core_chars (delitem k c) <= core_chars c.
Proof.
  induction c as [| [k' b] c IH]; [reflexivity |].
  unfold delitem, core_chars, sum in *. cbn [filter fst].
  assert (0 <= len (content b)) by (unfold len; lia).
  destruct (negb (String.eqb k k')); cbn [map fold_right snd]; lia.
Qed.

Lemma with_core_same (m : MemoryManager) : with_core (core m) m = m.
Proof. now destruct m. Qed.

Lemma with_archival_same (m : MemoryManager) : with_archival (archival_index m) m = m.
Proof. now destruct m. Qed.

(** X1. [delete_core_memory] returns [True] exactly when the key is present.
    Afterwards the key is absent, every other key holds what it held, the
    core tier holds no more characters than before, and recall and archival
    memory are untouched; for an absent key the store is left as it was. *)
Theorem delete_core_memory_removes (key : string) (m : MemoryManager) :
  let r := delete_core_memory key m in
  fst r = has_key key (core m) /\
  get key (core (snd r)) = None /\
  (forall k, k <> key -> get k (core (snd r)) = get k (core m)) /\
  core_chars (core (snd r)) <= core_chars (core m) /\
  (has_key key (core m) = false -> snd r = m) /\
  recall (snd r) = recall m /\
  archival_index (snd r) = archival_index m.
Proof.
  unfold delete_core_memory. destruct (has_key key (core m)) eqn:Hk; cbn [fst snd].
  - cbn [core with_core recall archival_index].
    split; [reflexivity |]. split; [apply get_delitem_same |].
    split; [intros k Hne; now apply get_delitem_other |].
    split; [apply core_chars_delitem |]. split; [discriminate | split; reflexivity].
  - apply has_key_false in Hk.
    split; [reflexivity |]. split.
    + destruct (get key (core m)) as [b |] eqn:Hg; [| reflexivity].
      exfalso. apply Hk. apply get_some_in in Hg.
      unfold keys. apply in_map_iff. now exists (key, b).
    + repeat split; lia.
Qed.

Section WithHash.

Variable hash_content : string -> string.

(** X2. An accepted [update_core_memory] on an existing key rewrites the
    block in place: the keys keep their order, and the block keeps its id,
    creation time, importance, access counter and tags, with the new content
    and [updated_at]. On a new key it adds one block at the end, named
    [core_<key>_<hash>], with importance 1 and a zero access counter. *)
Theorem update_core_memory_in_place (key c now : string) (m : MemoryManager) :
  others_len key (core m) + len c <= CORE_MEMORY_LIMIT ->
  let m' := snd (update_core_memory hash_content key c now m) in
  (forall b, get key (core m) = Some b ->
     keys (core m') = keys (core m) /\
     get key (core m')
       = Some (mkMemoryBlock (block_id b) c (memory_type b) (created_at b) now
                             (importance b) (access_count b) (tags b))) /\
  (get key (core m) = None ->
     core m'
       = core m
         ++ [(key, mkMemoryBlock ("core_" ++ key ++ "_" ++ hash_content c)%string
                                 c CORE now now 1%Q 0 [])]).
Proof.
  intros Hfit. unfold update_core_memory.
  destruct (Z.ltb_spec CORE_MEMORY_LIMIT (others_len key (core m) + len c)); [lia |].
  split.
  - intros b Hb.
    assert (Hk : has_key key (core m) = true).
    { apply has_key_in. apply get_some_in in Hb. unfold keys.
      apply in_map_iff. now exists (key, b). }
    rewrite Hk. cbn [snd core with_core].
    split; [apply keys_modify |]. rewrite get_modify_same, Hb. reflexivity.
  - intros Hnone.
    assert (Hk : has_key key (core m) = false).
    { apply has_key_false. intros Hin.
      destruct (get_in_keys key (core m) Hin) as [b Hb]. congruence. }
    rewrite Hk. unfold setitem. rewrite Hk. reflexivity.
Qed.

(** X3. Writing a new key and deleting it again gives back the store: for a
    key that is absent and a content that fits, [delete_core_memory] after
    [update_core_memory] returns [True] and the store is the one before the
    write. *)
Theorem update_then_delete_core (key c now : string) (m : MemoryManager) :
  has_key key (core m) = false ->
  others_len key (core m) + len c <= CORE_MEMORY_LIMIT ->
  delete_core_memory key (snd (update_core_memory hash_content key c now m))
  = (true, m).
Proof.
  intros Hk Hfit. unfold update_core_memory.
  destruct (Z.ltb_spec CORE_MEMORY_LIMIT (others_len key (core m) + len c)); [lia |].
  rewrite Hk. unfold setitem. rewrite Hk. cbn [snd].
  unfold delete_core_memory. cbn [core with_core].
  rewrite has_key_snoc. rewrite delitem_snoc by now apply has_key_false.
  f_equal. now destruct m.
Qed.

End WithHash.

(** X4. The text of [get_core_memory] does not depend on the access
    counters: reading again gives the same text. Each read adds one to the
    counter of every core block and changes nothing else, and an empty
    core tier reads as the empty string. *)
Theorem get_core_memory_repeatable (m : MemoryManager) :
  let m' := snd (get_core_memory m) in
  fst (get_core_memory m') = fst (get_core_memory m) /\
  Forall2 (fun kb kb' =>
             fst kb' = fst kb /\ same_but_counter (snd kb) (snd kb') /\
             access_count (snd kb') = access_count (snd kb) + 1)
          (core m) (core m') /\
  recall m' = recall m /\ archival_index m' = archival_index m /\
  (core m = [] -> fst (get_core_memory m) = ""%string).
Proof.
  unfold get_core_memory. cbn [fst snd core with_core recall archival_index].
  split; [| split; [| split; [reflexivity | split; [reflexivity |]]]].
  - f_equal. rewrite map_map. apply map_ext. intros [k b]. reflexivity.
  - apply Forall2_map_same. intros [k b]. cbn [fst snd].
    split; [reflexivity |]. split; [apply same_but_counter_bump | reflexivity].
  - intros ->. reflexivity.
Qed.

(** *** Archival memory *)

(** A block passes the tag filter and contains a word of the query. *)
Definition matches (filter_tags : option (list string)) (words : list string)
    (b : MemoryBlock) : bool :=
  negb (tag_skip filter_tags b) && (0 <? score words b).

(** What a search does to an entry of the index. *)
Definition count_match (filter_tags : option (list string)) (words : list string)
    (kb : string * MemoryBlock) : string * MemoryBlock :=
  if matches filter_tags words (snd kb) then (fst kb, bump_access (snd kb)) else kb.

(** The loop of [search_archival], in closed form. *)
Lemma scan_spec (filter_tags : option (list string)) (words : list string)
    (index : dict MemoryBlock) :
  scan filter_tags words index
  = (map (count_match filter_tags words) index,
     map (fun b => (score words b, bump_access b))
         (filter (matches filter_tags words) (values index))).
Proof.
  induction index as [| [k block] rest IH]; [reflexivity |].
  cbn [scan]. rewrite IH. unfold values, count_match, matches.
  cbn [map filter fst snd].
  destruct (tag_skip filter_tags block); cbn [negb andb]; [reflexivity |].
  destruct (0 <? score words block); reflexivity.
Qed.

Lemma search_archival_spec (query : string) (limit : Z)
    (filter_tags : option (list string)) (m : MemoryManager) :
  search_archival query limit filter_tags m
  = (map snd
       (slice_to limit
          (sort_desc
             (map (fun b => (score (query_words query) b, bump_access b))
                  (filter (matches filter_tags (query_words query))
                          (values (archival_index m)))))),
     with_archival
       (map (count_match filter_tags (query_words query)) (archival_index m)) m).
Proof. unfold search_archival. now rewrite scan_spec. Qed.

Lemma slice_to_all {A : Type} (limit : Z) (l : list A) :
  llen l <= limit -> slice_to limit l = l.
Proof.
  unfold llen, slice_to, clamp. intros Hl.
  destruct (Z.ltb_spec limit 0) as [Hneg | _]; [lia |].
  apply firstn_all2. lia.
Qed.

Lemma slice_to_zero {A : Type} (l : list A) : slice_to 0 l = [].
Proof.
  unfold slice_to, clamp. cbn [Z.ltb Z.compare].
  replace (Z.to_nat (Z.max 0 (Z.min (Z.of_nat (List.length l)) 0))) with 0%nat by lia.
  reflexivity.
Qed.

Lemma filter_length_le {A : Type} (p : A -> bool) (l : list A) :
  (List.length (filter p l) <= List.length l)%nat.
Proof.
  induction l as [| x l IH]; [apply Nat.le_refl |].
  cbn [filter]. destruct (p x); cbn [List.length]; lia.
Qed.

Lemma matching_within_limit (query : string) (limit : Z)
    (filter_tags : option (list string)) (m : MemoryManager) :
  llen (archival_index m) <= limit ->
  llen (sort_desc
          (map (fun b => (score (query_words query) b, bump_access b))
               (filter (matches filter_tags (query_words query))
                       (values (archival_index m))))) <= limit.
Proof.
  unfold llen, values. intros Hl.
  rewrite sort_desc_length, length_map.
  pose proof (filter_length_le (matches filter_tags (query_words query))
                (map snd (archival_index m))) as Hf.
  rewrite length_map in Hf. lia.
Qed.

(** X5. [add_to_archival] returns the id [arch_<hash>_<seconds>] and stores
    under it a block with the given content, tags (none for [None]) and
    importance and a zero access counter; every other id holds what it held.
    The index grows by one when the id is new. When the id is already there
    (the same content archived again within the same second) the earlier block is
    replaced and the index does not grow. [delete_archival] on the returned
    id then succeeds and removes it. *)
Theorem add_to_archival_lookup (hash_content : string -> string)
    (c : string) (new_tags : option (list string)) (imp : Q) (secs now : string)
    (m : MemoryManager) :
  let bid := fst (add_to_archival hash_content c new_tags imp secs now m) in
  let m' := snd (add_to_archival hash_content c new_tags imp secs now m) in
  bid = ("arch_" ++ hash_content c ++ "_" ++ secs)%string /\
  get bid (archival_index m')
    = Some (mkMemoryBlock bid c ARCHIVAL now now imp 0
              (match new_tags with Some ts => ts | None => [] end)) /\
  (forall k, k <> bid -> get k (archival_index m') = get k (archival_index m)) /\
  (has_key bid (archival_index m) = false ->
     llen (archival_index m') = llen (archival_index m) + 1) /\
  (has_key bid (archival_index m) = true ->
     llen (archival_index m') = llen (archival_index m)) /\
  fst (delete_archival bid m') = true /\
  get bid (archival_index (snd (delete_archival bid m'))) = None.
Proof.
  unfold add_to_archival. cbn [fst snd archival_index with_archival].
  set (bid := ("arch_" ++ hash_content c ++ "_" ++ secs)%string).
  set (block := mkMemoryBlock bid c ARCHIVAL now now imp 0
                  (match new_tags with Some ts => ts | None => [] end)).
  assert (Hhas : has_key bid (setitem bid block (archival_index m)) = true).
  { unfold setitem. destruct (has_key bid (archival_index m)) eqn:Hk.
    - apply has_key_in. rewrite keys_modify. now apply has_key_in.
    - apply has_key_snoc. }
  split; [reflexivity |]. split; [| split; [| split; [| split; [| split]]]].
  - unfold setitem. destruct (has_key bid (archival_index m)) eqn:Hk.
    + rewrite get_modify_same. apply has_key_in in Hk.
      destruct (get_in_keys bid _ Hk) as [b0 Hb0]. now rewrite Hb0.
    + apply get_app_new. now apply has_key_false.
  - intros k Hne. unfold setitem. destruct (has_key bid (archival_index m)).
    + now apply get_modify_other.
    + now apply get_app_other.
  - intros Hk. unfold setitem, llen. rewrite Hk, length_app. cbn [List.length]. lia.
  - intros Hk. unfold setitem, llen, modify. rewrite Hk, length_map. reflexivity.
  - unfold delete_archival. cbn [archival_index with_archival]. now rewrite Hhas.
  - unfold delete_archival. cbn [archival_index with_archival]. rewrite Hhas.
    cbn [snd archival_index with_archival]. apply get_delitem_same.
Qed.

(** X6. With a limit no smaller than the index, [search_archival] returns
    every match and nothing else: a block is returned exactly when it is a
    block of the index (its counter incremented) that passes the tag filter
    and contains a query word, and as many blocks come back as match. *)
Theorem search_archival_complete (query : string) (limit : Z)
    (filter_tags : option (list string)) (m : MemoryManager) :
  llen (archival_index m) <= limit ->
  let found := fst (search_archival query limit filter_tags m) in
  (forall b,
     In b found <->
     exists b0, In b0 (values (archival_index m)) /\
                matches filter_tags (query_words query) b0 = true /\
                b = bump_access b0) /\
  llen found
    = llen (filter (matches filter_tags (query_words query))
                   (values (archival_index m))).
Proof.
  intros Hl found. subst found. rewrite search_archival_spec. cbn [fst].
  rewrite slice_to_all by now apply matching_within_limit.
  split.
  - intros b. rewrite in_map_iff. split.
    + intros [r [<- Hr]]. apply (proj1 (sort_desc_in _ _)) in Hr. apply in_map_iff in Hr.
      destruct Hr as [b0 [<- Hb0]]. apply filter_In in Hb0.
      exists b0. cbn [snd]. tauto.
    + intros [b0 (Hin & Hm & ->)].
      exists (score (query_words query) b0, bump_access b0).
      split; [reflexivity |]. apply (proj2 (sort_desc_in _ _)). apply in_map_iff.
      exists b0. split; [reflexivity |]. now apply filter_In.
  - unfold llen. now rewrite length_map, sort_desc_length, length_map.
Qed.

(** X7. The access counters [search_archival] increments do not depend on
    the limit: every block that passes the tag filter and contains a query
    word has its counter incremented, returned or not (also with limit 0),
    every other block is unchanged, keys and order stay, and core memory and
    the recall buffer are untouched. *)
Theorem search_archival_counts_every_match (query : string) (limit : Z)
    (filter_tags : option (list string)) (m : MemoryManager) :
  let m' := snd (search_archival query limit filter_tags m) in
  archival_index m'
    = map (count_match filter_tags (query_words query)) (archival_index m) /\
  m' = snd (search_archival query 0 filter_tags m) /\
  fst (search_archival query 0 filter_tags m) = [] /\
  core m' = core m /\ recall m' = recall m.
Proof.
  intros m'. subst m'. rewrite !search_archival_spec.
  cbn [fst snd archival_index with_archival core recall].
  split; [reflexivity |]. split; [reflexivity |].
  split; [now rewrite slice_to_zero | split; reflexivity].
Qed.

(** X8. A query without words (empty, or blank characters only) matches
    nothing: the result is empty and the store, counters included, is left
    as it was. *)
Theorem search_archival_blank_query (query : string) (limit : Z)
    (filter_tags : option (list string)) (m : MemoryManager) :
  split (lower query) = [] ->
  search_archival query limit filter_tags m = ([], m).
Proof.
  intros Hblank. rewrite search_archival_spec.
  assert (Hw : query_words query = []) by (unfold query_words; now rewrite Hblank).
  rewrite Hw.
  assert (Hnone : forall l : list MemoryBlock, filter (matches filter_tags []) l = []).
  { induction l as [| b l IH]; [reflexivity |]. cbn [filter].
    unfold matches at 1. unfold score. cbn [filter llen List.length Z.of_nat Z.ltb Z.compare].
    rewrite andb_false_r. exact IH. }
  rewrite Hnone. cbn [map sort_desc fold_right].
  assert (Hid : map (count_match filter_tags []) (archival_index m) = archival_index m).
  { rewrite <- (map_id (archival_index m)) at 2. apply map_ext. intros [k b].
    unfold count_match, matches, score.
    cbn [filter llen List.length Z.of_nat Z.ltb Z.compare snd].
    now rewrite andb_false_r. }
  rewrite Hid, with_archival_same. f_equal.
  unfold slice_to. now rewrite firstn_nil.
Qed.

(** *** Ties *)

(** Two scored blocks with the same sort key. *)
Definition same_key (a x : Z * MemoryBlock) : bool :=
  (fst a =? fst x) && Qeq_bool (importance (snd a)) (importance (snd x)).

(** Two blocks with the same score against a query and the same importance. *)
Definition tied (query : string) (a b : MemoryBlock) : bool :=
  same_key (score (query_words query) a, a) (score (query_words query) b, b).

Lemma key_lt_same_key (a x y : Z * MemoryBlock) :
  same_key a x = true -> same_key a y = true -> key_lt x y = false.
Proof.
  unfold same_key, key_lt. rewrite !andb_true_iff, !Z.eqb_eq.
  intros [Hx Qx] [Hy Qy]. apply Qeq_bool_iff in Qx, Qy.
  replace (fst x =? fst y) with true by (symmetry; apply Z.eqb_eq; congruence).
  apply negb_false_iff, Qle_bool_iff.
  rewrite <- Qx, <- Qy. apply Qle_refl.
Qed.

Lemma filter_insert_desc (a x : Z * MemoryBlock) (l : list (Z * MemoryBlock)) :
  filter (same_key a) (insert_desc x l)
  = if same_key a x then x :: filter (same_key a) l else filter (same_key a) l.
Proof.
  induction l as [| y l IH]; cbn [insert_desc].
  - cbn [filter]. reflexivity.
  - destruct (key_lt x y) eqn:Hlt.
    + cbn [filter]. rewrite IH.
      destruct (same_key a x) eqn:Hx; [| reflexivity].
      destruct (same_key a y) eqn:Hy; [| reflexivity].
      rewrite (key_lt_same_key a x y Hx Hy) in Hlt. discriminate.
    + cbn [filter]. reflexivity.
Qed.

(** The sort is stable: entries with one key keep their order. *)
Lemma sort_desc_stable (a : Z * MemoryBlock) (l : list (Z * MemoryBlock)) :
  filter (same_key a) (sort_desc l) = filter (same_key a) l.
Proof.
  induction l as [| x l IH]; [reflexivity |].
  cbn [sort_desc fold_right]. fold (sort_desc l).
  rewrite filter_insert_desc, IH. reflexivity.
Qed.

Lemma filter_map_comm {A B : Type} (p : B -> bool) (f : A -> B) (l : list A) :
  filter p (map f l) = map f (filter (fun x => p (f x)) l).
Proof.
  induction l as [| x l IH]; [reflexivity |].
  cbn [map filter]. rewrite IH. now destruct (p (f x)).
Qed.

Lemma filter_and {A : Type} (p q : A -> bool) (l : list A) :
  filter q (filter p l) = filter (fun x => p x && q x) l.
Proof.
  induction l as [| x l IH]; [reflexivity |].
  cbn [filter]. destruct (p x); cbn [andb filter]; rewrite IH; reflexivity.
Qed.

(** X9. Ties keep the order of the index: among the blocks returned (with a
    limit no smaller than the index), those with the same number of
    matching words and the same importance as a given block come in the
    order in which the index holds them. *)
Theorem search_archival_ties_in_index_order (query : string) (limit : Z)
    (filter_tags : option (list string)) (m : MemoryManager) (a : MemoryBlock) :
  llen (archival_index m) <= limit ->
  filter (tied query a) (fst (search_archival query limit filter_tags m))
  = map bump_access
        (filter (fun b => matches filter_tags (query_words query) b && tied query a b)
                (values (archival_index m))).
Proof.
  intros Hl. rewrite search_archival_spec. cbn [fst].
  rewrite slice_to_all by now apply matching_within_limit.
  rewrite filter_map_comm.
  replace (fun x : Z * MemoryBlock => tied query a (snd x))
    with (fun x : Z * MemoryBlock =>
            same_key (score (query_words query) a, a)
                     (score (query_words query) (snd x), snd x)) by reflexivity.
  set (words := query_words query).
  set (g := fun b : MemoryBlock => (score words b, bump_access b)).
  set (matching := filter (matches filter_tags words) (values (archival_index m))).
  assert (Hkey : forall l : list (Z * MemoryBlock),
            Forall (fun r => fst r = score words (snd r)) l ->
            filter (fun x => same_key (score words a, a) (score words (snd x), snd x)) l
            = filter (same_key (score words a, a)) l).
  { induction l as [| r l IH]; intros Hf; [reflexivity |].
    inversion Hf as [| ? ? Hr Hrest]; subst. cbn [filter].
    rewrite (IH Hrest). unfold same_key at 1 3. cbn [fst snd]. now rewrite <- Hr. }
  rewrite Hkey.
  - rewrite sort_desc_stable. subst g. rewrite filter_map_comm, map_map.
    cbn [snd]. subst matching. rewrite filter_and. reflexivity.
  - apply Forall_forall. intros r Hr. apply (proj1 (sort_desc_in _ _)) in Hr.
    apply in_map_iff in Hr. destruct Hr as [b [<- _]]. reflexivity.
Qed.

(** *** Recall buffer *)

(** X10. A negative limit does not take the last entries: for [n < 0],
    [get_recall_messages(n)] is [msgs[-n:]], the buffer without its [-n]
    oldest entries (empty when the buffer holds no more than that). *)
Theorem get_recall_messages_negative_limit (m : MemoryManager) (n : Z) :
  n < 0 ->
  get_recall_messages (Some n) m = skipn (Z.to_nat (- n)) (recall m) /\
  List.length (get_recall_messages (Some n) m)
    = (List.length (recall m) - Z.to_nat (- n))%nat.
Proof.
  intros Hn. unfold get_recall_messages.
  destruct (Z.eqb_spec n 0) as [-> | _]; [lia |].
  unfold slice_from, clamp.
  destruct (Z.ltb_spec (- n) 0) as [Hc | _]; [lia |].
  destruct (Z.le_gt_cases (Z.of_nat (List.length (recall m))) (- n)) as [Hbig | Hsmall].
  - replace (Z.to_nat (Z.max 0 (Z.min (Z.of_nat (List.length (recall m))) (- n))))
      with (List.length (recall m)) by lia.
    rewrite !skipn_all2 by lia. split; [reflexivity |]. cbn [List.length]. lia.
  - replace (Z.to_nat (Z.max 0 (Z.min (Z.of_nat (List.length (recall m))) (- n))))
      with (Z.to_nat (- n)) by lia.
    split; [reflexivity |]. apply length_skipn.
Qed.

End StoreFacts.

(* ================================================================== *)
(** * Further properties of the text helpers and the attention budgeter *)
(* ================================================================== *)

Module BudgetFacts.

Import Py PyFacts Config MemorySystem Attention AttentionFacts StoreFacts.

(** *** Strings *)

Lemma str_length_app (s1 s2 : string) :
  String.length (s1 ++ s2)%string = (String.length s1 + String.length s2)%nat.
Proof.
  induction s1 as [| c s1 IH]; [reflexivity |].
  cbn [String.append String.length]. now rewrite IH.
Qed.

Lemma substring0_length (n : nat) (s : string) :
  (n <= String.length s)%nat -> String.length (String.substring 0 n s) = n.
Proof.
  revert n. induction s as [| c s IH]; intros [| n] Hn; try reflexivity.
  - cbn [String.length] in Hn. lia.
  - cbn [String.substring String.length] in *. rewrite IH; lia.
Qed.

Lemma substring0_prefix (n : nat) (s : string) :
  String.prefix (String.substring 0 n s) s = true.
Proof.
  revert n. induction s as [| c s IH]; intros [| n]; try reflexivity.
  cbn [String.substring String.prefix].
  destruct (ascii_dec c c) as [_ | Hne]; [apply IH | contradiction].
Qed.

(** X11. [truncate(text, max_len)] with [max_len >= 3] never returns more
    than [max_len] characters: a text that fits is returned as it is, and a
    longer one becomes its first [max_len - 3] characters followed by three
    dots, [max_len] characters in all. *)
Theorem truncate_bounded (text : string) (max_len : Z) :
  3 <= max_len ->
  len (Utils.truncate text max_len) <= max_len /\
  (len text <= max_len -> Utils.truncate text max_len = text) /\
  (max_len < len text ->
     len (Utils.truncate text max_len) = max_len /\
     exists head,
       Utils.truncate text max_len = (head ++ "...")%string /\
       String.prefix head text = true /\ len head = max_len - 3).
Proof.
  intros Hmax. unfold Utils.truncate.
  destruct (Z.ltb_spec max_len (len text)) as [Hlong | Hfits].
  - assert (Hclamp : clamp (max_len - 3) (String.length text) = Z.to_nat (max_len - 3)).
    { unfold clamp, len in *.
      destruct (Z.ltb_spec (max_len - 3) 0) as [Hc | _]; lia. }
    assert (Hhead : len (str_slice_to (max_len - 3) text) = max_len - 3).
    { unfold str_slice_to, len in *. rewrite Hclamp, substring0_length; lia. }
    assert (Hall : len (str_slice_to (max_len - 3) text ++ "...")%string = max_len).
    { unfold len in *. rewrite str_length_app. cbn [String.length]. lia. }
    split; [lia |]. split; [lia |]. intros _. split; [exact Hall |].
    exists (str_slice_to (max_len - 3) text).
    split; [reflexivity |]. split; [apply substring0_prefix | exact Hhead].
  - split; [exact Hfits |]. split; [reflexivity | lia].
Qed.

(** Below three, the slice bound is negative and counts from the end. *)
Example truncate_below_three :
  Utils.truncate "abcdef" 2 = "abcde..."%string.
Proof. reflexivity. Qed.

(** *** The context snapshot *)

(** The snapshot and the manager [build_context] leaves, in terms of its
    two steps. *)
Lemma build_context_snapshot (am : AttentionManager) (system_prompt : string)
    (focus_query : option string) (m : MemoryManager) :
  let step :=
    archival_step focus_query (after_margin am system_prompt m)
                  (snd (get_core_memory m)) in
  let sys := Utils.estimate_tokens system_prompt in
  let cor := Utils.estimate_tokens (fst (get_core_memory m)) in
  let cost := match fst step with Some (_, c) => c | None => 0 end in
  let rec_tokens :=
    snd (fill_recall (after_margin am system_prompt m - cost)
                     (rev (recall (snd step))) [] 0) in
  snd (fst (fst (build_context am system_prompt focus_query m)))
    = mkAttentionContext (sys + cor + cost + rec_tokens) cor rec_tokens sys
        (max_tokens am - (sys + cor + cost + rec_tokens)) focus_query [] /\
  snd (fst (build_context am system_prompt focus_query m))
    = mkAttentionManager (max_tokens am)
        (snd (fst (fst (build_context am system_prompt focus_query m)))).
Proof.
  unfold build_context, after_margin.
  destruct (get_core_memory m) as [core_content m1]. cbn [fst snd].
  destruct (archival_step focus_query
              (max_tokens am
               - (Utils.estimate_tokens system_prompt
                  + Utils.estimate_tokens core_content) - 500) m1)
    as [found m2].
  cbn [fst snd]. unfold get_recall_messages, reversed.
  destruct found as [[text cost] |].
  - destruct (fill_recall _ (rev (recall m2)) [] 0) as [sel tok].
    cbn [fst snd]. split; reflexivity.
  - rewrite Z.sub_0_r, Z.add_0_r.
    destruct (fill_recall _ (rev (recall m2)) [] 0) as [sel tok].
    cbn [fst snd]. split; reflexivity.
Qed.

(** The recall loop, started empty: what it selects and what it counts. *)
Lemma fill_recall_counts (budget : Z) (msgs : list Message) :
  let r := fill_recall budget (rev msgs) [] 0 in
  snd r = tokens_of (fst r) /\
  0 <= snd r /\
  (fst r = [] \/ snd r <= budget) /\
  (budget < 0 -> fst r = []).
Proof.
  destruct (fill_recall_spec budget (rev msgs) [] 0)
    as (taken & rest & Hsplit & Hrun & Hfits & Hstop).
  cbv zeta. rewrite Hrun. cbn [fst snd]. rewrite app_nil_r, tokens_of_rev.
  assert (Hnonneg : forall l, 0 <= tokens_of l).
  { induction l as [| x l IH]; [rewrite tokens_of_nil; lia |].
    rewrite tokens_of_cons. pose proof (msg_tokens_nonneg x). lia. }
  split; [lia |]. split; [apply Hnonneg |]. split.
  - destruct Hfits as [-> | Hle]; [now left | right; lia].
  - intros Hneg. destruct Hfits as [-> | Hle]; [reflexivity |].
    pose proof (Hnonneg taken). lia.
Qed.

(** The cost of an included excerpt is below the margin left. *)
Lemma included_cost_below (am : AttentionManager) (system_prompt : string)
    (focus_query : option string) (m : MemoryManager) :
  excerpt_included am system_prompt focus_query m = true ->
  0 <= Utils.estimate_tokens (excerpt focus_query m)
    < after_margin am system_prompt m / 3.
Proof.
  unfold excerpt_included. rewrite !andb_true_iff, Z.ltb_lt. intros [_ Hc].
  split; [| exact Hc]. unfold Utils.estimate_tokens, len. apply Z.div_pos; lia.
Qed.

(** X12. The snapshot [build_context] returns (and stores in the manager)
    adds up: [recall_tokens] is the cost of the recall entries in the
    messages, [total_tokens] is system + core + recall plus the cost of the
    excerpt when it is included, and [available_tokens] is the budget minus
    the total. *)
Theorem build_context_accounting (am : AttentionManager) (system_prompt : string)
    (focus_query : option string) (m : MemoryManager) :
  let messages := fst (fst (fst (build_context am system_prompt focus_query m))) in
  let ctx := snd (fst (fst (build_context am system_prompt focus_query m))) in
  let am' := snd (fst (build_context am system_prompt focus_query m)) in
  system_tokens ctx = Utils.estimate_tokens system_prompt /\
  core_tokens ctx = Utils.estimate_tokens (fst (get_core_memory m)) /\
  recall_tokens ctx = tokens_of (tl messages) /\
  total_tokens ctx
    = system_tokens ctx + core_tokens ctx + recall_tokens ctx
      + (if excerpt_included am system_prompt focus_query m
         then Utils.estimate_tokens (excerpt focus_query m) else 0) /\
  available_tokens ctx = max_tokens am - total_tokens ctx /\
  focus_topic ctx = focus_query /\
  context am' = ctx /\ max_tokens am' = max_tokens am.
Proof.
  intros messages ctx am'. subst messages ctx am'.
  destruct (build_context_snapshot am system_prompt focus_query m) as [Hctx Ham].
  cbv zeta in Hctx, Ham. rewrite Ham, Hctx, build_context_messages.
  rewrite archival_step_recall, get_core_memory_recall, archival_step_spec.
  cbn [system_tokens core_tokens recall_tokens total_tokens available_tokens
       focus_topic context max_tokens].
  destruct (excerpt_included am system_prompt focus_query m).
  - destruct (fill_recall_counts
                (after_margin am system_prompt m
                 - Utils.estimate_tokens (excerpt focus_query m)) (recall m))
      as (Htok & _).
    cbv zeta in Htok. cbn [tl]. rewrite <- Htok.
    repeat split; lia.
  - rewrite Z.sub_0_r.
    destruct (fill_recall_counts (after_margin am system_prompt m) (recall m))
      as (Htok & _).
    cbv zeta in Htok. cbn [tl]. rewrite <- Htok.
    repeat split; lia.
Qed.

(** X13. Whenever the system prompt and the core memory leave the safety
    margin (their cost is at most the budget minus 500), the context
    [build_context] assembles leaves it too: the total is at most the budget
    minus 500, so at least 500 tokens stay available. *)
Theorem build_context_keeps_margin (am : AttentionManager) (system_prompt : string)
    (focus_query : option string) (m : MemoryManager) :
  Utils.estimate_tokens system_prompt
    + Utils.estimate_tokens (fst (get_core_memory m)) <= max_tokens am - 500 ->
  let ctx := snd (fst (fst (build_context am system_prompt focus_query m))) in
  total_tokens ctx <= max_tokens am - 500 /\ 500 <= available_tokens ctx.
Proof.
  intros Hroom ctx. subst ctx.
  destruct (build_context_snapshot am system_prompt focus_query m) as [Hctx _].
  cbv zeta in Hctx. rewrite Hctx.
  rewrite archival_step_recall, get_core_memory_recall, archival_step_spec.
  cbn [total_tokens available_tokens].
  assert (Hmargin : 0 <= after_margin am system_prompt m)
    by (unfold after_margin; lia).
  assert (Hsum : after_margin am system_prompt m
                 = max_tokens am
                   - (Utils.estimate_tokens system_prompt
                      + Utils.estimate_tokens (fst (get_core_memory m))) - 500)
    by reflexivity.
  destruct (excerpt_included am system_prompt focus_query m) eqn:Hinc.
  - pose proof (included_cost_below am system_prompt focus_query m Hinc) as Hc.
    assert (Hthird : after_margin am system_prompt m / 3
                     <= after_margin am system_prompt m).
    { apply Z.div_le_upper_bound; lia. }
    destruct (fill_recall_counts
                (after_margin am system_prompt m
                 - Utils.estimate_tokens (excerpt focus_query m)) (recall m))
      as (Htok & Hpos & Hfit & _).
    cbv zeta in Htok, Hpos, Hfit.
    destruct Hfit as [Hnil | Hle]; [| lia].
    rewrite Hnil, tokens_of_nil in Htok. lia.
  - rewrite Z.sub_0_r.
    destruct (fill_recall_counts (after_margin am system_prompt m) (recall m))
      as (Htok & Hpos & Hfit & _).
    cbv zeta in Htok, Hpos, Hfit.
    destruct Hfit as [Hnil | Hle]; [| lia].
    rewrite Hnil, tokens_of_nil in Htok. lia.
Qed.

(** X14. When the system prompt and the core memory alone exceed the budget
    minus 500, [build_context] still returns the system message, whole, and
    nothing else: no archival excerpt, no recall entry; fewer than 500
    tokens are then reported as available. *)
Theorem build_context_over_budget (am : AttentionManager) (system_prompt : string)
    (focus_query : option string) (m : MemoryManager) :
  max_tokens am - 500
    < Utils.estimate_tokens system_prompt
      + Utils.estimate_tokens (fst (get_core_memory m)) ->
  let messages := fst (fst (fst (build_context am system_prompt focus_query m))) in
  let ctx := snd (fst (fst (build_context am system_prompt focus_query m))) in
  messages
    = [mkMessage "system"
         (Some (full_system system_prompt (fst (get_core_memory m))))] /\
  recall_tokens ctx = 0 /\
  available_tokens ctx < 500.
Proof.
  intros Hover messages ctx. subst messages ctx.
  assert (Hneg : after_margin am system_prompt m < 0)
    by (unfold after_margin; lia).
  assert (Hinc : excerpt_included am system_prompt focus_query m = false).
  { destruct (excerpt_included am system_prompt focus_query m) eqn:Hinc;
      [| reflexivity].
    pose proof (included_cost_below am system_prompt focus_query m Hinc) as Hc.
    assert (after_margin am system_prompt m / 3 < 0)
      by (apply Z.div_lt_upper_bound; lia).
    lia. }
  destruct (build_context_snapshot am system_prompt focus_query m) as [Hctx _].
  cbv zeta in Hctx. rewrite Hctx, build_context_messages.
  rewrite archival_step_recall, get_core_memory_recall, archival_step_spec, Hinc.
  rewrite Z.sub_0_r.
  destruct (fill_recall_counts (after_margin am system_prompt m) (recall m))
    as (Htok & _ & _ & Hnone).
  cbv zeta in Htok, Hnone. specialize (Hnone Hneg).
  rewrite Hnone in Htok. rewrite tokens_of_nil in Htok.
  rewrite Hnone, Htok. cbn [recall_tokens available_tokens].
  unfold after_margin in Hneg. repeat split; lia.
Qed.

(** *** Outputs up to access counters *)

(** Two entries, and two stores, that differ in access counters only. *)
Definition entry_same (kb kb' : string * MemoryBlock) : Prop :=
  fst kb' = fst kb /\ same_but_counter (snd kb) (snd kb').

Definition store_same (m m' : MemoryManager) : Prop :=
  recall m' = recall m /\
  Forall2 entry_same (core m) (core m') /\
  Forall2 entry_same (archival_index m) (archival_index m').

Definition scored_same (r r' : Z * MemoryBlock) : Prop :=
  fst r' = fst r /\ same_but_counter (snd r) (snd r').

Lemma core_text_same (m m' : MemoryManager) :
  Forall2 entry_same (core m) (core m') ->
  fst (get_core_memory m') = fst (get_core_memory m).
Proof.
  unfold get_core_memory. cbn [fst]. intros H. f_equal.
  induction H as [| [k b] [k' b'] c c' [Hk Hb] _ IH]; [reflexivity |].
  cbn [map fst snd] in *. destruct Hb as (_ & Hc & _). now rewrite IH, Hk, Hc.
Qed.

Lemma matches_same (filter_tags : option (list string)) (words : list string)
    (b b' : MemoryBlock) :
  same_but_counter b b' -> matches filter_tags words b' = matches filter_tags words b.
Proof.
  intros (_ & Hc & _ & _ & _ & _ & Ht). unfold matches, tag_skip, score.
  now rewrite Hc, Ht.
Qed.

Lemma scored_matches_same (filter_tags : option (list string)) (words : list string)
    (index index' : dict MemoryBlock) :
  Forall2 entry_same index index' ->
  Forall2 scored_same
    (map (fun b => (score words b, bump_access b))
         (filter (matches filter_tags words) (values index)))
    (map (fun b => (score words b, bump_access b))
         (filter (matches filter_tags words) (values index'))).
Proof.
  intros H. induction H as [| [k b] [k' b'] c c' [Hk Hb] _ IH]; [constructor |].
  unfold values in *. cbn [map filter snd] in *.
  rewrite (matches_same filter_tags words b b' Hb).
  destruct (matches filter_tags words b); [| exact IH].
  cbn [map]. constructor; [| exact IH].
  destruct Hb as (H1 & H2 & H3 & H4 & H5 & H6 & H7).
  split; cbn [fst snd]; [unfold score; now rewrite H2 | repeat split; assumption].
Qed.

Lemma key_lt_same (x x' y y' : Z * MemoryBlock) :
  scored_same x x' -> scored_same y y' -> key_lt x' y' = key_lt x y.
Proof.
  intros [Hx (_ & _ & _ & _ & _ & Ix & _)] [Hy (_ & _ & _ & _ & _ & Iy & _)].
  unfold key_lt. now rewrite Hx, Hy, Ix, Iy.
Qed.

Lemma insert_desc_same (x x' : Z * MemoryBlock) (l l' : list (Z * MemoryBlock)) :
  scored_same x x' -> Forall2 scored_same l l' ->
  Forall2 scored_same (insert_desc x l) (insert_desc x' l').
Proof.
  intros Hx H. induction H as [| y y' l l' Hy Hl IH]; cbn [insert_desc].
  - constructor; [exact Hx | constructor].
  - rewrite (key_lt_same x x' y y' Hx Hy).
    destruct (key_lt x y); constructor; try assumption.
    constructor; assumption.
Qed.

Lemma sort_desc_same (l l' : list (Z * MemoryBlock)) :
  Forall2 scored_same l l' -> Forall2 scored_same (sort_desc l) (sort_desc l').
Proof.
  intros H. induction H as [| x x' l l' Hx Hl IH]; [constructor |].
  cbn [sort_desc fold_right]. now apply insert_desc_same.
Qed.

Lemma Forall2_firstn_same {A : Type} (R : A -> A -> Prop) (n : nat) (l l' : list A) :
  Forall2 R l l' -> Forall2 R (firstn n l) (firstn n l').
Proof.
  intros H. revert n. induction H as [| x x' l l' Hx Hl IH]; intros [| n];
    cbn [firstn]; constructor; auto.
Qed.

Lemma Forall2_same_length {A : Type} (R : A -> A -> Prop) (l l' : list A) :
  Forall2 R l l' -> List.length l' = List.length l.
Proof.
  intros H. induction H; cbn [List.length]; congruence.
Qed.

Lemma slice_to_same (limit : Z) (l l' : list (Z * MemoryBlock)) :
  Forall2 scored_same l l' ->
  Forall2 scored_same (slice_to limit l) (slice_to limit l').
Proof.
  intros H. unfold slice_to. rewrite (Forall2_same_length _ _ _ H).
  now apply Forall2_firstn_same.
Qed.

Lemma archival_content_same (l l' : list (Z * MemoryBlock)) :
  Forall2 scored_same l l' ->
  archival_content (map snd l') = archival_content (map snd l) /\
  List.length (map snd l') = List.length (map snd l).
Proof.
  intros H. split.
  - unfold archival_content. do 4 f_equal.
    induction H as [| x x' l l' [_ Hx] _ IH]; [reflexivity |].
    cbn [map]. destruct Hx as (_ & Hc & _). now rewrite IH, Hc.
  - rewrite !length_map. now apply Forall2_same_length with (R := scored_same).
Qed.

Lemma focus_results_same (focus_query : option string) (m m' : MemoryManager) :
  Forall2 entry_same (archival_index m) (archival_index m') ->
  excerpt focus_query m' = excerpt focus_query m /\
  List.length (focus_results focus_query m')
    = List.length (focus_results focus_query m).
Proof.
  intros H. unfold excerpt, focus_results.
  destruct focus_query as [q |]; [| split; reflexivity].
  rewrite !search_archival_spec. cbn [fst].
  replace (archival_index (snd (get_core_memory m'))) with (archival_index m')
    by reflexivity.
  replace (archival_index (snd (get_core_memory m))) with (archival_index m)
    by reflexivity.
  apply archival_content_same, slice_to_same, sort_desc_same.
  now apply scored_matches_same.
Qed.

(** The messages and the snapshot depend on the store only up to access
    counters, and on the manager only through its budget. *)
Lemma build_context_same (am am' : AttentionManager) (system_prompt : string)
    (focus_query : option string) (m m' : MemoryManager) :
  store_same m m' -> max_tokens am' = max_tokens am ->
  fst (fst (build_context am' system_prompt focus_query m'))
  = fst (fst (build_context am system_prompt focus_query m)).
Proof.
  intros (Hrecall & Hcore & Harch) Hmax.
  pose proof (core_text_same m m' Hcore) as Htext.
  destruct (focus_results_same focus_query m m' Harch) as [Hex Hlen].
  assert (Hmargin : after_margin am' system_prompt m' = after_margin am system_prompt m).
  { unfold after_margin. now rewrite Hmax, Htext. }
  assert (Hinc : excerpt_included am' system_prompt focus_query m'
                 = excerpt_included am system_prompt focus_query m).
  { unfold excerpt_included. now rewrite Hmargin, Hex, Hlen. }
  rewrite (surjective_pairing (fst (fst (build_context am' system_prompt focus_query m')))).
  rewrite (surjective_pairing (fst (fst (build_context am system_prompt focus_query m)))).
  f_equal.
  - rewrite !build_context_messages.
    rewrite !archival_step_recall, !get_core_memory_recall, !archival_step_spec.
    now rewrite Hinc, Hex, Hmargin, Htext, Hrecall.
  - destruct (build_context_snapshot am system_prompt focus_query m) as [-> _].
    destruct (build_context_snapshot am' system_prompt focus_query m') as [-> _].
    rewrite !archival_step_recall, !get_core_memory_recall, !archival_step_spec.
    now rewrite Hinc, Hex, Hmargin, Htext, Hrecall, Hmax.
Qed.

Lemma Forall2_entry_same_map (f : string * MemoryBlock -> string * MemoryBlock)
    (d : dict MemoryBlock) :
  (forall kb, entry_same kb (f kb)) -> Forall2 entry_same d (map f d).
Proof. intros Hf. now apply Forall2_map_same. Qed.

(** The store [build_context] leaves differs from the one it found in
    access counters only. *)
Lemma build_context_store_same (am : AttentionManager) (system_prompt : string)
    (focus_query : option string) (m : MemoryManager) :
  store_same m (snd (build_context am system_prompt focus_query m)).
Proof.
  rewrite build_context_store, archival_step_store.
  assert (Hcore : Forall2 entry_same (core m) (map bump_entry (core m))).
  { apply Forall2_entry_same_map. intros [k b]. split; [reflexivity |].
    apply same_but_counter_bump. }
  assert (Hid : Forall2 entry_same (archival_index m) (archival_index m)).
  { rewrite <- (map_id (archival_index m)) at 2.
    apply Forall2_entry_same_map. intros [k b]. split; [reflexivity |].
    apply same_but_counter_refl. }
  assert (Htouch : forall words,
            Forall2 entry_same (archival_index m)
                    (map (touch words) (archival_index m))).
  { intros words. apply Forall2_entry_same_map. intros [k b].
    unfold touch, entry_same. cbn [fst snd].
    destruct (0 <? score words b); cbn [fst snd]; split; try reflexivity.
    - apply same_but_counter_bump.
    - apply same_but_counter_refl. }
  destruct focus_query as [q |]; [destruct (truthy (Some q)) |];
    unfold store_same;
    cbn [recall core archival_index with_archival get_core_memory snd with_core];
    repeat split; auto.
Qed.

(** X15. Building the context again, on the store and the manager the
    first call left and with the same prompt and focus query, returns the
    same messages and the same snapshot: the access counters the first call
    incremented do not show in its outputs. *)
Theorem build_context_idempotent (am : AttentionManager) (system_prompt : string)
    (focus_query : option string) (m : MemoryManager) :
  let first := build_context am system_prompt focus_query m in
  fst (fst (build_context (snd (fst first)) system_prompt focus_query (snd first)))
  = fst (fst first).
Proof.
  intros first. subst first. apply build_context_same.
  - apply build_context_store_same.
  - now destruct (build_context_snapshot am system_prompt focus_query m) as [_ ->].
Qed.

End BudgetFacts.

(* ================================================================== *)
(** * Further properties of the skill registry and the scheduler *)
(* ================================================================== *)

Module DispatchFacts.

Import Py PyFacts Config MemorySystem Attention Skills Heartbeat.
Import MemoryFacts AttentionFacts StoreFacts HeartbeatFacts.

Section WithWorld.

Variable W : Type.
Variable time_time : W -> Q.

Lemma get_setitem_same {V : Type} (k : string) (v : V) (d : dict V) :
  Py.get k (setitem k v d) = Some v.
Proof.
  unfold setitem. destruct (has_key k d) eqn:Hk.
  - rewrite get_modify_same. apply has_key_in in Hk.
    destruct (get_in_keys k d Hk) as [v0 Hv0]. now rewrite Hv0.
  - apply get_app_new. now apply has_key_false.
Qed.

Lemma get_setitem_other {V : Type} (k k0 : string) (v : V) (d : dict V) :
  k0 <> k -> Py.get k0 (setitem k v d) = Py.get k0 d.
Proof.
  intros Hne. unfold setitem. destruct (has_key k d).
  - now apply get_modify_other.
  - now apply get_app_other.
Qed.

(** X16. After [register(skill)] the registry dispatches the skill's name
    to that skill, replacing an earlier skill of the same name: [get]
    returns it, and every other name is dispatched as before. For
    [execute] on the skill's name: when no argument is called [name] or
    [self], it gives exactly what running the handler gives (with the
    elapsed time filled in, or the failure result when the handler
    raises); when one is, the call raises [TypeError] while binding its
    arguments, and the handler is not run. *)
Theorem register_then_execute (reg : SkillRegistry W) (skill : Skill W)
    (args : kwargs) (w : W) :
  get (name skill) (register skill reg) = Some skill /\
  (forall nm, nm <> name skill ->
     get nm (register skill reg) = get nm reg /\
     registry_execute time_time (register skill reg) nm args w
       = registry_execute time_time reg nm args w) /\
  registry_execute time_time (register skill reg) (name skill) args w
    = match colliding_key args with
      | Some k => (Raised (multiple_values k), w)
      | None =>
          match execute skill args w with
          | (Returned r, w') =>
              (Returned (set_execution_time (time_time w' - time_time w)%Q r), w')
          | (Raised e, w') =>
              (Returned (mkSkillResult false None (Some (exc_msg e))
                                       (time_time w' - time_time w)%Q), w')
          end
      end.
Proof.
  unfold register, get.
  split; [apply get_setitem_same |]. split.
  - intros nm Hne. unfold registry_execute, execute_body, get.
    rewrite (get_setitem_other (name skill) nm skill reg Hne). split; reflexivity.
  - unfold registry_execute, execute_body, get. rewrite get_setitem_same.
    destruct (colliding_key args) as [k |]; [reflexivity |].
    unfold bind, try_except, read_world, ret.
    destruct (execute skill args w) as [[r | e] w']; reflexivity.
Qed.

(** X17. [unregister(name)] returns [True] exactly when the name is
    registered. Afterwards [get(name)] is [None], and every other name is
    dispatched as before. [execute(name)] then touches nothing: it returns
    the failing "not found" result when no argument is called [name] or
    [self], and raises [TypeError] while binding its arguments when one
    is. *)
Theorem unregister_then_execute (reg : SkillRegistry W) (nm : string)
    (args : kwargs) (w : W) :
  let reg' := snd (unregister nm reg) in
  fst (unregister nm reg) = has_key nm reg /\
  get nm reg' = None /\
  registry_execute time_time reg' nm args w
    = (match colliding_key args with
       | Some k => Raised (multiple_values k)
       | None =>
           Returned (mkSkillResult false None
                       (Some ("Skill '" ++ nm ++ "' not found")%string) 0%Q)
       end, w) /\
  (forall k, k <> nm ->
     get k reg' = get k reg /\
     registry_execute time_time reg' k args w
       = registry_execute time_time reg k args w).
Proof.
  intros reg'. subst reg'. unfold unregister, get.
  destruct (has_key nm reg) eqn:Hk; cbn [fst snd].
  - split; [reflexivity |].
    split; [apply get_delitem_same |]. split.
    + unfold registry_execute, execute_body, get. rewrite get_delitem_same.
      now destruct (colliding_key args).
    + intros k Hne. unfold registry_execute, execute_body, get.
      rewrite (get_delitem_other nm k reg Hne). split; reflexivity.
  - assert (Hnone : Py.get nm reg = None).
    { destruct (Py.get nm reg) as [s |] eqn:Hg; [| reflexivity].
      apply has_key_false in Hk. exfalso. apply Hk.
      apply get_some_in in Hg. unfold keys. apply in_map_iff. now exists (nm, s). }
    split; [reflexivity |]. split; [exact Hnone |]. split.
    + unfold registry_execute, execute_body, get. rewrite Hnone.
      now destruct (colliding_key args).
    + intros k _. split; reflexivity.
Qed.

End WithWorld.

(** *** Cycles *)

Section WithEnvironment.

Variable env : Environment.

(** The user entries a cycle adds to the recall buffer. *)
Definition user_entries (inputs : list string) : list Message :=
  map (fun s => mkMessage "user" (Some s)) inputs.

Lemma fold_user_entries (inputs : list string) (m : MemoryManager) :
  fold_left (fun m msg => add_to_recall (mkMessage "user" (Some msg)) m) inputs m
  = run_appends (user_entries inputs) m.
Proof.
  revert m. induction inputs as [| s inputs IH]; intros m; [reflexivity |].
  cbn [fold_left user_entries map run_appends]. apply IH.
Qed.

Lemma build_context_recall (am : AttentionManager) (system_prompt : string)
    (focus_query : option string) (m : MemoryManager) :
  recall (snd (build_context am system_prompt focus_query m)) = recall m.
Proof.
  now rewrite build_context_store, archival_step_recall, get_core_memory_recall.
Qed.

(** The recall buffer after the first part of a cycle. *)
Lemma gather_recall (h : HeartbeatProtocol) :
  recall (memory (snd (gather env h)))
  = recall (run_appends (user_entries (user_input_queue h)) (memory h)).
Proof.
  unfold gather. cbv zeta.
  match goal with
  | |- context [build_context ?a ?b ?c ?d] =>
      pose proof (build_context_recall a b c d) as Hr;
      destruct (build_context a b c d) as [[[messages ctx] att] mem]
  end.
  cbn [snd memory with_memory] in *. rewrite Hr.
  cbn [memory with_memory with_input_queue with_last_heartbeat with_state
       with_beat_count user_input_queue].
  now rewrite fold_user_entries.
Qed.

(** On a scheduler as embedded here (a store of strings), the steps of a
    cycle outside its [try] do not raise, and the [try] catches what the
    model call and the processing of the response raise. *)
Lemma execute_heartbeat_returns (llm : LLM) (triggered : bool)
    (h : HeartbeatProtocol) :
  fst (_execute_heartbeat env llm triggered h) = Returned tt.
Proof.
  unfold _execute_heartbeat.
  destruct (gather env h) as [[user_messages messages] h1].
  destruct (closing_message env user_messages h1) as [closing |]; [| reflexivity].
  cbv [bind think try_except _call_llm_chat modify_world]. cbv beta iota.
  destruct (chat llm _) as [response | e]; [| reflexivity].
  destruct (_process_response env response (messages ++ [closing])
              (with_state THINKING h1)) as [[u | e] h2]; reflexivity.
Qed.

Lemma loop_body_runs_cycle (llm : LLM) (h : HeartbeatProtocol) :
  exists h',
    loop_body env llm h = (if stop_event h then Break else Continue, h') /\
    (stop_event h = false ->
     h' = snd (_execute_heartbeat env llm
                 (fst (event_wait (heartbeat_requested h) (interval h)))
                 (with_heartbeat_requested false h))).
Proof.
  unfold loop_body.
  destruct (event_wait (heartbeat_requested h) (interval h)) as [trig waited].
  cbn [fst].
  replace (stop_event (with_heartbeat_requested false h)) with (stop_event h)
    by reflexivity.
  destruct (stop_event h).
  - eexists. split; [reflexivity | discriminate].
  - pose proof (execute_heartbeat_returns llm trig (with_heartbeat_requested false h))
      as Hr.
    destruct (_execute_heartbeat env llm trig (with_heartbeat_requested false h))
      as [[u | e] h'].
    + eexists. split; [reflexivity | reflexivity].
    + cbn [fst] in Hr. discriminate.
Qed.



(** X19. A cycle whose backend answers with text and no tool calls: the
    queued inputs are all consumed, in order, into the recall buffer as
    [user] entries, followed by one [assistant] entry with the text; the
    text is put on the output channel as [("message", text)] when it is not
    empty, and nothing else is; one event is recorded with the new beat
    number, the state [THINKING] and the number of inputs; the cycle ends
    [IDLE] with no missed beat, and the wake and stop flags are as found. *)
Theorem text_response_cycle (llm : LLM) (triggered : bool) (h : HeartbeatProtocol)
    (req : ChatRequest) (response : ChatResponse) (msg : ResponseMessage) :
  cycle_request env llm h = Some req ->
  chat llm req = Returned response ->
  message response = Some msg ->
  nonempty (tool_calls msg) = false ->
  let h' := snd (_execute_heartbeat env llm triggered h) in
  let text := match rm_content msg with Some c => c | None => ""%string end in
  user_input_queue h' = [] /\
  recall (memory h')
    = recall (run_appends
                (user_entries (user_input_queue h)
                 ++ [mkMessage "assistant" (Some text)]) (memory h)) /\
  output_queue h'
    = output_queue h
      ++ (if truthy (rm_content msg) then [("message"%string, JString text)] else []) /\
  (exists event,
     heartbeat_history h' = deque_append 100 event (heartbeat_history h) /\
     beat_id event = beat_count h + 1 /\ event_state event = THINKING /\
     pending_tasks event = llen (user_input_queue h)) /\
  state h' = IDLE /\ missed_beats h' = 0 /\ beat_count h' = beat_count h + 1 /\
  heartbeat_requested h' = heartbeat_requested h /\
  stop_event h' = stop_event h.
Proof.
  unfold cycle_request, _execute_heartbeat.
  pose proof (gather_frame env h) as Hg. pose proof (gather_recall h) as Hrec.
  cbv zeta in Hg.
  destruct (gather env h) as [[user_messages messages] h1].
  cbn [fst snd] in Hg, Hrec.
  destruct Hg as (Hum & Hout & Hstop & Hreq & _ & _ & _ & Hhist & _ & Hbeat & Hq).
  destruct (closing_message env user_messages h1) as [closing |]; [| discriminate].
  intros [= <-] Hchat Hmsg Htools.
  cbv [bind think try_except _call_llm_chat modify_world]. cbv beta iota.
  replace (model_name (with_state THINKING h1)) with (model_name h1) by reflexivity.
  replace (is_local (with_state THINKING h1)) with (is_local h1) by reflexivity.
  rewrite Hchat. cbv beta iota. unfold _process_response. rewrite Hmsg, Htools.
  cbv [bind modify_world ret]. cbv beta iota. cbn [negb andb].
  rewrite andb_true_r.
  assert (Hrun : forall q a m,
            recall (add_to_recall a (run_appends q m))
            = recall (run_appends (q ++ [a]) m)).
  { intros q a m. unfold run_appends. now rewrite fold_left_app. }
  destruct (truthy (rm_content msg)); cbv beta iota; cbn [fst snd];
    unfold record_event, output_put;
    cbn [user_input_queue memory output_queue heartbeat_history state missed_beats
         beat_count heartbeat_requested stop_event with_state with_missed_beats
         with_history with_output_queue with_memory];
    (split; [exact Hq |]);
    (split; [rewrite <- Hrun; unfold add_to_recall; cbn [recall with_recall];
             now rewrite Hrec |]);
    (split; [rewrite Hout; try rewrite app_nil_r; reflexivity |]);
    (split; [eexists; split; [rewrite Hhist; reflexivity |];
             cbn [beat_id event_state pending_tasks];
             split; [exact Hbeat | split; [reflexivity | now rewrite Hum]] |]);
    (split; [reflexivity |]); (split; [reflexivity |]);
    (split; [exact Hbeat |]); (split; [exact Hreq | exact Hstop]).
Qed.

(** X20. A cycle whose backend call raises has nevertheless consumed the
    queued inputs: the queue is empty afterwards and the inputs are in the
    recall buffer as [user] entries, with no [assistant] entry after them;
    they are not put back for a later cycle. The event of the cycle is
    recorded with the state [THINKING]. *)
Theorem failed_cycle_consumes_inputs (llm : LLM) (triggered : bool)
    (h : HeartbeatProtocol) (req : ChatRequest) (e : Exc) :
  cycle_request env llm h = Some req -> chat llm req = Raised e ->
  let h' := snd (_execute_heartbeat env llm triggered h) in
  user_input_queue h' = [] /\
  recall (memory h')
    = recall (run_appends (user_entries (user_input_queue h)) (memory h)) /\
  exists event,
    heartbeat_history h' = deque_append 100 event (heartbeat_history h) /\
    beat_id event = beat_count h + 1 /\ event_state event = THINKING /\
    pending_tasks event = llen (user_input_queue h).
Proof.
  unfold cycle_request, _execute_heartbeat.
  pose proof (gather_frame env h) as Hg. pose proof (gather_recall h) as Hrec.
  cbv zeta in Hg.
  destruct (gather env h) as [[user_messages messages] h1].
  cbn [fst snd] in Hg, Hrec.
  destruct Hg as (Hum & _ & _ & _ & _ & _ & _ & Hhist & _ & Hbeat & Hq).
  destruct (closing_message env user_messages h1) as [closing |]; [| discriminate].
  intros [= <-] Hraise.
  cbv [bind think try_except _call_llm_chat modify_world]. cbv beta iota.
  replace (model_name (with_state THINKING h1)) with (model_name h1) by reflexivity.
  replace (is_local (with_state THINKING h1)) with (is_local h1) by reflexivity.
  rewrite Hraise. cbv beta iota. cbn [fst snd].
  unfold record_event, output_put.
  cbn [user_input_queue memory heartbeat_history state beat_count with_state
       with_missed_beats with_history with_output_queue].
  rewrite Hq, Hrec, Hhist, Hbeat, <- Hum.
  split; [reflexivity |]. split; [reflexivity |].
  eexists. split; [reflexivity | repeat split].
Qed.

(** Other threads' actions do not clear the stop flag or count beats. *)
Lemma actions_keep_stop (actions : list Action) (h : HeartbeatProtocol) :
  (stop_event h = true \/ In Stop actions ->
   stop_event (fold_left (fun h a => act a h) actions h) = true) /\
  beat_count (fold_left (fun h a => act a h) actions h) = beat_count h.
Proof.
  revert h. induction actions as [| a actions IH]; intros h.
  - cbn [fold_left]. split; [intros [H | []]; exact H | reflexivity].
  - cbn [fold_left]. destruct (IH (act a h)) as [Hs Hb]. split.
    + intros Hor. apply Hs. destruct Hor as [Hset | [-> | Hin]].
      * left. destruct a; cbn [act]; first [exact Hset | reflexivity].
      * left. reflexivity.
      * now right.
    + rewrite Hb. now destruct a.
Qed.

(** X21. Once [stop()] has been called, the worker leaves the loop the next
    time its wait returns, without running a cycle: no beat is counted and
    whatever input was queued by then, before or after the stop, stays in
    the queue unprocessed. *)
Theorem stop_ends_loop_without_cycle (llm : LLM) (actions : list Action)
    (rest : list (list Action * LLM)) (h : HeartbeatProtocol) :
  stop_event h = false -> In Stop actions ->
  let h1 := fold_left (fun h a => act a h) actions h in
  _heartbeat_loop env ((actions, llm) :: rest) h
    = (true, with_heartbeat_requested false h1) /\
  beat_count (with_heartbeat_requested false h1) = beat_count h /\
  user_input_queue (with_heartbeat_requested false h1) = user_input_queue h1 /\
  memory (with_heartbeat_requested false h1) = memory h1.
Proof.
  intros Hclear Hin h1.
  destruct (actions_keep_stop actions h) as [Hs Hb].
  specialize (Hs (or_intror Hin)). fold h1 in Hs, Hb.
  cbn [_heartbeat_loop]. rewrite Hclear. fold h1. unfold loop_body.
  destruct (event_wait (heartbeat_requested h1) (interval h1)) as [trig waited].
  replace (stop_event (with_heartbeat_requested false h1)) with (stop_event h1)
    by reflexivity.
  rewrite Hs. repeat split. exact Hb.
Qed.

End WithEnvironment.

End DispatchFacts.

(* ================================================================== *)
(** * The message normalisation of the local backend *)
(* ================================================================== *)

Module NormalizeFacts.

Import LocalModelWrapper.

(** No two neighbours have the same role. *)
Fixpoint alternating (turns : list Turn) : Prop :=
  match turns with
  | [] => True
  | a :: rest =>
      match rest with
      | [] => True
      | b :: _ => fst a <> fst b /\ alternating rest
      end
  end.

(** The roles are [expected], then the other of user and assistant, and so
    on in turn. *)
Definition other (role : string) : string :=
  if String.eqb role "user" then "assistant" else "user".

Fixpoint takes_turns (expected : string) (turns : list Turn) : Prop :=
  match turns with
  | [] => True
  | t :: rest => fst t = expected /\ takes_turns (other expected) rest
  end.

Lemma push_cons (t : Turn) (rest : list Turn) (role content : string) :
  exists t', exists rest',
    push (t :: rest) role content = t' :: rest' /\ fst t' = fst t.
Proof.
  destruct t as [r c]. destruct rest as [| u rest]; cbn [push].
  - destruct (String.eqb r role); eexists; eexists; split; reflexivity.
  - eexists; eexists; split; reflexivity.
Qed.

Lemma push_roles (turns : list Turn) (role content : string) (t : Turn) :
  In t (push turns role content) ->
  fst t = role \/ exists t0, In t0 turns /\ fst t = fst t0.
Proof.
  induction turns as [| [r c] rest IH]; cbn [push].
  - intros [<- | []]. now left.
  - destruct rest as [| u rest].
    + destruct (String.eqb r role).
      * intros [<- | []]. right. exists (r, c). split; [now left | reflexivity].
      * intros [<- | [<- | []]]; [right | now left].
        exists (r, c). split; [now left | reflexivity].
    + intros [<- | Hin].
      * right. exists (r, c). split; [now left | reflexivity].
      * destruct (IH Hin) as [Hr | (t0 & Ht0 & Hr)]; [now left |].
        right. exists t0. split; [now right | exact Hr].
Qed.

Lemma push_step (a b : Turn) (rest : list Turn) (role content : string) :
  push (a :: b :: rest) role content = a :: push (b :: rest) role content.
Proof. destruct a as [r c]. reflexivity. Qed.

Lemma push_alternating (turns : list Turn) (role content : string) :
  alternating turns -> alternating (push turns role content).
Proof.
  induction turns as [| [r c] rest IH]; intros Halt; [exact I |].
  destruct rest as [| [r2 c2] rest].
  - cbn [push]. destruct (String.eqb_spec r role) as [-> | Hne]; [exact I |].
    cbn [alternating fst]. split; [exact Hne | exact I].
  - destruct Halt as [Hne Hrest].
    specialize (IH Hrest).
    destruct (push_cons (r2, c2) rest role content) as (t' & rest' & Heq & Hfst).
    rewrite push_step. rewrite Heq in IH. rewrite Heq.
    cbn [fst] in Hne, Hfst.
    change (fst (r, c) <> fst t' /\ alternating (t' :: rest')).
    cbn [fst]. rewrite Hfst. split; assumption.
Qed.

Lemma fold_push_spec (rest : list Turn) (final : list Turn) (first : Turn)
    (tail : list Turn) :
  final = first :: tail -> alternating final ->
  let out := fold_left (fun final m => push final (fst m) (snd m)) rest final in
  alternating out /\
  (exists first' tail', out = first' :: tail' /\ fst first' = fst first) /\
  (forall t, In t out -> exists t0, In t0 (final ++ rest) /\ fst t = fst t0).
Proof.
  revert final first tail. induction rest as [| m rest IH]; intros final first tail Hf Halt.
  - cbn [fold_left]. split; [exact Halt |]. split.
    + exists first, tail. split; [exact Hf | reflexivity].
    + intros t Hin. exists t. rewrite app_nil_r. split; [exact Hin | reflexivity].
  - cbn [fold_left]. subst final.
    destruct (push_cons first tail (fst m) (snd m)) as (t' & rest' & Heq & Hfst).
    destruct (IH (push (first :: tail) (fst m) (snd m)) t' rest' Heq
                 (push_alternating _ _ _ Halt)) as (Ha & Hh & Hr).
    split; [exact Ha |]. split.
    + destruct Hh as (f' & tl' & Hout & Hf'). exists f', tl'.
      split; [exact Hout | congruence].
    + intros t Hin. destruct (Hr t Hin) as (t0 & Hin0 & Hfst0).
      apply in_app_or in Hin0. destruct Hin0 as [Hp | Hrest].
      * destruct (push_roles _ _ _ _ Hp) as [Hrole | (t1 & Ht1 & Hfst1)].
        -- exists m. split; [apply in_or_app; right; now left | congruence].
        -- exists t1. split; [apply in_or_app; now left | congruence].
      * exists t0. split; [apply in_or_app; right; now right | exact Hfst0].
Qed.

Lemma alternate_spec (turns : list Turn) (first : Turn) (rest : list Turn) :
  turns = first :: rest ->
  alternating (alternate turns) /\
  (exists first' tail',
     alternate turns = first' :: tail' /\ fst first' = fst first) /\
  (forall t, In t (alternate turns) ->
     exists t0, In t0 turns /\ fst t = fst t0).
Proof. intros ->. exact (fold_push_spec rest [first] first [] eq_refl I). Qed.

(** The roles of the first loop's output come from the input, with [tool]
    read as [user]; [system] never gets there. *)
Definition input_role (msg : ChatMessage) : string :=
  match cm_role msg with Some r => r | None => "user"%string end.

Definition output_role (role : string) : string :=
  if String.eqb role "tool" then "user"%string else role.

Lemma merge_loop_roles (messages : list ChatMessage) (merged : list Turn)
    (system_buf : list string) (t : Turn) :
  In t (fst (merge_loop messages merged system_buf)) ->
  In t merged \/
  (exists t0, In t0 merged /\ fst t = fst t0) \/
  exists msg, In msg messages /\ input_role msg <> "system"%string
              /\ fst t = output_role (input_role msg).
Proof.
  revert merged system_buf.
  induction messages as [| msg rest IH]; intros merged system_buf; cbn [merge_loop].
  - cbn [fst]. intros Hin. now left.
  - fold (input_role msg).
    destruct (String.eqb_spec (input_role msg) "system") as [Hsys | Hnot].
    + intros Hin. destruct (IH _ _ Hin) as [H | [H | (m0 & Hm0 & Hr)]];
        [now left | right; now left |].
      right. right. exists m0. split; [now right | exact Hr].
    + fold (output_role (input_role msg)).
      assert (Hstep : forall content buf,
        In t (fst (merge_loop rest
                     (push merged (output_role (input_role msg)) content) buf)) ->
        In t merged \/
        (exists t0, In t0 merged /\ fst t = fst t0) \/
        exists m0, In m0 (msg :: rest) /\ input_role m0 <> "system"%string
                   /\ fst t = output_role (input_role m0)).
      { intros content buf Hin.
        destruct (IH _ _ Hin) as [H | [(t0 & Ht0 & Hr) | (m0 & Hm0 & Hr)]].
        - destruct (push_roles _ _ _ _ H) as [Hrole | (t1 & Ht1 & Hr1)].
          + right. right. exists msg. split; [now left | split; assumption].
          + right. left. exists t1. split; assumption.
        - destruct (push_roles _ _ _ _ Ht0) as [Hrole | (t1 & Ht1 & Hr1)].
          + right. right. exists msg. split; [now left |]. split; [exact Hnot | congruence].
          + right. left. exists t1. split; [exact Ht1 | congruence].
        - right. right. exists m0. split; [now right | exact Hr]. }
      destruct system_buf as [| s buf]; [apply Hstep |].
      destruct (String.eqb (output_role (input_role msg)) "user"); apply Hstep.
Qed.

Lemma output_role_not_system (role : string) :
  role <> "system"%string -> output_role role <> "system"%string.
Proof.
  intros Hne. unfold output_role.
  destruct (String.eqb_spec role "tool") as [-> | _]; [discriminate | exact Hne].
Qed.

Lemma output_role_not_tool (role : string) : output_role role <> "tool"%string.
Proof.
  unfold output_role.
  destruct (String.eqb_spec role "tool") as [-> | Hne]; [discriminate | exact Hne].
Qed.

(** What the list handed to the second loop is made of. *)
Lemma prepared_roles (messages : list ChatMessage) (t : Turn) :
  In t (start_with_user
          (flush (fst (merge_loop messages [] [])) (snd (merge_loop messages [] [])))) ->
  fst t = "user"%string \/
  exists msg, In msg messages /\ input_role msg <> "system"%string
              /\ fst t = output_role (input_role msg).
Proof.
  set (merged := fst (merge_loop messages [] [])).
  set (buf := snd (merge_loop messages [] [])).
  assert (Hmerged : forall t0, In t0 merged ->
            exists msg, In msg messages /\ input_role msg <> "system"%string
                        /\ fst t0 = output_role (input_role msg)).
  { intros t0 Hin. subst merged.
    destruct (merge_loop_roles messages [] [] t0 Hin) as [[] | [(t1 & [] & _) | H]].
    exact H. }
  assert (Hflush : forall t0, In t0 (flush merged buf) ->
            fst t0 = "user"%string \/
            exists msg, In msg messages /\ input_role msg <> "system"%string
                        /\ fst t0 = output_role (input_role msg)).
  { intros t0 Hin. unfold flush in Hin. destruct buf as [| s buf'].
    - right. now apply Hmerged.
    - destruct (push_roles _ _ _ _ Hin) as [Hr | (t1 & Ht1 & Hr)]; [now left |].
      right. destruct (Hmerged t1 Ht1) as (msg & Hm & Hn & Hr1).
      exists msg. split; [exact Hm | split; [exact Hn | congruence]]. }
  unfold start_with_user. destruct (flush merged buf) as [| [r c] rest] eqn:Hfl.
  - intros [<- | []]. now left.
  - destruct (String.eqb r "user").
    + intros Hin. apply Hflush. exact Hin.
    + intros [<- | Hin]; [now left | apply Hflush; exact Hin].
Qed.

Lemma start_with_user_head (merged : list Turn) :
  exists c rest, start_with_user merged = ("user"%string, c) :: rest.
Proof.
  unfold start_with_user. destruct merged as [| [r c] rest].
  - eexists; eexists; reflexivity.
  - destruct (String.eqb_spec r "user") as [-> | _]; eexists; eexists; reflexivity.
Qed.

(** The shape of the normalised list. *)
Lemma normalize_shape (messages : list ChatMessage) :
  (exists c rest, normalize messages = ("user"%string, c) :: rest) /\
  alternating (normalize messages) /\
  (forall t, In t (normalize messages) ->
     fst t <> "system"%string /\ fst t <> "tool"%string /\
     (fst t = "user"%string \/
      exists msg, In msg messages /\ fst t = output_role (input_role msg))).
Proof.
  unfold normalize.
  pose proof (prepared_roles messages) as Hroles.
  destruct (merge_loop messages [] []) as [merged buf]. cbn [fst snd] in Hroles.
  destruct (start_with_user_head (flush merged buf)) as (c0 & rest0 & Hstart).
  destruct (alternate_spec _ _ _ Hstart) as (Halt & (f & tl & Hout & Hfst) & Hr).
  rewrite Hout in Halt, Hr. rewrite Hout.
  split; [| split].
  - destruct f as [r c]. cbn [fst] in Hfst. subst r. now exists c, tl.
  - exact Halt.
  - intros t Hin. destruct (Hr t Hin) as (t0 & Hin0 & Hfst0).
    destruct (Hroles t0 Hin0) as [Hu | (msg & Hm & Hn & Hrole)].
    + rewrite Hfst0, Hu. split; [discriminate |]. split; [discriminate | now left].
    + rewrite Hfst0, Hrole.
      split; [now apply output_role_not_system |].
      split; [apply output_role_not_tool |]. right. now exists msg.
Qed.

(** X22. Whatever messages [chat] is given (none at all included), the
    list it hands to the chat template is not empty, starts with a [user]
    turn, never has two neighbouring turns of the same role, and has no
    [system] and no [tool] turn; every role in it is [user] or the role of
    some input message. *)
Theorem normalize_well_formed (messages : list ChatMessage) :
  (normalize messages <> [])%type /\
  (exists c rest, normalize messages = ("user"%string, c) :: rest) /\
  alternating (normalize messages) /\
  (forall t, In t (normalize messages) ->
     fst t <> "system"%string /\ fst t <> "tool"%string /\
     (fst t = "user"%string \/
      exists msg, In msg messages /\ fst t = output_role (input_role msg))).
Proof.
  destruct (normalize_shape messages) as ((c & rest & Hhead) & Halt & Hroles).
  split; [rewrite Hhead; discriminate |].
  split; [now exists c, rest |]. split; [exact Halt | exact Hroles].
Qed.

Lemma takes_turns_of_alternating (turns : list Turn) (expected : string) :
  (expected = "user" \/ expected = "assistant")%string ->
  alternating turns ->
  (forall t, In t turns -> fst t = "user" \/ fst t = "assistant")%string ->
  match turns with
  | [] => True
  | t :: _ => fst t = expected
  end ->
  takes_turns expected turns.
Proof.
  revert expected. induction turns as [| t rest IH]; intros expected Hexp Halt Hroles Hhead;
    [exact I |].
  cbn [takes_turns]. split; [exact Hhead |].
  apply IH.
  - unfold other. destruct Hexp as [-> | ->]; [now right | now left].
  - destruct rest; [exact I | apply Halt].
  - intros u Hu. apply Hroles. now right.
  - destruct rest as [| u rest']; [exact I |].
    destruct Halt as [Hne _].
    assert (Hu : (fst u = "user" \/ fst u = "assistant")%string)
      by (apply Hroles; right; now left).
    unfold other. destruct Hexp as [-> | ->]; cbn [String.eqb Ascii.eqb Bool.eqb];
      destruct Hu as [Hu | Hu]; congruence.
Qed.

(** X23. When every input message has one of the roles [system], [user],
    [assistant] and [tool] (or none), the normalised list strictly
    alternates: user, assistant, user, ..., starting with user. *)
Theorem normalize_takes_turns (messages : list ChatMessage) :
  (forall msg, In msg messages ->
     In (input_role msg) ["system"; "user"; "assistant"; "tool"]%string) ->
  takes_turns "user" (normalize messages).
Proof.
  intros Hin.
  destruct (normalize_shape messages) as ((c & rest & Hhead) & Halt & Hroles).
  apply takes_turns_of_alternating; [now left | exact Halt | |].
  - intros t Ht. destruct (Hroles t Ht) as (Hs & Htool & [Hu | (msg & Hm & Hr)]);
      [now left |].
    specialize (Hin msg Hm). rewrite Hr in *. unfold output_role in *.
    cbn [In] in Hin. destruct Hin as [H | [H | [H | [H | []]]]]; rewrite <- H in *;
      cbn in *; try congruence; [now left | now right | now left].
  - now rewrite Hhead.
Qed.

(** *** Conversations that need no change *)

(** The turn a message becomes when nothing is merged into it. *)
Definition turn_of (msg : ChatMessage) : Turn :=
  (input_role msg, match cm_content msg with Some c => c | None => ""%string end).

Lemma alternating_tail (t : Turn) (turns : list Turn) :
  alternating (t :: turns) -> alternating turns.
Proof. destruct turns as [| u turns]; [intros _; exact I | intros [_ H]; exact H]. Qed.

Lemma alternating_app_l (l1 l2 : list Turn) :
  alternating (l1 ++ l2) -> alternating l1.
Proof.
  induction l1 as [| a l1 IH]; [intros _; exact I |].
  destruct l1 as [| b l1]; [intros _; exact I |].
  cbn [app]. intros [Hne Hrest]. split; [exact Hne |]. apply IH. exact Hrest.
Qed.

(** On a list whose last role differs from the new one, the shared step
    appends. *)
Lemma push_snoc (turns : list Turn) (role content : string) :
  alternating (turns ++ [(role, content)]) ->
  push turns role content = turns ++ [(role, content)].
Proof.
  induction turns as [| [r c] rest IH]; [reflexivity |].
  destruct rest as [| u rest].
  - cbn [app alternating fst]. intros [Hne _]. cbn [push].
    destruct (String.eqb_spec r role); [contradiction | reflexivity].
  - intros Halt. rewrite push_step. cbn [app]. f_equal.
    apply IH. exact (alternating_tail _ _ Halt).
Qed.

Lemma push_snoc_turn (turns : list Turn) (t : Turn) (rest : list Turn) :
  alternating (turns ++ t :: rest) ->
  push turns (fst t) (snd t) = turns ++ [t].
Proof.
  destruct t as [r c]. intros Halt. cbn [fst snd]. apply push_snoc.
  apply alternating_app_l with (l2 := rest). now rewrite <- app_assoc.
Qed.

Lemma merge_loop_plain (messages : list ChatMessage) (merged : list Turn) :
  (forall msg, In msg messages ->
     input_role msg <> "system"%string /\ input_role msg <> "tool"%string) ->
  alternating (merged ++ map turn_of messages) ->
  merge_loop messages merged [] = (merged ++ map turn_of messages, []).
Proof.
  revert merged. induction messages as [| msg rest IH]; intros merged Hroles Halt.
  - cbn [merge_loop map]. now rewrite app_nil_r.
  - cbn [merge_loop map]. fold (input_role msg).
    destruct (Hroles msg (or_introl eq_refl)) as [Hsys Htool].
    destruct (String.eqb_spec (input_role msg) "system"); [contradiction |].
    destruct (String.eqb_spec (input_role msg) "tool"); [contradiction |].
    change (match cm_content msg with Some c => c | None => ""%string end)
      with (snd (turn_of msg)).
    change (input_role msg) with (fst (turn_of msg)).
    cbn [map] in Halt.
    rewrite (push_snoc_turn merged (turn_of msg) (map turn_of rest) Halt), IH.
    + now rewrite <- app_assoc.
    + intros m Hm. apply Hroles. now right.
    + now rewrite <- app_assoc.
Qed.

Lemma fold_push_plain (rest acc : list Turn) :
  alternating (acc ++ rest) ->
  fold_left (fun final m => push final (fst m) (snd m)) rest acc = acc ++ rest.
Proof.
  revert acc. induction rest as [| m rest IH]; intros acc Halt.
  - cbn [fold_left]. now rewrite app_nil_r.
  - cbn [fold_left].
    rewrite (push_snoc_turn acc m rest Halt), IH; now rewrite <- app_assoc.
Qed.

(** X24. A conversation that is already well formed is handed over as it
    is: when the messages are not empty, start with a [user] message, hold
    no [system] or [tool] message, and no two neighbours share a role, the
    normalised list is the list of their roles and contents, unchanged. *)
Theorem normalize_passthrough (first : ChatMessage) (rest : list ChatMessage) :
  input_role first = "user"%string ->
  (forall msg, In msg (first :: rest) ->
     input_role msg <> "system"%string /\ input_role msg <> "tool"%string) ->
  alternating (map turn_of (first :: rest)) ->
  normalize (first :: rest) = map turn_of (first :: rest).
Proof.
  intros Huser Hroles Halt. unfold normalize.
  rewrite (merge_loop_plain (first :: rest) [] Hroles Halt).
  cbn [app flush map]. unfold start_with_user.
  replace (turn_of first) with ("user"%string, snd (turn_of first))
    by (unfold turn_of; cbn [snd]; now rewrite Huser).
  cbn [String.eqb Ascii.eqb Bool.eqb]. unfold alternate.
  apply fold_push_plain.
  cbn [app]. cbn [map] in Halt.
  replace ("user"%string, snd (turn_of first)) with (turn_of first)
    by (unfold turn_of; cbn [snd]; now rewrite Huser).
  exact Halt.
Qed.

End NormalizeFacts.

(* ================================================================== *)
(** * Tool calls through the built-in skills *)
(* ================================================================== *)

Module ToolFacts.

Import Py PyFacts Config MemorySystem Attention Skills Heartbeat BuiltinSkills.
Import MemoryFacts AttentionFacts StoreFacts HeartbeatFacts DispatchFacts.

Section WithHost.

Variable hash_content : string -> string.
Variable isoformat : Q -> string.
Variable type_error : string -> kwargs -> string.
Variable py_repr : Json -> string.
Variable off_signature : kwargs -> M HeartbeatProtocol SkillResult.

Lemma only_keys_bound (allowed : list string) (args : kwargs) :
  only_keys allowed args = true ->
  mem "self" allowed = false -> mem "name" allowed = false ->
  colliding_key args = None.
Proof.
  intros Hall Hself Hname. apply SkillFacts.colliding_key_none.
  unfold only_keys in Hall. rewrite forallb_forall in Hall.
  split; apply has_key_false; intros Hin; unfold keys in Hin;
    apply in_map_iff in Hin; destruct Hin as [kv [Hk Hin]];
    specialize (Hall kv Hin); rewrite Hk in Hall; congruence.
Qed.

(** X25. The tool [core_memory_update], called through the registry with a
    key and a content that are strings (in either order, and nothing
    else), cannot take core memory over its limit: the call returns a
    [SkillResult] that reports what [update_core_memory] returned, success
    and "Core '<key>' updated" or failure and "Limit exceeded" with the
    store unchanged; it touches nothing but the memory store, and a core
    tier that fits the budget still fits it afterwards. A call that lacks
    one of the two arguments, or has another one (not called [name] or
    [self]), comes back as a failing [SkillResult] with the [TypeError]
    text, and changes nothing. *)
Theorem core_memory_update_tool (reg : SkillRegistry HeartbeatProtocol)
    (args : kwargs) (h : HeartbeatProtocol) :
  get "core_memory_update" reg
    = Some (CoreMemoryUpdateSkill hash_content isoformat type_error off_signature) ->
  (forall key c,
     Py.get "key" args = Some (JString key) ->
     Py.get "content" args = Some (JString c) ->
     only_keys ["key"; "content"]%string args = true ->
     let res :=
       update_core_memory hash_content key c (isoformat (clock h)) (memory h) in
     exists r,
       registry_execute clock reg "core_memory_update" args h
         = (Returned r, with_memory (snd res) h) /\
       success r = fst res /\ error r = None /\
       output r
         = Some (if fst res then ("Core '" ++ key ++ "' updated")%string
                 else "Limit exceeded"%string) /\
       (within_budget (memory h) -> within_budget (snd res)) /\
       (fst res = false -> with_memory (snd res) h = h)) /\
  (colliding_key args = None ->
   Py.get "key" args = None \/ Py.get "content" args = None
   \/ only_keys ["key"; "content"]%string args = false ->
   exists r,
     registry_execute clock reg "core_memory_update" args h = (Returned r, h) /\
     success r = false /\ output r = None /\
     error r = Some (type_error "core_memory_update" args)).
Proof.
  intros Hget.
  assert (Hsame : with_memory (memory h) h = h) by now destruct h.
  split.
  - intros key c Hk Hc Hkeys res.
    unfold registry_execute.
    rewrite (only_keys_bound _ args Hkeys eq_refl eq_refl).
    unfold execute_body. rewrite Hget.
    unfold bind, try_except, read_world, ret.
    cbn [execute CoreMemoryUpdateSkill]. unfold core_memory_update_execute.
    rewrite Hk, Hc, Hkeys. subst res.
    pose proof (update_core_memory_within hash_content key c
                  (isoformat (clock h)) (memory h)) as Hw.
    destruct (update_core_memory hash_content key c (isoformat (clock h)) (memory h))
      as [ok m] eqn:Hupd.
    cbn [fst snd] in Hw |- *. eexists. split; [reflexivity |].
    cbn [success output error set_execution_time].
    split; [reflexivity |]. split; [reflexivity |]. split; [reflexivity |].
    split; [exact Hw |]. intros ->.
    unfold update_core_memory in Hupd.
    destruct (CORE_MEMORY_LIMIT <? _) in Hupd.
    + injection Hupd as <-. exact Hsame.
    + destruct (has_key _ (core (memory h))) in Hupd; discriminate.
  - intros Hbound Hbad. unfold registry_execute. rewrite Hbound.
    unfold execute_body. rewrite Hget.
    unfold bind, try_except, read_world, ret.
    cbn [execute CoreMemoryUpdateSkill]. unfold core_memory_update_execute.
    destruct (Py.get "key" args) as [key |] eqn:Hk;
      [destruct (Py.get "content" args) as [c |] eqn:Hc;
       [destruct (only_keys ["key"; "content"]%string args) eqn:Hkeys |] |];
      try (eexists; split; [reflexivity | repeat split]).
    exfalso. destruct Hbad as [H | [H | H]]; discriminate.
Qed.

Variable env : Environment.

(** A cycle whose backend asks for one tool call, when the registry answers
    that call by the result [r] and the change [f] of the scheduler, and
    the result can be serialised. *)
Lemma single_tool_cycle (llm : LLM) (triggered : bool) (h : HeartbeatProtocol)
    (req : ChatRequest) (response : ChatResponse) (msg : ResponseMessage)
    (tc : ToolCall) (r : SkillResult)
    (f : HeartbeatProtocol -> HeartbeatProtocol) (text : string) :
  cycle_request env llm h = Some req ->
  chat llm req = Returned response ->
  message response = Some msg ->
  tool_calls msg = Some [tc] ->
  (forall w, exists t,
     registry_execute clock (skills env) (function_name tc)
       (match function_arguments tc with Some a => a | None => [] end) w
     = (Returned (set_execution_time t r), f w)) ->
  json_dumps env (function_name tc) (if success r then output r else error r)
    = Returned text ->
  snd (_execute_heartbeat env llm triggered h)
  = record_event env (user_input_queue h) triggered
      (f (with_state EXECUTING
            (with_memory
               (add_to_recall
                  (mkMessage "assistant"
                     (Some (match rm_content msg with
                            | Some c => c
                            | None => ""%string
                            end)))
                  (memory (snd (gather env h))))
               (with_state THINKING (snd (gather env h)))))).
Proof.
  unfold cycle_request, _execute_heartbeat.
  pose proof (gather_frame env h) as Hg. cbv zeta in Hg.
  destruct (gather env h) as [[user_messages messages] h1].
  cbn [fst snd] in Hg. destruct Hg as (Hum & _).
  destruct (closing_message env user_messages h1) as [closing |]; [| discriminate].
  intros [= <-] Hchat Hmsg Htools Hexec Hdumps.
  cbv [bind think try_except _call_llm_chat modify_world]. cbv beta iota.
  replace (model_name (with_state THINKING h1)) with (model_name h1) by reflexivity.
  replace (is_local (with_state THINKING h1)) with (is_local h1) by reflexivity.
  rewrite Hchat. cbv beta iota. unfold _process_response. rewrite Hmsg, Htools.
  cbn [nonempty negb andb]. rewrite andb_false_r.
  cbv [bind modify_world ret]. cbv beta iota.
  cbn [run_tool_calls]. unfold run_tool_call.
  cbv [bind ret]. cbv beta iota zeta.
  match goal with
  | |- context [registry_execute clock (skills env) _ _ ?w] =>
      destruct (Hexec w) as [t Ht]; rewrite Ht
  end.
  cbv beta iota. cbn [success output error set_execution_time].
  rewrite Hdumps. cbv beta iota. cbn [snd]. now rewrite Hum.
Qed.

Lemma scheduler_skill_lookup (base : SkillRegistry HeartbeatProtocol) :
  get "send_message" (with_scheduler_skills type_error py_repr base)
    = Some (SendMessageSkill type_error) /\
  get "request_heartbeat" (with_scheduler_skills type_error py_repr base)
    = Some (RequestHeartbeatSkill type_error py_repr).
Proof.
  unfold with_scheduler_skills, register, get. split.
  - rewrite get_setitem_other by discriminate. apply get_setitem_same.
  - apply get_setitem_same.
Qed.

(** X26. A response that asks for the tool [send_message] with a message
    publishes that message and nothing else: the output channel gets exactly
    [("message", message)], while the response's own text, present or not,
    is not published (it only goes to the recall buffer as the
    [assistant] entry). The cycle ends [IDLE] and its event records the
    state [EXECUTING]. *)
Theorem send_message_tool_publishes (base : SkillRegistry HeartbeatProtocol)
    (llm : LLM) (triggered : bool) (h : HeartbeatProtocol) (req : ChatRequest)
    (response : ChatResponse) (msg : ResponseMessage) (m text : string) :
  skills env = with_scheduler_skills type_error py_repr base ->
  cycle_request env llm h = Some req ->
  chat llm req = Returned response ->
  message response = Some msg ->
  tool_calls msg
    = Some [mkToolCall "send_message" (Some [("message"%string, JString m)])] ->
  json_dumps env "send_message" (Some "Sent."%string) = Returned text ->
  let h' := snd (_execute_heartbeat env llm triggered h) in
  output_queue h' = output_queue h ++ [("message"%string, JString m)] /\
  recall (memory h')
    = recall (run_appends
                (user_entries (user_input_queue h)
                 ++ [mkMessage "assistant"
                       (Some (match rm_content msg with
                              | Some c => c
                              | None => ""%string
                              end))]) (memory h)) /\
  (exists event,
     heartbeat_history h' = deque_append 100 event (heartbeat_history h) /\
     event_state event = EXECUTING) /\
  state h' = IDLE /\ missed_beats h' = 0 /\
  heartbeat_requested h' = heartbeat_requested h.
Proof.
  intros Hskills Hreq Hchat Hmsg Htools Hdumps h'. subst h'.
  rewrite (single_tool_cycle llm triggered h req response msg _
             (mkSkillResult true (Some "Sent."%string) None 0%Q)
             (output_put ("message"%string, JString m)) text Hreq Hchat Hmsg Htools).
  - pose proof (gather_frame env h) as Hg. pose proof (gather_recall env h) as Hrec.
    cbv zeta in Hg.
    destruct (gather env h) as [[user_messages messages] h1].
    cbn [fst snd] in Hg, Hrec |- *.
    destruct Hg as (_ & Hout & _ & Hwake & _ & _ & _ & Hhist & _).
    unfold record_event, output_put.
    cbn [memory output_queue heartbeat_history state missed_beats
         heartbeat_requested with_state with_missed_beats with_history
         with_output_queue with_memory].
    split; [now rewrite Hout |]. split.
    + unfold run_appends. rewrite fold_left_app. cbn [fold_left].
      unfold add_to_recall. cbn [recall with_recall]. rewrite Hrec. reflexivity.
    + split; [eexists; split; [rewrite Hhist; reflexivity | reflexivity] |].
      split; [reflexivity |]. split; [reflexivity | exact Hwake].
  - intros w. cbn [function_name function_arguments]. rewrite Hskills.
    unfold registry_execute.
    replace (colliding_key [("message"%string, JString m)]) with (@None string)
      by reflexivity.
    unfold execute_body. rewrite (proj1 (scheduler_skill_lookup base)).
    unfold bind, try_except, read_world, ret.
    cbn [execute SendMessageSkill]. eexists. reflexivity.
  - exact Hdumps.
Qed.

(** X27. A response that asks for the tool [request_heartbeat] sets the
    wake event during the cycle, after the loop has cleared it: when the
    cycle is over the event is set, so the worker's next wait returns at
    once instead of lasting the interval. Nothing is published, not even
    the response's own text. *)
Theorem request_heartbeat_tool_wakes (base : SkillRegistry HeartbeatProtocol)
    (llm : LLM) (h : HeartbeatProtocol) (req : ChatRequest)
    (response : ChatResponse) (msg : ResponseMessage) (reason text : string) :
  skills env = with_scheduler_skills type_error py_repr base ->
  stop_event h = false ->
  cycle_request env llm (with_heartbeat_requested false h) = Some req ->
  chat llm req = Returned response ->
  message response = Some msg ->
  tool_calls msg
    = Some [mkToolCall "request_heartbeat"
              (Some [("reason"%string, JString reason)])] ->
  json_dumps env "request_heartbeat"
             (Some ("Heartbeat scheduled: " ++ reason)%string) = Returned text ->
  exists h',
    loop_body env llm h = (Continue, h') /\
    heartbeat_requested h' = true /\
    event_wait (heartbeat_requested h') (interval h') = (true, 0%Q) /\
    output_queue h' = output_queue h /\
    state h' = IDLE.
Proof.
  intros Hskills Hstop Hreq Hchat Hmsg Htools Hdumps.
  destruct (loop_body_runs_cycle env llm h) as (h' & Hbody & Hh').
  rewrite Hstop in Hbody. specialize (Hh' Hstop).
  exists h'. split; [exact Hbody |]. subst h'.
  rewrite (single_tool_cycle llm _ (with_heartbeat_requested false h) req response
             msg _
             (mkSkillResult true (Some ("Heartbeat scheduled: " ++ reason)%string)
                            None 0%Q)
             (with_heartbeat_requested true) text Hreq Hchat Hmsg Htools).
  - pose proof (gather_frame env (with_heartbeat_requested false h)) as Hg.
    cbv zeta in Hg.
    destruct (gather env (with_heartbeat_requested false h))
      as [[user_messages messages] h1].
    cbn [fst snd] in Hg |- *.
    destruct Hg as (_ & Hout & _).
    unfold record_event.
    cbn [output_queue heartbeat_requested interval state with_state
         with_missed_beats with_history with_heartbeat_requested with_memory].
    unfold event_wait. repeat split. exact Hout.
  - intros w. cbn [function_name function_arguments]. rewrite Hskills.
    unfold registry_execute.
    replace (colliding_key [("reason"%string, JString reason)]) with (@None string)
      by reflexivity.
    unfold execute_body. rewrite (proj2 (scheduler_skill_lookup base)).
    unfold bind, try_except, read_world, ret.
    cbn [execute RequestHeartbeatSkill]. unfold request_heartbeat_execute.
    replace (only_keys ["reason"%string] [("reason"%string, JString reason)])
      with true by reflexivity.
    replace (Py.get "reason" [("reason"%string, JString reason)])
      with (Some (JString reason)) by reflexivity.
    eexists. reflexivity.
  - exact Hdumps.
Qed.

End WithHost.

End ToolFacts.

(* ================================================================== *)
(** * The registry as a table of names *)
(* ================================================================== *)

Module RegistryFacts.

Import Py PyFacts Skills.

Section WithWorld.

Variable W : Type.

(** The calls that change a registry. *)
Inductive RegistryCall : Type :=
  | Register (skill : Skill W)
  | Unregister (nm : string).

Definition call (reg : SkillRegistry W) (c : RegistryCall) : SkillRegistry W :=
  match c with
  | Register skill => register skill reg
  | Unregister nm => snd (unregister nm reg)
  end.

(** The registry after a run of calls on a new [SkillRegistry()]. *)
Definition after_calls (calls : list RegistryCall) : SkillRegistry W :=
  fold_left call calls [].

(** Every entry is filed under the name of its skill, and no name is filed
    twice. *)
Definition filed_by_name (reg : SkillRegistry W) : Prop :=
  NoDup (keys reg) /\ Forall (fun kv => fst kv = name (snd kv)) reg.

Lemma filed_register (skill : Skill W) (reg : SkillRegistry W) :
  filed_by_name reg -> filed_by_name (register skill reg).
Proof.
  intros [Hnd Hall]. unfold register, setitem.
  destruct (has_key (name skill) reg) eqn:Hk.
  - split; [now rewrite keys_modify |].
    unfold modify. apply Forall_forall. intros kv Hin.
    apply in_map_iff in Hin. destruct Hin as [[k v] [<- Hin]].
    cbn [fst snd].
    destruct (String.eqb_spec (name skill) k) as [<- | _]; cbn [fst snd].
    + reflexivity.
    + exact (proj1 (Forall_forall _ _) Hall (k, v) Hin).
  - split.
    + unfold keys. rewrite map_app. apply NoDup_snoc; [exact Hnd |].
      now apply has_key_false.
    + apply Forall_app. split; [exact Hall |]. now constructor.
Qed.

Lemma filed_unregister (nm : string) (reg : SkillRegistry W) :
  filed_by_name reg -> filed_by_name (snd (unregister nm reg)).
Proof.
  intros [Hnd Hall]. unfold unregister.
  destruct (has_key nm reg); cbn [snd]; [| now split].
  unfold delitem. split.
  - clear Hall. unfold keys in *.
    induction reg as [| [k v] reg IH]; cbn [filter map fst]; [constructor |].
    inversion Hnd as [| ? ? Hk Hrest]; subst.
    destruct (String.eqb nm k); cbn [negb map fst].
    + now apply IH.
    + constructor; [| now apply IH].
      intros Hin. apply Hk. apply in_map_iff in Hin.
      destruct Hin as [kv [Hkv Hin]]. apply filter_In in Hin.
      apply in_map_iff. exists kv. tauto.
  - apply Forall_forall. intros kv Hin. apply filter_In in Hin.
    exact (proj1 (Forall_forall _ _) Hall kv (proj1 Hin)).
Qed.

Lemma filed_after_calls (calls : list RegistryCall) (reg : SkillRegistry W) :
  filed_by_name reg -> filed_by_name (fold_left call calls reg).
Proof.
  revert reg. induction calls as [| c calls IH]; intros reg Hreg; [exact Hreg |].
  cbn [fold_left]. apply IH. destruct c as [skill | nm]; cbn [call].
  - now apply filed_register.
  - now apply filed_unregister.
Qed.

Lemma get_of_entry {V : Type} (k : string) (v : V) (d : dict V) :
  NoDup (keys d) -> In (k, v) d -> Py.get k d = Some v.
Proof.
  induction d as [| [k' v'] d IH]; cbn [keys map fst In Py.get]; [tauto |].
  intros Hnd Hin. inversion Hnd as [| ? ? Hk Hrest]; subst.
  destruct Hin as [[= -> ->] | Hin].
  - now rewrite String.eqb_refl.
  - destruct (String.eqb_spec k k') as [-> | _].
    + exfalso. apply Hk. apply in_map_iff. now exists (k', v).
    + now apply IH.
Qed.

Lemma names_are_keys (reg : SkillRegistry W) :
  filed_by_name reg -> map fn_name (get_tools_schema reg) = keys reg.
Proof.
  intros [_ Hall]. unfold get_tools_schema, values, keys.
  rewrite !map_map. apply map_ext_in. intros kv Hin.
  cbn [to_tool_schema fn_name].
  symmetry. exact (proj1 (Forall_forall _ _) Hall kv Hin).
Qed.

(** X28. However skills were registered, replaced and unregistered since
    the registry was created, the tools schema offers every name once: the
    function names of [get_tools_schema] are distinct, a name is offered
    exactly when [get] finds a skill for it, every skill [list_skills]
    returns is the one its own name is dispatched to, and every parameter of
    an offered function is listed as required. *)
Theorem get_tools_schema_one_per_name (calls : list RegistryCall) :
  let reg := after_calls calls in
  NoDup (map fn_name (get_tools_schema reg)) /\
  List.length (get_tools_schema reg) = List.length (list_skills reg) /\
  (forall nm,
     In nm (map fn_name (get_tools_schema reg)) <-> exists skill, get nm reg = Some skill) /\
  (forall skill, In skill (list_skills reg) -> get (name skill) reg = Some skill) /\
  (forall schema, In schema (get_tools_schema reg) ->
     fn_required schema = keys (fn_properties schema)).
Proof.
  intros reg.
  assert (Hfiled : filed_by_name reg).
  { apply filed_after_calls. split; [constructor | constructor]. }
  pose proof (names_are_keys reg Hfiled) as Hnames.
  destruct Hfiled as [Hnd Hall].
  split; [now rewrite Hnames |].
  split; [unfold get_tools_schema, list_skills; now rewrite length_map |].
  split.
  - intros nm. rewrite Hnames. split.
    + apply get_in_keys.
    + intros [skill Hget]. apply get_some_in in Hget.
      unfold keys. apply in_map_iff. now exists (nm, skill).
  - split.
    + intros skill Hin. unfold list_skills, values in Hin.
      apply in_map_iff in Hin. destruct Hin as [[k s] [Hs Hin]].
      cbn [snd] in Hs. subst s.
      pose proof (proj1 (Forall_forall _ _) Hall (k, skill) Hin) as Hk.
      cbn [fst snd] in Hk. subst k.
      unfold get. now apply get_of_entry.
    + intros schema Hin. unfold get_tools_schema in Hin.
      apply in_map_iff in Hin. destruct Hin as [s [<- _]]. reflexivity.
Qed.

End WithWorld.

End RegistryFacts.

(* ================================================================== *)
(** * Further worked instances *)
(* ================================================================== *)

Module Scenarios.

Import Py PyFacts Config MemorySystem Attention Skills Heartbeat.
Import LocalModelWrapper BuiltinSkills.
Import MemoryFacts SearchFacts AttentionFacts HeartbeatFacts Worked.
Import StoreFacts BudgetFacts DispatchFacts NormalizeFacts ToolFacts.

(** *** Core memory *)

(** The store after the two default writes. *)
Definition seeded : MemoryManager :=
  run_writes zero_hash first_writes (MemorySystem.init "agent").

Lemma update_core_memory_in_place_witness :
  others_len "persona" (core seeded) + len "Revised." <= CORE_MEMORY_LIMIT /\
  keys (core (snd (update_core_memory zero_hash "persona" "Revised." "t3" seeded)))
    = keys (core seeded).
Proof.
  assert (H : others_len "persona" (core seeded) + len "Revised." <= CORE_MEMORY_LIMIT)
    by (vm_compute; discriminate).
  split; [exact H |].
  pose proof (update_core_memory_in_place zero_hash "persona" "Revised." "t3" seeded H)
    as P.
  cbv zeta in P. destruct P as [Hin _].
  exact (proj1 (Hin _ eq_refl)).
Defined.

Lemma update_then_delete_core_witness :
  has_key "persona" (core (MemorySystem.init "agent")) = false /\
  others_len "persona" (core (MemorySystem.init "agent")) + len "I am Nexuss."
    <= CORE_MEMORY_LIMIT /\
  delete_core_memory "persona"
    (snd (update_core_memory zero_hash "persona" "I am Nexuss." "t1"
            (MemorySystem.init "agent")))
  = (true, MemorySystem.init "agent").
Proof.
  assert (H1 : has_key "persona" (core (MemorySystem.init "agent")) = false)
    by reflexivity.
  assert (H2 : others_len "persona" (core (MemorySystem.init "agent"))
               + len "I am Nexuss." <= CORE_MEMORY_LIMIT)
    by (vm_compute; discriminate).
  split; [exact H1 |]. split; [exact H2 |].
  exact (update_then_delete_core zero_hash "persona" "I am Nexuss." "t1"
           (MemorySystem.init "agent") H1 H2).
Defined.

(** *** Archival search *)

Lemma search_archival_complete_witness :
  llen (archival_index corpus) <= 5 /\
  llen (fst (search_archival "foo bar" 5 None corpus))
    = llen (filter (matches None (query_words "foo bar"))
                   (values (archival_index corpus))).
Proof.
  assert (H : llen (archival_index corpus) <= 5) by (vm_compute; discriminate).
  split; [exact H |].
  exact (proj2 (search_archival_complete "foo bar" 5 None corpus H)).
Defined.

Lemma search_archival_blank_query_witness :
  split (lower "   ") = [] /\
  search_archival "   " 5 None corpus = ([], corpus).
Proof.
  assert (H : split (lower "   ") = []) by reflexivity.
  split; [exact H |].
  exact (search_archival_blank_query "   " 5 None corpus H).
Defined.

(** Two blocks that both hold one query word with the same importance. *)
Definition level : MemoryManager :=
  mkMemoryManager "agent" [] []
    [("b1", archived "b1" "a foo" 0.5 []);
     ("b2", archived "b2" "foo and bar" 0.5 []);
     ("b3", archived "b3" "the bar" 0.5 [])].

Lemma search_archival_ties_in_index_order_witness :
  llen (archival_index level) <= 5 /\
  filter (tied "foo bar" (archived "b1" "a foo" 0.5 []))
         (fst (search_archival "foo bar" 5 None level))
  = map bump_access
        (filter (fun b => matches None (query_words "foo bar") b
                          && tied "foo bar" (archived "b1" "a foo" 0.5 []) b)
                (values (archival_index level))).
Proof.
  assert (H : llen (archival_index level) <= 5) by (vm_compute; discriminate).
  split; [exact H |].
  exact (search_archival_ties_in_index_order "foo bar" 5 None level
           (archived "b1" "a foo" 0.5 []) H).
Defined.

Example search_archival_ties :
  map block_id (fst (search_archival "foo bar" 5 None level)) = ["b2"; "b1"; "b3"].
Proof. vm_compute. reflexivity. Qed.

(** *** Recall buffer *)

Lemma get_recall_messages_negative_limit_witness :
  -1 < 0 /\
  get_recall_messages (Some (-1)) three_messages
    = skipn (Z.to_nat (- -1)) (recall three_messages).
Proof.
  assert (H : -1 < 0) by lia.
  split; [exact H |].
  exact (proj1 (get_recall_messages_negative_limit three_messages (-1) H)).
Defined.

Example get_recall_messages_minus_one :
  get_recall_messages (Some (-1)) three_messages = [numbered 2; numbered 3] /\
  get_recall_messages (Some 1) three_messages = [numbered 3].
Proof. vm_compute. split; reflexivity. Qed.

(** *** Truncation and the attention budget *)

Lemma truncate_bounded_witness :
  3 <= 8 /\ len (Utils.truncate "hello world" 8) <= 8.
Proof.
  assert (H : 3 <= 8) by lia.
  split; [exact H |].
  exact (proj1 (truncate_bounded "hello world" 8 H)).
Defined.

Lemma build_context_keeps_margin_witness :
  Utils.estimate_tokens "You are helpful."
    + Utils.estimate_tokens (fst (get_core_memory one_memory))
    <= max_tokens (new_manager 600) - 500 /\
  total_tokens
    (snd (fst (fst (build_context (new_manager 600) "You are helpful." None one_memory))))
    <= max_tokens (new_manager 600) - 500.
Proof.
  assert (H : Utils.estimate_tokens "You are helpful."
              + Utils.estimate_tokens (fst (get_core_memory one_memory))
              <= max_tokens (new_manager 600) - 500)
    by (vm_compute; discriminate).
  split; [exact H |].
  exact (proj1 (build_context_keeps_margin (new_manager 600) "You are helpful." None
                  one_memory H)).
Defined.

Lemma build_context_over_budget_witness :
  max_tokens (new_manager 400) - 500
    < Utils.estimate_tokens "You are helpful."
      + Utils.estimate_tokens (fst (get_core_memory one_memory)) /\
  fst (fst (fst (build_context (new_manager 400) "You are helpful." None one_memory)))
    = [mkMessage "system"
         (Some (full_system "You are helpful." (fst (get_core_memory one_memory))))].
Proof.
  assert (H : max_tokens (new_manager 400) - 500
              < Utils.estimate_tokens "You are helpful."
                + Utils.estimate_tokens (fst (get_core_memory one_memory)))
    by (vm_compute; reflexivity).
  split; [exact H |].
  exact (proj1 (build_context_over_budget (new_manager 400) "You are helpful." None
                  one_memory H)).
Defined.

(** *** Heartbeat cycles *)

(** A backend that answers every request with the same text. *)
Definition hello_reply : ResponseMessage := mkResponseMessage (Some "hi") None.

Definition chatty_llm : LLM :=
  mkLLM false (fun _ => Returned (mkChatResponse (Some hello_reply))).

Definition chatty_request : ChatRequest :=
  match cycle_request plain_env chatty_llm greeted with
  | Some req => req
  | None => mkChatRequest "" [] false None None
  end.

Lemma text_response_cycle_witness :
  cycle_request plain_env chatty_llm greeted = Some chatty_request /\
  chat chatty_llm chatty_request = Returned (mkChatResponse (Some hello_reply)) /\
  message (mkChatResponse (Some hello_reply)) = Some hello_reply /\
  nonempty (tool_calls hello_reply) = false /\
  user_input_queue (snd (_execute_heartbeat plain_env chatty_llm false greeted)) = [] /\
  output_queue (snd (_execute_heartbeat plain_env chatty_llm false greeted))
    = output_queue greeted ++ [("message"%string, JString "hi")].
Proof.
  assert (H1 : cycle_request plain_env chatty_llm greeted = Some chatty_request)
    by (vm_compute; reflexivity).
  assert (H2 : chat chatty_llm chatty_request
               = Returned (mkChatResponse (Some hello_reply))) by reflexivity.
  assert (H3 : message (mkChatResponse (Some hello_reply)) = Some hello_reply)
    by reflexivity.
  assert (H4 : nonempty (tool_calls hello_reply) = false) by reflexivity.
  split; [exact H1 |]. split; [exact H2 |]. split; [exact H3 |]. split; [exact H4 |].
  pose proof (text_response_cycle plain_env chatty_llm false greeted chatty_request
                (mkChatResponse (Some hello_reply)) hello_reply H1 H2 H3 H4) as P.
  cbv zeta in P. destruct P as (Hq & _ & Hout & _).
  split; [exact Hq | exact Hout].
Defined.

Lemma failed_cycle_consumes_inputs_witness :
  cycle_request plain_env dead_llm (with_heartbeat_requested false greeted)
    = Some greeted_request /\
  chat dead_llm greeted_request = Raised refused /\
  user_input_queue
    (snd (_execute_heartbeat plain_env dead_llm true
            (with_heartbeat_requested false greeted))) = [].
Proof.
  assert (H1 : cycle_request plain_env dead_llm (with_heartbeat_requested false greeted)
               = Some greeted_request) by (vm_compute; reflexivity).
  assert (H2 : chat dead_llm greeted_request = Raised refused) by reflexivity.
  split; [exact H1 |]. split; [exact H2 |].
  exact (proj1 (failed_cycle_consumes_inputs plain_env dead_llm true
                  (with_heartbeat_requested false greeted) greeted_request refused
                  H1 H2)).
Defined.

Lemma stop_ends_loop_without_cycle_witness :
  stop_event greeted = false /\
  In Stop [Stop; SendInput "too late"] /\
  _heartbeat_loop plain_env [([Stop; SendInput "too late"], dead_llm)] greeted
    = (true,
       with_heartbeat_requested false
         (fold_left (fun h a => act a h) [Stop; SendInput "too late"] greeted)).
Proof.
  assert (H1 : stop_event greeted = false) by reflexivity.
  assert (H2 : In Stop [Stop; SendInput "too late"]) by (simpl; auto).
  split; [exact H1 |]. split; [exact H2 |].
  exact (proj1 (stop_ends_loop_without_cycle plain_env dead_llm
                  [Stop; SendInput "too late"] [] greeted H1 H2)).
Defined.

(** *** Normalisation for the local backend *)

Definition briefing : list ChatMessage :=
  [mkChatMessage (Some "system") (Some "Be brief.");
   mkChatMessage (Some "user") (Some "hi");
   mkChatMessage (Some "user") (Some "there");
   mkChatMessage (Some "tool") (Some "{}")].

Lemma normalize_takes_turns_witness :
  (forall msg, In msg briefing ->
     In (input_role msg) ["system"; "user"; "assistant"; "tool"]%string) /\
  takes_turns "user" (normalize briefing).
Proof.
  assert (H : forall msg, In msg briefing ->
                In (input_role msg) ["system"; "user"; "assistant"; "tool"]%string).
  { intros msg [<- | [<- | [<- | [<- | []]]]]; simpl; auto. }
  split; [exact H |].
  exact (normalize_takes_turns briefing H).
Defined.

Definition exchange : list ChatMessage :=
  [mkChatMessage (Some "assistant") (Some "hello"); mkChatMessage None (Some "bye")].

Lemma normalize_passthrough_witness :
  input_role (mkChatMessage (Some "user") (Some "hi")) = "user"%string /\
  (forall msg, In msg (mkChatMessage (Some "user") (Some "hi") :: exchange) ->
     input_role msg <> "system"%string /\ input_role msg <> "tool"%string) /\
  alternating (map turn_of (mkChatMessage (Some "user") (Some "hi") :: exchange)) /\
  normalize (mkChatMessage (Some "user") (Some "hi") :: exchange)
    = map turn_of (mkChatMessage (Some "user") (Some "hi") :: exchange).
Proof.
  assert (H1 : input_role (mkChatMessage (Some "user") (Some "hi")) = "user"%string)
    by reflexivity.
  assert (H2 : forall msg,
             In msg (mkChatMessage (Some "user") (Some "hi") :: exchange) ->
             input_role msg <> "system"%string /\ input_role msg <> "tool"%string).
  { intros msg [<- | [<- | [<- | []]]]; split; discriminate. }
  assert (H3 : alternating
                 (map turn_of (mkChatMessage (Some "user") (Some "hi") :: exchange))).
  { simpl. repeat split; discriminate. }
  split; [exact H1 |]. split; [exact H2 |]. split; [exact H3 |].
  exact (normalize_passthrough (mkChatMessage (Some "user") (Some "hi")) exchange
           H1 H2 H3).
Defined.

(** *** Tool calls *)

Definition plain_type_error (nm : string) (_ : kwargs) : string :=
  (nm ++ "() got an unexpected keyword argument")%string.

Definition plain_isoformat (_ : Q) : string := "now".

Definition plain_repr (_ : Json) : string := "<value>".

(** The environment of a scheduler as [__init__] leaves it: only the two
    skills of the scheduler are registered. *)
Definition tool_env : Environment :=
  mkEnvironment (fun _ _ => "heartbeat prompt") (fun _ _ => "local prompt")
                (fun _ => "status") (fun nm _ => Returned nm) plain_isoformat
                (with_scheduler_skills plain_type_error plain_repr []).

(** A stand-in for what [core_memory_update] does off its signature. *)
Definition refuse_off_signature (_ : kwargs) : M HeartbeatProtocol SkillResult :=
  raise (mkExc OtherException "off signature").

Definition memory_registry : SkillRegistry HeartbeatProtocol :=
  register (CoreMemoryUpdateSkill zero_hash plain_isoformat plain_type_error
                                  refuse_off_signature)
           (with_scheduler_skills plain_type_error plain_repr []).

Definition persona_update : kwargs :=
  [("content", JString "I am Nexuss."); ("key", JString "persona")]%string.

Lemma core_memory_update_tool_witness :
  get "core_memory_update" memory_registry
    = Some (CoreMemoryUpdateSkill zero_hash plain_isoformat plain_type_error
                                  refuse_off_signature) /\
  Py.get "key" persona_update = Some (JString "persona") /\
  Py.get "content" persona_update = Some (JString "I am Nexuss.") /\
  only_keys ["key"; "content"]%string persona_update = true /\
  exists r,
    registry_execute clock memory_registry "core_memory_update" persona_update greeted
    = (Returned r,
       with_memory
         (snd (update_core_memory zero_hash "persona" "I am Nexuss."
                 (plain_isoformat (clock greeted)) (memory greeted))) greeted) /\
    success r = true /\
    output r = Some "Core 'persona' updated"%string.
Proof.
  assert (H : get "core_memory_update" memory_registry
              = Some (CoreMemoryUpdateSkill zero_hash plain_isoformat plain_type_error
                                            refuse_off_signature))
    by reflexivity.
  assert (Hk : Py.get "key" persona_update = Some (JString "persona")) by reflexivity.
  assert (Hc : Py.get "content" persona_update = Some (JString "I am Nexuss."))
    by reflexivity.
  assert (Hkeys : only_keys ["key"; "content"]%string persona_update = true)
    by reflexivity.
  split; [exact H |]. split; [exact Hk |]. split; [exact Hc |]. split; [exact Hkeys |].
  pose proof (proj1 (core_memory_update_tool zero_hash plain_isoformat plain_type_error
                       refuse_off_signature memory_registry persona_update greeted H)
                _ _ Hk Hc Hkeys) as P.
  cbv zeta in P. destruct P as (r & Hrun & Hs & _ & Ho & _).
  exists r. split; [exact Hrun |]. split; [exact Hs | exact Ho].
Defined.

(** A backend that answers with one call of [send_message]. *)
Definition send_call : ResponseMessage :=
  mkResponseMessage (Some "thinking aloud")
    (Some [mkToolCall "send_message"
             (Some [("message"%string, JString "Hello there")])]).

Definition sending_llm : LLM :=
  mkLLM false (fun _ => Returned (mkChatResponse (Some send_call))).

Definition sending_request : ChatRequest :=
  match cycle_request tool_env sending_llm greeted with
  | Some req => req
  | None => mkChatRequest "" [] false None None
  end.

Lemma send_message_tool_publishes_witness :
  skills tool_env = with_scheduler_skills plain_type_error plain_repr [] /\
  cycle_request tool_env sending_llm greeted = Some sending_request /\
  chat sending_llm sending_request = Returned (mkChatResponse (Some send_call)) /\
  message (mkChatResponse (Some send_call)) = Some send_call /\
  tool_calls send_call
    = Some [mkToolCall "send_message"
              (Some [("message"%string, JString "Hello there")])] /\
  json_dumps tool_env "send_message" (Some "Sent."%string) = Returned "send_message"%string /\
  output_queue (snd (_execute_heartbeat tool_env sending_llm false greeted))
    = output_queue greeted ++ [("message"%string, JString "Hello there")].
Proof.
  assert (H1 : skills tool_env = with_scheduler_skills plain_type_error plain_repr [])
    by reflexivity.
  assert (H2 : cycle_request tool_env sending_llm greeted = Some sending_request)
    by (vm_compute; reflexivity).
  assert (H3 : chat sending_llm sending_request
               = Returned (mkChatResponse (Some send_call))) by reflexivity.
  assert (H4 : message (mkChatResponse (Some send_call)) = Some send_call)
    by reflexivity.
  assert (H5 : tool_calls send_call
               = Some [mkToolCall "send_message"
                         (Some [("message"%string, JString "Hello there")])])
    by reflexivity.
  assert (H6 : json_dumps tool_env "send_message" (Some "Sent."%string)
               = Returned "send_message"%string) by reflexivity.
  split; [exact H1 |]. split; [exact H2 |]. split; [exact H3 |]. split; [exact H4 |].
  split; [exact H5 |]. split; [exact H6 |].
  pose proof (send_message_tool_publishes plain_type_error plain_repr tool_env []
                sending_llm false greeted sending_request
                (mkChatResponse (Some send_call))
                send_call "Hello there" "send_message" H1 H2 H3 H4 H5 H6) as P.
  cbv zeta in P. exact (proj1 P).
Defined.

(** A backend that answers with one call of [request_heartbeat]. *)
Definition wake_call : ResponseMessage :=
  mkResponseMessage None
    (Some [mkToolCall "request_heartbeat"
             (Some [("reason"%string, JString "follow up")])]).

Definition waking_llm : LLM :=
  mkLLM false (fun _ => Returned (mkChatResponse (Some wake_call))).

Definition waking_request : ChatRequest :=
  match cycle_request tool_env waking_llm (with_heartbeat_requested false greeted) with
  | Some req => req
  | None => mkChatRequest "" [] false None None
  end.

Lemma request_heartbeat_tool_wakes_witness :
  skills tool_env = with_scheduler_skills plain_type_error plain_repr [] /\
  stop_event greeted = false /\
  cycle_request tool_env waking_llm (with_heartbeat_requested false greeted)
    = Some waking_request /\
  chat waking_llm waking_request = Returned (mkChatResponse (Some wake_call)) /\
  message (mkChatResponse (Some wake_call)) = Some wake_call /\
  tool_calls wake_call
    = Some [mkToolCall "request_heartbeat"
              (Some [("reason"%string, JString "follow up")])] /\
  json_dumps tool_env "request_heartbeat"
             (Some ("Heartbeat scheduled: " ++ "follow up")%string)
    = Returned "request_heartbeat"%string /\
  exists h',
    loop_body tool_env waking_llm greeted = (Continue, h') /\
    heartbeat_requested h' = true.
Proof.
  assert (H1 : skills tool_env = with_scheduler_skills plain_type_error plain_repr [])
    by reflexivity.
  assert (H0 : stop_event greeted = false) by reflexivity.
  assert (H2 : cycle_request tool_env waking_llm (with_heartbeat_requested false greeted)
               = Some waking_request) by (vm_compute; reflexivity).
  assert (H3 : chat waking_llm waking_request
               = Returned (mkChatResponse (Some wake_call))) by reflexivity.
  assert (H4 : message (mkChatResponse (Some wake_call)) = Some wake_call)
    by reflexivity.
  assert (H5 : tool_calls wake_call
               = Some [mkToolCall "request_heartbeat"
                         (Some [("reason"%string, JString "follow up")])])
    by reflexivity.
  assert (H6 : json_dumps tool_env "request_heartbeat"
                 (Some ("Heartbeat scheduled: " ++ "follow up")%string)
               = Returned "request_heartbeat"%string) by reflexivity.
  split; [exact H1 |]. split; [exact H0 |]. split; [exact H2 |]. split; [exact H3 |].
  split; [exact H4 |]. split; [exact H5 |]. split; [exact H6 |].
  destruct (request_heartbeat_tool_wakes plain_type_error plain_repr tool_env []
              waking_llm greeted waking_request (mkChatResponse (Some wake_call))
              wake_call "follow up" "request_heartbeat" H1 H0 H2 H3 H4 H5 H6)
    as (h' & Hbody & Hwake & _).
  exists h'. split; [exact Hbody | exact Hwake].
Defined.

Example tool_cycles :
  output_queue (snd (_execute_heartbeat tool_env sending_llm false greeted))
    = [("message"%string, JString "Hello there")] /\
  heartbeat_requested (snd (loop_body tool_env waking_llm greeted)) = true /\
  output_queue (snd (loop_body tool_env waking_llm greeted)) = [].
Proof. vm_compute. repeat split. Qed.

(** A backend whose tool call carries an argument called [name], followed
    by a call of [send_message] that is then never made. *)
Definition named_call : ResponseMessage :=
  mkResponseMessage None
    (Some [mkToolCall "lookup" (Some [("name"%string, JString "Ada")]);
           mkToolCall "send_message"
             (Some [("message"%string, JString "Hello there")])]).

Definition naming_llm : LLM :=
  mkLLM false (fun _ => Returned (mkChatResponse (Some named_call))).



Example colliding_tool_call_cycle :
  output_queue (snd (_execute_heartbeat tool_env naming_llm false greeted))
    = [("error"%string,
        JString "SkillRegistry.execute() got multiple values for argument 'name'")] /\
  state (snd (_execute_heartbeat tool_env naming_llm false greeted)) = IDLE.
Proof. vm_compute. split; reflexivity. Qed.

End Scenarios.
